(** * Synthetic OCR fixture generator (scripts/generate_documents.py)

    A shallow embedding of the generator script and the proofs of the
    properties its specification states about it.

    Conventions of the embedding:
    - Python [int] is [Z]; Python [float] is the kernel's binary64 [float];
      [str] is [string]; a [dict] with a fixed shape is a record, the
      quality table is a [gmap], and a dict that is serialised to JSON is an
      insertion-ordered association list inside [json].
    - The [random] module is an oracle: an infinite sequence of raw draws
      and a cursor.  Every library call consumes the draws CPython's
      implementation would ask for, so a statement quantified over the
      oracle covers every run.
    - Pillow is not re-implemented: an image is the history of the
      operations applied to it, and reading a pixel of a drawn, blurred or
      rotated image is delegated to a rasteriser that is a section
      variable.
    - The file system and the console are parts of the [world] threaded
      through every effectful function. *)

From Stdlib Require Import ZArith List String Ascii Lia Bool.
From Stdlib Require Import DecimalString.
From Stdlib Require Import PrimFloat FloatOps SpecFloat Uint63 FloatAxioms.
From stdpp Require Import gmap strings sorting.

Set Warnings "-inexact-float,-register-all".
Open Scope string_scope.
Open Scope Z_scope.

(** ** Strings and number formatting *)

Module Str.

(** [str(n)] for an integer. *)
Definition of_Z (n : Z) : string := NilZero.string_of_int (Z.to_int n).

Fixpoint repeat_char (c : ascii) (n : nat) : string :=
  match n with
  | O => EmptyString
  | S k => String c (repeat_char c k)
  end.

(** [format(n, "0{w}d")]: sign first, then zeros up to the total width. *)
Definition zfill (w : nat) (n : Z) : string :=
  let digits := of_Z (Z.abs n) in
  let sign := if n <? 0 then "-" else "" in
  let used := (String.length sign + String.length digits)%nat in
  sign ++ repeat_char "0"%char (w - used) ++ digits.

(** [s[:n]] *)
Definition take (n : nat) (s : string) : string := String.substring 0 n s.

Definition upper_char (c : ascii) : ascii :=
  let n := nat_of_ascii c in
  if ((97 <=? n)%nat && (n <=? 122)%nat)%bool then ascii_of_nat (n - 32) else c.

(** [s.upper()] on ASCII text. *)
Fixpoint upper (s : string) : string :=
  match s with
  | EmptyString => EmptyString
  | String c r => String (upper_char c) (upper r)
  end.

Fixpoint rev_acc (s acc : string) : string :=
  match s with
  | EmptyString => acc
  | String c r => rev_acc r (String c acc)
  end.

(** Thousands separators of the [","] format option, on a reversed digit
    string: a comma after every complete group of three that is followed by
    more digits. *)
Fixpoint group3_rev (s : string) (k : nat) : string :=
  match s with
  | EmptyString => EmptyString
  | String c r =>
      match k, r with
      | S (S O), String _ _ => String c (String ","%char (group3_rev r 0))
      | _, _ => String c (group3_rev r (S k))
      end
  end.

Definition group_thousands (digits : string) : string :=
  rev_acc (group3_rev (rev_acc digits "") 0) "".

(** [s.split(" ")] restricted to non-empty pieces, i.e. [s.split()]. *)
Fixpoint split_go (s cur : string) : list string :=
  match s with
  | EmptyString => if String.eqb cur "" then [] else [rev_acc cur ""]
  | String c r =>
      if Ascii.eqb c " "%char
      then (if String.eqb cur "" then split_go r "" else rev_acc cur "" :: split_go r "")
      else split_go r (String c cur)
  end.

Definition split (s : string) : list string := split_go s "".

(** Whether no string occurs twice in [l]. *)
Fixpoint distinct (l : list string) : bool :=
  match l with
  | [] => true
  | s :: rest => negb (existsb (String.eqb s) rest) && distinct rest
  end.

End Str.

(** ** Binary64 helpers: [round(x, 2)] and [format(x, ",.2f")] *)

Module Float.

(** Round the exact rational [m * 2^e] to the nearest integer, ties to
    even: the rounding both [round] and the ["f"] presentation type use. *)
Definition round_half_even (m e : Z) : Z :=
  if 0 <=? e then m * 2 ^ e
  else
    let den := 2 ^ (- e) in
    let q := m / den in
    let r := m mod den in
    if 2 * r <? den then q
    else if den <? 2 * r then q + 1
    else if Z.even q then q else q + 1.

(** The number of hundredths nearest to [|x|], for finite [x]. *)
Definition hundredths (x : float) : option (bool * Z) :=
  match Prim2SF x with
  | S754_zero s => Some (s, 0)
  | S754_finite s m e => Some (s, round_half_even (Z.pos m * 100) e)
  | S754_infinity _ | S754_nan => None
  end.

(** [round(x, 2)]: the double nearest to the correctly rounded two-digit
    decimal (CPython's dtoa/strtod round trip). *)
Definition round2 (x : float) : float :=
  match hundredths x with
  | Some (s, Z0) => if s then (-0)%float else 0%float
  | Some (s, Z.pos n) =>
      SF2Prim (SFdiv prec emax (S754_finite s n 0) (S754_finite false 100 0))
  | _ => x
  end.

(** The double nearest to the decimal [cents / 100], negated when
    [negative]: the value [float] gives a decimal with two places, and the
    one [round] returns. *)
Definition of_hundredths (negative : bool) (cents : Z) : float :=
  match cents with
  | Z.pos n =>
      SF2Prim (SFdiv prec emax (S754_finite negative n 0) (S754_finite false 100 0))
  | _ => if negative then (-0)%float else 0%float
  end.

(** A number that is not negative and below [2^K]: a zero, or a mantissa
    and an exponent whose bits and exponent add up to at most [K]. *)
Definition within (K : Z) (f : spec_float) : Prop :=
  match f with
  | S754_zero s => s = false
  | S754_finite s m e => s = false ∧ Z.pos (digits2_pos m) + e ≤ K
  | _ => False
  end.

(** [format(x, ",.2f")] *)
Definition format_comma_2f (x : float) : string :=
  match hundredths x with
  | Some (s, n) =>
      (if s then "-" else "")
        ++ Str.group_thousands (Str.of_Z (n / 100)) ++ "." ++ Str.zfill 2 (n mod 100)
  | None =>
      match Prim2SF x with
      | S754_infinity true => "-inf"
      | S754_infinity false => "inf"
      | _ => "nan"
      end
  end.

End Float.

(** ** [datetime]: the calendar arithmetic the script relies on *)

Module Datetime.

(** A [datetime] at midnight; the script never sets a time of day. *)
Record t := mk { year : Z; month : Z; day : Z }.

Definition is_leap (y : Z) : bool :=
  ((y mod 4 =? 0) && (negb (y mod 100 =? 0) || (y mod 400 =? 0)))%bool.

Definition days_in_month (leap : bool) (m : Z) : Z :=
  match m with
  | 1 => 31 | 2 => if leap then 29 else 28 | 3 => 31 | 4 => 30
  | 5 => 31 | 6 => 30 | 7 => 31 | 8 => 31
  | 9 => 30 | 10 => 31 | 11 => 30 | 12 => 31
  | _ => 0
  end.

(** Days of the year before the first of month [m] in a common year. *)
Definition days_before_month_common (m : Z) : Z :=
  match m with
  | 1 => 0 | 2 => 31 | 3 => 59 | 4 => 90 | 5 => 120 | 6 => 151
  | 7 => 181 | 8 => 212 | 9 => 243 | 10 => 273 | 11 => 304 | 12 => 334
  | _ => 0
  end.

Definition days_before_month (leap : bool) (m : Z) : Z :=
  days_before_month_common m + (if ((2 <? m) && leap)%bool then 1 else 0).

Definition days_before_year (y : Z) : Z :=
  let p := y - 1 in p * 365 + p / 4 - p / 100 + p / 400.

(** [d.toordinal()]: 1 is 0001-01-01 of the proleptic Gregorian calendar. *)
Definition toordinal (d : t) : Z :=
  days_before_year (year d) + days_before_month (is_leap (year d)) (month d) + day d.

(** [datetime.fromordinal(n)], as [_ord2ymd] computes it. *)
Definition fromordinal (n : Z) : t :=
  let n := n - 1 in
  let n400 := n / 146097 in let n := n mod 146097 in
  let n100 := n / 36524 in let n := n mod 36524 in
  let n4 := n / 1461 in let n := n mod 1461 in
  let n1 := n / 365 in let n := n mod 365 in
  let y := n400 * 400 + 1 + n100 * 100 + n4 * 4 + n1 in
  if ((n1 =? 4) || (n100 =? 4))%bool then mk (y - 1) 12 31
  else
    let leapyear := ((n1 =? 3) && (negb (n4 =? 24) || (n100 =? 3)))%bool in
    let m := Z.shiftr (n + 50) 5 in
    let preceding := days_before_month leapyear m in
    if n <? preceding
    then
      let m' := m - 1 in
      let preceding' := preceding - days_in_month leapyear m' in
      mk y m' (n - preceding' + 1)
    else mk y m (n - preceding + 1).

(** [d + timedelta(days=k)] *)
Definition add_days (d : t) (k : Z) : t := fromordinal (toordinal d + k).

(** [(a - b).days] *)
Definition diff_days (a b : t) : Z := toordinal a - toordinal b.

Definition month_name (m : Z) : string :=
  match m with
  | 1 => "January" | 2 => "February" | 3 => "March" | 4 => "April"
  | 5 => "May" | 6 => "June" | 7 => "July" | 8 => "August"
  | 9 => "September" | 10 => "October" | 11 => "November" | 12 => "December"
  | _ => ""
  end.

(** [strftime("%B %d, %Y")]; the years of the script have four digits. *)
Definition strftime_B_d_Y (d : t) : string :=
  month_name (month d) ++ " " ++ Str.zfill 2 (day d) ++ ", " ++ Str.zfill 4 (year d).

(** [strftime("%Y-%m-%d")] *)
Definition strftime_Y_m_d (d : t) : string :=
  Str.zfill 4 (year d) ++ "-" ++ Str.zfill 2 (month d) ++ "-" ++ Str.zfill 2 (day d).

(** [strftime("%m/%d/%Y")] *)
Definition strftime_m_d_Y (d : t) : string :=
  Str.zfill 2 (month d) ++ "/" ++ Str.zfill 2 (day d) ++ "/" ++ Str.zfill 4 (year d).

(** [strftime("%m/%d")] *)
Definition strftime_m_d (d : t) : string :=
  Str.zfill 2 (month d) ++ "/" ++ Str.zfill 2 (day d).

End Datetime.

(** ** The [random] module as an oracle *)

Module Random.

(** The generator's state: every raw draw it will ever yield, and how many
    have been consumed.  The script never seeds it, so a run starts from
    an arbitrary oracle. *)
Record state := mk { draws : N -> Z; cursor : N }.

Definition start (o : N -> Z) : state := mk o 0.

Definition next (s : state) : Z * state :=
  (draws s (cursor s), mk (draws s) (N.succ (cursor s))).

(** [_randbelow(n)]: an integer of [range(n)], the next raw draw reduced
    modulo [n]. *)
Definition randbelow (n : Z) (s : state) : Z * state :=
  let (r, s') := next s in (r mod n, s').

(** [random.randint(a, b)]: [a + _randbelow(b - a + 1)]; the script only
    calls it with [a <= b]. *)
Definition randint (a b : Z) (s : state) : Z * state :=
  let (r, s') := randbelow (b - a + 1) s in (a + r, s').

(** [random.random()]: a multiple of [2^-53] in [[0, 1)]. *)
Definition random (s : state) : float * state :=
  let (r, s') := randbelow (2 ^ 53) s in
  ((PrimFloat.of_uint63 (Uint63.of_Z r) / 0x1p53)%float, s').

(** [random.uniform(a, b)]: [a + (b - a) * random()]. *)
Definition uniform (a b : float) (s : state) : float * state :=
  let (u, s') := random s in ((a + (b - a) * u)%float, s').

(** [random.choice(seq)] on the non-empty sequence [x :: xs]. *)
Definition choice {A} (x : A) (xs : list A) (s : state) : A * state :=
  let (i, s') := randbelow (Z.of_nat (length (x :: xs))) s in
  (nth (Z.to_nat i) (x :: xs) x, s').

(** The selection loop of [random.sample] for a small population:
    [j = _randbelow(n - i); result[i] = pool[j]; pool[j] = pool[n - i - 1]]. *)
Fixpoint sample_loop {A} (d : A) (pool : list A) (n : nat) (k : nat)
    (s : state) : list A * state :=
  match k with
  | O => ([], s)
  | S k' =>
      let (j, s1) := randbelow (Z.of_nat n) s in
      let picked := nth (Z.to_nat j) pool d in
      let pool' := <[Z.to_nat j := nth (n - 1) pool d]> pool in
      let (rest, s2) := sample_loop d pool' (n - 1) k' s1 in
      (picked :: rest, s2)
  end.

(** [random.sample(population, k)] for [k <= len(population) <= 21], the
    pool branch of CPython; [x :: xs] is the population. *)
Definition sample {A} (x : A) (xs : list A) (k : Z) (s : state) : list A * state :=
  sample_loop x (x :: xs) (length (x :: xs)) (Z.to_nat k) s.

End Random.

(** ** Pillow images as operation histories *)

Inductive color :=
| Named (name : string)
| RGBA (r g b a : Z).

Inductive font :=
| TrueType (path : string) (size : Z)
| DefaultFont.

Definition point : Type := Z * Z.
Definition pixel : Type := Z * Z * Z.

(** The calls made on an [ImageDraw.Draw] object. *)
Inductive draw_op :=
| DrawRectangle (xy : point * point) (fill outline : option color) (width : Z)
| DrawText (xy : point) (text : string) (fill : color) (fnt : font)
    (anchor : option string)
| DrawLine (xy : point * point) (fill : color) (width : Z).

Inductive image :=
| New (mode : string) (size : point) (background : string)
| Draw (img : image) (op : draw_op)
| GaussianBlur (img : image) (radius : float)
| PutPixel (img : image) (xy : point) (value : pixel)
| Rotate (img : image) (angle : Z) (fillcolor : pixel) (expand : bool).

(** What happened to an image, oldest first. *)
Inductive step :=
| Drawn (op : draw_op)
| Blurred (radius : float)
| Noised (xy : point) (value : pixel)
| Rotated (angle : Z) (fillcolor : pixel) (expand : bool).

Fixpoint history (img : image) : list step :=
  match img with
  | New _ _ _ => []
  | Draw i op => history i ++ [Drawn op]
  | GaussianBlur i radius => history i ++ [Blurred radius]
  | PutPixel i xy value => history i ++ [Noised xy value]
  | Rotate i angle fillcolor expand => history i ++ [Rotated angle fillcolor expand]
  end.

(** The drawing calls an image received, in order. *)
Definition ops (img : image) : list draw_op :=
  omap (fun s => match s with Drawn op => Some op | _ => None end) (history img).

(** The strings written on an image. *)
Definition texts (img : image) : list string :=
  omap (fun op => match op with DrawText _ s _ _ _ => Some s | _ => None end) (ops img).

(** ** JSON values, with dicts in insertion order *)

Inductive json :=
| JString (s : string)
| JInt (n : Z)
| JFloat (x : float)
| JBool (b : bool)
| JList (items : list json)
| JDict (fields : list (string * json)).

(** [d[key]] of a JSON dict. *)
Fixpoint assoc (key : string) (fields : list (string * json)) : option json :=
  match fields with
  | [] => None
  | (k, v) :: rest => if String.eqb k key then Some v else assoc key rest
  end.

Definition get (key : string) (j : json) : option json :=
  match j with
  | JDict fields => assoc key fields
  | _ => None
  end.

Definition keys (j : json) : list string :=
  match j with
  | JDict fields => map fst fields
  | _ => []
  end.

(** ** The world: random source, file system, clock and console *)

Inductive file :=
| Png (img : image)
| JsonText (doc : json).

Record world := mkWorld {
  rng : Random.state;
  dirs : list string;
  files : list (string * file);
  utcnow_isoformat : string;
  stdout : list string
}.

Definition M (A : Type) : Type := world -> A * world.

(** The state monad over [world], with stdpp's notation for binds. *)
#[global] Instance M_ret : MRet M := fun A (a : A) w => (a, w).

#[global] Instance M_bind : MBind M :=
  fun A B (k : A -> M B) (m : M A) w => let (a, w') := m w in k a w'.

(** Lift a [random] call to the world. *)
Definition rand {A} (f : Random.state -> A * Random.state) : M A :=
  fun w =>
    let (a, s') := f (rng w) in
    (a, mkWorld s' (dirs w) (files w) (utcnow_isoformat w) (stdout w)).

Definition print (line : string) : M unit :=
  fun w => (tt, mkWorld (rng w) (dirs w) (files w) (utcnow_isoformat w)
                  (stdout w ++ [line])).

(** [os.makedirs(path, exist_ok=True)] *)
Definition makedirs (path : string) : M unit :=
  fun w => (tt, mkWorld (rng w) (dirs w ++ [path]) (files w)
                  (utcnow_isoformat w) (stdout w)).

(** Writing a file: [img.save(path)] and [json.dump(doc, open(path, "w"))].
    Failures of the file system are outside the model. *)
Definition write_file (path : string) (content : file) : M unit :=
  fun w => (tt, mkWorld (rng w) (dirs w) (files w ++ [(path, content)])
                  (utcnow_isoformat w) (stdout w)).

(** [datetime.utcnow().isoformat()] *)
Definition utcnow : M string := fun w => (utcnow_isoformat w, w).

(** A [for] loop that carries its local variables in [st]. *)
Fixpoint for_each {A St} (xs : list A) (body : A -> St -> M St) (st : St) : M St :=
  match xs with
  | [] => mret st
  | x :: rest => st' ← body x st; for_each rest body st'
  end.

(** [range(n)] *)
Definition range (n : Z) : list Z := seqZ 0 n.

(** [os.path.join(a, b)] *)
Definition path_join (a b : string) : string :=
  match b with
  | String "/"%char _ => b
  | _ =>
      if String.eqb a "" then b
      else if String.eqb (String.substring (String.length a - 1) 1 a) "/" then a ++ b
      else a ++ "/" ++ b
  end.

(** ** Catalog data *)

Record organization := mkOrg { org_name : string; org_ein : string; org_short : string }.

Record bank := mkBank { bank_name : string; bank_short : string }.

Definition ORGANIZATIONS : list organization :=
  [ mkOrg "Goodwill Industries" "53-0196517" "goodwill";
    mkOrg "The Salvation Army" "13-5562351" "salvation-army";
    mkOrg "American Red Cross" "53-0196605" "redcross";
    mkOrg "Habitat for Humanity" "91-1914868" "habitat";
    mkOrg "United Way Worldwide" "13-1635294" "unitedway";
    mkOrg "Community Food Bank" "12-3456789" "foodbank";
    mkOrg "First Community Church" "23-4567890" "church";
    mkOrg "State University Foundation" "34-5678901" "university" ].

Definition BANKS : list bank :=
  [ mkBank "Chase Bank" "chase";
    mkBank "Bank of America" "bofa";
    mkBank "Wells Fargo" "wellsfargo";
    mkBank "Citibank" "citi";
    mkBank "Local Credit Union" "creditunion" ].

#[global] Instance organization_inhabited : Inhabited organization :=
  populate (mkOrg "Goodwill Industries" "53-0196517" "goodwill").

#[global] Instance bank_inhabited : Inhabited bank :=
  populate (mkBank "Chase Bank" "chase").

(** [seq[i % len(seq)]] *)
Definition cyclic {A} `{Inhabited A} (l : list A) (i : Z) : A :=
  l !!! Z.to_nat (i mod Z.of_nat (length l)).

(** ** Degradation profiles *)

Record setting := mkSetting { blur : float; noise : Z; rotation : Z }.

#[global] Instance setting_inhabited : Inhabited setting :=
  populate (mkSetting 0 0 0).

(** The module-level [QUALITY_SETTINGS] literal.  Its one random draw, the
    rotation of the edge preset, happens when the module is loaded. *)
Definition load_QUALITY_SETTINGS : M (gmap string setting) :=
  edge_rotation ← rand (Random.randint 5 15);
  mret (<["edge" := mkSetting 0.8 15 edge_rotation]>
       (<["low" := mkSetting 1.5 25 0]>
       (<["medium" := mkSetting 0.5 10 0]>
       (<["high" := mkSetting 0 0 0]> ∅)))).

(** [enumerate(seq)] *)
Definition enumerate {A} (l : list A) : list (Z * A) :=
  imap (fun i x => (Z.of_nat i, x)) l.

(** [textwrap.wrap(text, width)] for text made of words separated by single
    spaces, none of them longer than [width] and none hyphenated, which is
    what the script passes: a word goes on the current line while the line
    stays within [width]. *)
Fixpoint wrap_words (ws : list string) (cur : string) (width : nat) : list string :=
  match ws with
  | [] => if String.eqb cur "" then [] else [cur]
  | w :: rest =>
      if String.eqb cur "" then wrap_words rest w width
      else if (String.length cur + 1 + String.length w <=? width)%nat
           then wrap_words rest (cur ++ " " ++ w) width
           else cur :: wrap_words rest w width
  end.

Definition textwrap_wrap (text : string) (width : nat) : list string :=
  wrap_words (Str.split text) "" width.

(** ** A concrete environment, for the examples *)

Module Demo.

Definition BASE_DIR : string := "/repo".
Definition font_installed (path : string) : bool := true.
Definition raster (img : image) (xy : point) : pixel := (255, 255, 255).
Definition rotated_size (sz : point) (angle : Z) : point := sz.

(** Two random sources: the [n]-th raw draw of each. *)
Definition oracle_a (n : N) : Z := 1000 * Z.of_N n + 149.
Definition oracle_b (n : N) : Z := 1000 * Z.of_N n + 150.

(** A run starts with no files, at some time of the clock. *)
Definition world_at (oracle : N -> Z) (now : string) : world :=
  mkWorld (Random.start oracle) [] [] now [].

End Demo.

Section Script.

(** The environment of a run. *)
Variable BASE_DIR : string.
  (* os.path.dirname(os.path.dirname(__file__)) *)
Variable font_installed : string -> bool.
  (* whether ImageFont.truetype finds the file *)
Variable raster : image -> point -> pixel.
  (* Pillow's pixel data of an image that was drawn on, blurred or rotated *)
Variable rotated_size : point -> Z -> point.
  (* the size Pillow gives an image rotated with expand=True *)

Definition OUTPUT_DIR : string := path_join BASE_DIR "documents".
Definition MANIFEST_PATH : string := path_join BASE_DIR "manifest.json".

(** [img.size] *)
Fixpoint size (img : image) : point :=
  match img with
  | New _ sz _ => sz
  | Draw i _ => size i
  | GaussianBlur i _ => size i
  | PutPixel i _ _ => size i
  | Rotate i angle _ expand => if expand then rotated_size (size i) angle else size i
  end.

Definition width (img : image) : Z := fst (size img).
Definition height (img : image) : Z := snd (size img).

(** [img.load()[x, y][:3]] *)
Fixpoint getpixel (img : image) (xy : point) : pixel :=
  match img with
  | PutPixel i xy' v =>
      if ((fst xy =? fst xy') && (snd xy =? snd xy'))%bool then v else getpixel i xy
  | _ => raster img xy
  end.

Definition get_font (size : Z) (bold : bool) : font :=
  let path :=
    if bold then "/usr/share/fonts/truetype/dejavu/DejaVuSans-Bold.ttf"
    else "/usr/share/fonts/truetype/dejavu/DejaVuSans.ttf" in
  if font_installed path then TrueType path size else DefaultFont.

Definition add_watermark (img : image) : image :=
  let font := get_font 24 false in
  let watermark := "SAMPLE - FOR TESTING ONLY" in
  Draw img (DrawText (width img / 4, height img / 2) watermark
              (RGBA 200 200 200 128) font None).

(** The body of the noise loop for one pixel. *)
Definition noise_pixel (magnitude : Z) (i j : Z) (img : image) : M image :=
  u ← rand Random.random;
  if (u <? 0.1)%float then
    noise ← rand (Random.randint (- magnitude) magnitude);
    let '(r, g, b) := getpixel img (i, j) in
    mret (PutPixel img (i, j)
            (Z.max 0 (Z.min 255 (r + noise)),
             Z.max 0 (Z.min 255 (g + noise)),
             Z.max 0 (Z.min 255 (b + noise))))
  else mret img.

Section Functions.

(** The module global, as bound when the module was loaded. *)
Variable QUALITY_SETTINGS : gmap string setting.

Definition apply_quality (img : image) (quality : string) : M image :=
  let settings := default (QUALITY_SETTINGS !!! "high") (QUALITY_SETTINGS !! quality) in
  (* Apply blur *)
  let img :=
    if (0 <? blur settings)%float then GaussianBlur img (blur settings) else img in
  (* Apply noise *)
  img ← (if 0 <? noise settings then
            for_each (range (width img)) (fun i img =>
              for_each (range (height img)) (fun j img =>
                noise_pixel (noise settings) i j img) img) img
          else mret img);
  (* Apply rotation *)
  if 0 <? rotation settings then
    sign ← rand (Random.choice (-1) [1]);
    let angle := sign * rotation settings in
    mret (Rotate img angle (255, 255, 255) true)
  else mret img.

Definition random_date (start_year : Z) : M Datetime.t :=
  let start := Datetime.mk start_year 1 1 in
  let end_ := Datetime.mk 2026 1 29 in
  let delta_days := Datetime.diff_days end_ start in
  random_days ← rand (Random.randint 0 delta_days);
  mret (Datetime.add_days start random_days).

Definition random_amount (min_amt max_amt : float) : M float :=
  x ← rand (Random.uniform min_amt max_amt);
  mret (Float.round2 x).

(** [for line in wrapped: draw.text((x, y), line, ...); y += step] *)
Definition draw_lines (x step : Z) (fill : color) (fnt : font)
    (wrapped : list string) (img : image) (y : Z) : image * Z :=
  fold_left (fun '(img, y) line =>
               (Draw img (DrawText (x, y) line fill fnt None), y + step))
            wrapped (img, y).

Definition generate_receipt (org : organization) (quality : string) (index : Z)
    (manifest_entries : list json) : M (string * list json) :=
  (* Create image *)
  let '(width, height) := (600, 800) in
  let img := New "RGB" (width, height) "white" in
  (* Fonts *)
  let title_font := get_font 24 true in
  let header_font := get_font 18 true in
  let normal_font := get_font 14 false in
  let small_font := get_font 12 false in
  let y := 40 in
  (* Organization header *)
  let img := Draw img (DrawRectangle ((20, 20), (width - 20, 100))
                         None (Some (Named "black")) 2) in
  let img := Draw img (DrawText (width / 2, 40) (org_name org)
                         (Named "black") title_font (Some "mt")) in
  let img := Draw img (DrawText (width / 2, 70) ("EIN: " ++ org_ein org)
                         (Named "gray") small_font (Some "mt")) in
  let y := 130 in
  (* Receipt title *)
  let img := Draw img (DrawText (width / 2, y) "DONATION RECEIPT"
                         (Named "black") header_font (Some "mt")) in
  let y := y + 50 in
  (* Generate data *)
  date ← random_date 2025;
  amount ← random_amount 25 5000;
  n ← rand (Random.randint 10000 99999);
  let receipt_num := "RCP-" ++ Str.of_Z (Datetime.year date) ++ "-" ++ Str.of_Z n in
  (* Receipt details *)
  let img := Draw img (DrawText (40, y) ("Receipt Number: " ++ receipt_num)
                         (Named "black") normal_font None) in
  let y := y + 30 in
  let img := Draw img (DrawText (40, y) ("Date: " ++ Datetime.strftime_B_d_Y date)
                         (Named "black") normal_font None) in
  let y := y + 50 in
  (* Donor info *)
  let img := Draw img (DrawText (40, y) "Received From:"
                         (Named "black") header_font None) in
  let y := y + 30 in
  let img := Draw img (DrawText (60, y) "Test Donor"
                         (Named "black") normal_font None) in
  let y := y + 25 in
  let img := Draw img (DrawText (60, y) "123 Test Street"
                         (Named "black") normal_font None) in
  let y := y + 25 in
  let img := Draw img (DrawText (60, y) "Test City, ST 12345"
                         (Named "black") normal_font None) in
  let y := y + 50 in
  (* Donation amount *)
  let img := Draw img (DrawRectangle ((40, y), (width - 40, y + 60))
                         None (Some (Named "black")) 1) in
  let img := Draw img (DrawText (width / 2, y + 10) "DONATION AMOUNT"
                         (Named "black") small_font (Some "mt")) in
  let img := Draw img (DrawText (width / 2, y + 35)
                         ("$" ++ Float.format_comma_2f amount)
                         (Named "black") title_font (Some "mt")) in
  let y := y + 90 in
  (* Tax statement *)
  let tax_text := "No goods or services were provided in exchange for this donation. This receipt may be used for tax purposes." in
  let wrapped := textwrap_wrap tax_text 60 in
  let '(img, y) := draw_lines 40 20 (Named "gray") small_font wrapped img y in
  let y := y + 30 in
  (* Signature line *)
  let img := Draw img (DrawLine ((40, y + 40), (250, y + 40)) (Named "black") 1) in
  let img := Draw img (DrawText (40, y + 45) "Authorized Signature"
                         (Named "gray") small_font None) in
  (* Footer *)
  let img := Draw img (DrawText (width / 2, height - 40)
                         "Thank you for your generous donation!"
                         (Named "black") normal_font (Some "mt")) in
  (* Add watermark and apply quality *)
  let img := add_watermark img in
  img ← apply_quality img quality;
  (* Save *)
  let filename :=
    "receipt_" ++ org_short org ++ "_" ++ quality ++ "_" ++ Str.zfill 3 index ++ ".png" in
  let filepath := path_join (path_join OUTPUT_DIR "receipts") filename in
  write_file filepath (Png img);;
  (* Add to manifest *)
  let manifest_entries := (manifest_entries ++ [
    JDict [
      ("filename", JString ("receipts/" ++ filename));
      ("documentType", JString "receipt");
      ("quality", JString quality);
      ("synthetic", JBool true);
      ("expectedFields", JDict [
        ("organization_name", JString (org_name org));
        ("ein", JString (org_ein org));
        ("amount", JFloat amount);
        ("date", JString (Datetime.strftime_Y_m_d date));
        ("donor_name", JString "Test Donor");
        ("receipt_number", JString receipt_num)
      ])
    ]
  ])%list in
  mret (filename, manifest_entries).

Definition generate_acknowledgment_letter (org : organization) (quality : string)
    (index : Z) (manifest_entries : list json) : M (string * list json) :=
  let '(width, height) := (600, 850) in
  let img := New "RGB" (width, height) "white" in
  let title_font := get_font 20 true in
  let header_font := get_font 16 true in
  let normal_font := get_font 12 false in
  let small_font := get_font 10 false in
  let y := 40 in
  (* Letterhead *)
  let img := Draw img (DrawText (width / 2, y) (org_name org)
                         (Named "black") title_font (Some "mt")) in
  let y := y + 30 in
  let img := Draw img (DrawText (width / 2, y)
                         "123 Charity Lane, Nonprofit City, ST 00000"
                         (Named "gray") small_font (Some "mt")) in
  let y := y + 20 in
  let img := Draw img (DrawText (width / 2, y) ("Tax ID: " ++ org_ein org)
                         (Named "gray") small_font (Some "mt")) in
  let y := y + 10 in
  let img := Draw img (DrawLine ((40, y + 10), (width - 40, y + 10)) (Named "gray") 1) in
  let y := y + 40 in
  (* Date *)
  date ← random_date 2025;
  let img := Draw img (DrawText (40, y) (Datetime.strftime_B_d_Y date)
                         (Named "black") normal_font None) in
  let y := y + 40 in
  (* Recipient *)
  let img := Draw img (DrawText (40, y) "Test Donor"
                         (Named "black") normal_font None) in
  let y := y + 20 in
  let img := Draw img (DrawText (40, y) "123 Test Street"
                         (Named "black") normal_font None) in
  let y := y + 20 in
  let img := Draw img (DrawText (40, y) "Test City, ST 12345"
                         (Named "black") normal_font None) in
  let y := y + 40 in
  (* Greeting *)
  let img := Draw img (DrawText (40, y) "Dear Test Donor,"
                         (Named "black") normal_font None) in
  let y := y + 35 in
  (* Body *)
  amount ← random_amount 25 5000;
  k ← rand (Random.randint 1 14);
  let donation_date := Datetime.add_days date (- k) in
  let body :=
    "Thank you for your generous donation of $" ++ Float.format_comma_2f amount
      ++ " received on " ++ Datetime.strftime_B_d_Y donation_date
      ++ ". Your support helps us continue our mission to serve the community." in
  let wrapped := textwrap_wrap body 70 in
  let '(img, y) := draw_lines 40 20 (Named "black") normal_font wrapped img y in
  let y := y + 25 in
  (* Tax statement *)
  let tax_text := "This letter serves as your official receipt for tax purposes. No goods or services were provided in exchange for your contribution. Please retain this letter for your tax records." in
  let wrapped := textwrap_wrap tax_text 70 in
  let '(img, y) := draw_lines 40 20 (Named "black") normal_font wrapped img y in
  let y := y + 30 in
  (* Donation details box *)
  let img := Draw img (DrawRectangle ((40, y), (width - 40, y + 80))
                         None (Some (Named "gray")) 1) in
  let img := Draw img (DrawText (50, y + 10) "Donation Details:"
                         (Named "black") header_font None) in
  let img := Draw img (DrawText (50, y + 35)
                         ("Amount: $" ++ Float.format_comma_2f amount)
                         (Named "black") normal_font None) in
  let img := Draw img (DrawText (50, y + 55)
                         ("Date Received: " ++ Datetime.strftime_Y_m_d donation_date)
                         (Named "black") normal_font None) in
  let img := Draw img (DrawText (300, y + 35) "Type: Cash/Check"
                         (Named "black") normal_font None) in
  let y := y + 110 in
  (* Closing *)
  let img := Draw img (DrawText (40, y) "With gratitude,"
                         (Named "black") normal_font None) in
  let y := y + 50 in
  let img := Draw img (DrawLine ((40, y), (200, y)) (Named "black") 1) in
  let y := y + 5 in
  let img := Draw img (DrawText (40, y) "Executive Director"
                         (Named "black") small_font None) in
  let y := y + 15 in
  let img := Draw img (DrawText (40, y) (org_name org)
                         (Named "black") small_font None) in
  let img := add_watermark img in
  img ← apply_quality img quality;
  let filename :=
    "acknowledgment_" ++ org_short org ++ "_" ++ quality ++ "_"
      ++ Str.zfill 3 index ++ ".png" in
  let filepath := path_join (path_join OUTPUT_DIR "acknowledgment_letters") filename in
  write_file filepath (Png img);;
  let manifest_entries := (manifest_entries ++ [
    JDict [
      ("filename", JString ("acknowledgment_letters/" ++ filename));
      ("documentType", JString "acknowledgment_letter");
      ("quality", JString quality);
      ("synthetic", JBool true);
      ("expectedFields", JDict [
        ("organization_name", JString (org_name org));
        ("ein", JString (org_ein org));
        ("amount", JFloat amount);
        ("date", JString (Datetime.strftime_Y_m_d donation_date));
        ("donor_name", JString "Test Donor")
      ])
    ]
  ])%list in
  mret (filename, manifest_entries).

(** A row of the statement: the transaction dicts of the script. *)
Record txn := mkTxn {
  txn_date : Datetime.t;
  txn_desc : string;
  txn_amount : float;
  txn_balance : float;
  txn_charitable : bool;
  txn_org : option organization
}.

(** [transactions.sort(key=lambda x: x["date"])]: a stable sort. *)
Fixpoint insert_by_date (t : txn) (sorted : list txn) : list txn :=
  match sorted with
  | [] => [t]
  | u :: rest =>
      if Datetime.toordinal (txn_date t) <? Datetime.toordinal (txn_date u)
      then t :: u :: rest
      else u :: insert_by_date t rest
  end.

Definition sort_by_date (l : list txn) : list txn :=
  fold_left (fun sorted t => insert_by_date t sorted) l [].

(** The local variables of the two loops that generate transactions. *)
Definition gen_state : Type := list txn * float * Datetime.t.

Definition regular_transaction (_ : Z) (st : gen_state) : M gen_state :=
  let '(transactions, balance, current_date) := st in
  x ← rand (Random.uniform 20 200);
  let amt := (- x)%float in
  let balance := (balance + amt)%float in
  desc ← rand (Random.choice "GROCERY STORE"
                 ["GAS STATION"; "RESTAURANT"; "ONLINE PURCHASE"]);
  let transactions := (transactions ++ [
    mkTxn current_date desc amt balance false None ])%list in
  days ← rand (Random.randint 1 5);
  mret (transactions, balance, Datetime.add_days current_date days).

Definition charitable_transaction (org : organization) (st : gen_state) : M gen_state :=
  let '(transactions, balance, current_date) := st in
  x ← random_amount 50 500;
  let amt := (- x)%float in
  let balance := (balance + amt)%float in
  let transactions := (transactions ++ [
    mkTxn current_date ("DONATION " ++ Str.upper (Str.take 20 (org_name org)))
          amt balance true (Some org) ])%list in
  days ← rand (Random.randint 1 5);
  mret (transactions, balance, Datetime.add_days current_date days).

(** The drawing loop of the statement, with its [break]. *)
Fixpoint draw_transactions (height : Z) (normal_font : font)
    (transactions : list txn) (img : image) (y : Z)
    (charitable_entries : list json) : image * Z * list json :=
  match transactions with
  | [] => (img, y, charitable_entries)
  | t :: rest =>
      if height - 80 <? y then (img, y, charitable_entries)
      else
        let img := Draw img (DrawText (30, y) (Datetime.strftime_m_d (txn_date t))
                               (Named "black") normal_font None) in
        let img := Draw img (DrawText (120, y) (Str.take 35 (txn_desc t))
                               (Named "black") normal_font None) in
        let color := if (txn_amount t <? 0)%float then "red" else "green" in
        let img := Draw img (DrawText (450, y)
                               ("$" ++ Float.format_comma_2f (txn_amount t))
                               (Named color) normal_font None) in
        let img := Draw img (DrawText (550, y)
                               ("$" ++ Float.format_comma_2f (txn_balance t))
                               (Named "black") normal_font None) in
        let y := y + 22 in
        let charitable_entries :=
          if txn_charitable t then
            (charitable_entries ++ [
              JDict [
                ("organization", JString (org_name (default inhabitant (txn_org t))));
                ("amount", JFloat (abs (txn_amount t)));
                ("date", JString (Datetime.strftime_Y_m_d (txn_date t)))
              ]
            ])%list
          else charitable_entries in
        draw_transactions height normal_font rest img y charitable_entries
  end.

Definition generate_bank_statement (bank : bank) (quality : string) (index : Z)
    (manifest_entries : list json) : M (string * list json) :=
  let '(width, height) := (700, 600) in
  let img := New "RGB" (width, height) "white" in
  let title_font := get_font 22 true in
  let header_font := get_font 14 true in
  let normal_font := get_font 11 false in
  let small_font := get_font 10 false in
  let y := 30 in
  (* Bank header *)
  let img := Draw img (DrawRectangle ((0, 0), (width, 80))
                         (Some (Named "#003366")) None 1) in
  let img := Draw img (DrawText (30, 25) (bank_name bank)
                         (Named "white") title_font None) in
  let img := Draw img (DrawText (30, 55) "Account Statement"
                         (Named "#cccccc") small_font None) in
  let y := 100 in
  (* Account info *)
  n ← rand (Random.randint 1000 9999);
  let acct_num := "***" ++ Str.of_Z n in
  start_date ← random_date 2025;
  let end_date := Datetime.add_days start_date 30 in
  let img := Draw img (DrawText (30, y) ("Account: " ++ acct_num)
                         (Named "black") normal_font None) in
  let img := Draw img (DrawText (400, y) "Statement Period:"
                         (Named "black") normal_font None) in
  let y := y + 20 in
  let img := Draw img (DrawText (30, y) "Primary Checking"
                         (Named "gray") small_font None) in
  let img := Draw img (DrawText (400, y)
                         (Datetime.strftime_m_d_Y start_date ++ " - "
                            ++ Datetime.strftime_m_d_Y end_date)
                         (Named "black") small_font None) in
  let y := y + 40 in
  (* Transaction header *)
  let img := Draw img (DrawRectangle ((20, y), (width - 20, y + 25))
                         (Some (Named "#f0f0f0")) None 1) in
  let img := Draw img (DrawText (30, y + 5) "Date"
                         (Named "black") header_font None) in
  let img := Draw img (DrawText (120, y + 5) "Description"
                         (Named "black") header_font None) in
  let img := Draw img (DrawText (450, y + 5) "Amount"
                         (Named "black") header_font None) in
  let img := Draw img (DrawText (550, y + 5) "Balance"
                         (Named "black") header_font None) in
  let y := y + 30 in
  (* Generate transactions *)
  let transactions := [] in
  balance ← rand (Random.uniform 5000 15000);
  let current_date := start_date in
  (* Add some regular transactions *)
  count ← rand (Random.randint 3 5);
  st ← for_each (range count) regular_transaction
         (transactions, balance, current_date);
  (* Add charitable transactions *)
  k ← rand (Random.randint 2 3);
  charitable_orgs ← rand (Random.sample (hd inhabitant ORGANIZATIONS)
                            (tl ORGANIZATIONS) k);
  '(transactions, balance, current_date) ←
    for_each charitable_orgs charitable_transaction st;
  (* Sort by date *)
  let transactions := sort_by_date transactions in
  (* Draw transactions *)
  let charitable_entries := [] in
  let '(img, y, charitable_entries) :=
    draw_transactions height normal_font transactions img y charitable_entries in
  (* Footer *)
  let img := Draw img (DrawLine ((20, height - 50), (width - 20, height - 50))
                         (Named "gray") 1) in
  let img := Draw img (DrawText (30, height - 40) "Page 1 of 1"
                         (Named "gray") small_font None) in
  let img := add_watermark img in
  img ← apply_quality img quality;
  let filename :=
    "bank_statement_" ++ bank_short bank ++ "_" ++ quality ++ "_"
      ++ Str.zfill 3 index ++ ".png" in
  let filepath := path_join (path_join OUTPUT_DIR "bank_statements") filename in
  write_file filepath (Png img);;
  let manifest_entries := (manifest_entries ++ [
    JDict [
      ("filename", JString ("bank_statements/" ++ filename));
      ("documentType", JString "bank_statement");
      ("quality", JString quality);
      ("synthetic", JBool true);
      ("expectedFields", JDict [
        ("bank_name", JString (bank_name bank));
        ("account_number", JString acct_num);
        ("statement_period_start", JString (Datetime.strftime_Y_m_d start_date));
        ("statement_period_end", JString (Datetime.strftime_Y_m_d end_date));
        ("charitable_transactions", JList charitable_entries)
      ])
    ]
  ])%list in
  mret (filename, manifest_entries).

(** The local variables of a loop of [main]: the counter and the manifest. *)
Definition main_state : Type := Z * list json.

Definition main : M unit :=
  print "Generating OCR test documents...";;
  (* Ensure directories exist *)
  for_each ["receipts"; "acknowledgment_letters"; "bank_statements";
            "credit_card_statements"; "cancelled_checks"; "appraisals";
            "form_8283"; "other"]
    (fun subdir (_ : unit) => makedirs (path_join OUTPUT_DIR subdir)) tt;;
  let manifest_entries : list json := [] in
  (* Generate receipts (30 total): 12 high, 9 medium, 6 low, 3 edge *)
  print "Generating receipts...";;
  let receipt_count := 0 in
  '(receipt_count, manifest_entries) ←
    for_each (enumerate (replicate 12 "high" ++ replicate 9 "medium"
                           ++ replicate 6 "low" ++ replicate 3 "edge")%list)
      (fun '(i, quality) '((receipt_count, manifest_entries) : main_state) =>
         let org := cyclic ORGANIZATIONS i in
         '(_, manifest_entries) ←
           generate_receipt org quality (receipt_count + 1) manifest_entries;
         mret (receipt_count + 1, manifest_entries))
      (receipt_count, manifest_entries);
  print ("  Generated " ++ Str.of_Z receipt_count ++ " receipts");;
  (* Generate acknowledgment letters (20 total) *)
  print "Generating acknowledgment letters...";;
  let letter_count := 0 in
  '(letter_count, manifest_entries) ←
    for_each (enumerate (replicate 10 "high" ++ replicate 6 "medium"
                           ++ replicate 4 "low")%list)
      (fun '(i, quality) '((letter_count, manifest_entries) : main_state) =>
         let org := cyclic ORGANIZATIONS i in
         '(_, manifest_entries) ←
           generate_acknowledgment_letter org quality (letter_count + 1)
             manifest_entries;
         mret (letter_count + 1, manifest_entries))
      (letter_count, manifest_entries);
  print ("  Generated " ++ Str.of_Z letter_count ++ " acknowledgment letters");;
  (* Generate bank statements (15 total) *)
  print "Generating bank statements...";;
  let statement_count := 0 in
  '(statement_count, manifest_entries) ←
    for_each (enumerate (replicate 8 "high" ++ replicate 5 "medium"
                           ++ replicate 2 "low")%list)
      (fun '(i, quality) '((statement_count, manifest_entries) : main_state) =>
         let bank := cyclic BANKS i in
         '(_, manifest_entries) ←
           generate_bank_statement bank quality (statement_count + 1)
             manifest_entries;
         mret (statement_count + 1, manifest_entries))
      (statement_count, manifest_entries);
  print ("  Generated " ++ Str.of_Z statement_count ++ " bank statements");;
  (* Create manifest *)
  generatedAt ← utcnow;
  let manifest := JDict [
    ("version", JString "1.0.0");
    ("generatedBy", JString "claude-synthetic");
    ("generatedAt", JString (generatedAt ++ "Z"));
    ("totalDocuments", JInt (Z.of_nat (length manifest_entries)));
    ("documentCounts", JDict [
      ("receipts", JInt receipt_count);
      ("acknowledgment_letters", JInt letter_count);
      ("bank_statements", JInt statement_count)
    ]);
    ("documents", JList manifest_entries)
  ] in
  write_file MANIFEST_PATH (JsonText manifest);;
  print (String "010"%char "Generated "
           ++ Str.of_Z (Z.of_nat (length manifest_entries)) ++ " total documents");;
  print ("Manifest saved to " ++ MANIFEST_PATH).

End Functions.

(** Running the script: the module is loaded, then [main()] is called. *)
Definition script : M unit :=
  QUALITY_SETTINGS ← load_QUALITY_SETTINGS;
  main QUALITY_SETTINGS.

(** ** Observations used by the statements *)

(** The preset [apply_quality] selects for a label. *)
Definition preset (QUALITY_SETTINGS : gmap string setting) (quality : string) : setting :=
  default (QUALITY_SETTINGS !!! "high") (QUALITY_SETTINGS !! quality).

(** A pixel written by the noise loop with magnitude [mag]: one offset in
    [[-mag, mag]] added to the three channels of the pixel that was there,
    each sum clamped. *)
Definition noisy (mag : Z) (write : point * pixel) : Prop :=
  ∃ n r g b, - mag ≤ n ≤ mag ∧
    write.2 = (Z.max 0 (Z.min 255 (r + n)),
               Z.max 0 (Z.min 255 (g + n)),
               Z.max 0 (Z.min 255 (b + n))).

(** [img'] is [img] degraded by exactly the blur, noise and rotation of
    [s], in this order. *)
Definition degraded (s : setting) (img img' : image) : Prop :=
  ∃ (writes : list (point * pixel)) (sign : Z),
    history img' =
      (history img
         ++ (if (0 <? blur s)%float then [Blurred (blur s)] else [])
         ++ map (fun write => Noised write.1 write.2) writes
         ++ (if 0 <? rotation s
             then [Rotated (sign * rotation s) (255, 255, 255) true] else []))%list
    ∧ (sign = 1 ∨ sign = -1)
    ∧ Forall (noisy (noise s)) writes
    ∧ (noise s ≤ 0 → writes = []).

(** Only the random source differs between [w] and [w']. *)
Definition only_rng (w w' : world) : Prop :=
  dirs w' = dirs w ∧ files w' = files w
  ∧ utcnow_isoformat w' = utcnow_isoformat w ∧ stdout w' = stdout w.

(** A computation that touches nothing but the random source. *)
Definition pure_random {A} (m : M A) : Prop := ∀ w, only_rng w (m w).2.

(** The invariant of the two noise loops. *)
Definition noise_invariant (mag : Z) (img0 : image) (w0 : world)
    (img : image) (w : world) : Prop :=
  only_rng w0 w
  ∧ ∃ writes : list (point * pixel),
      history img = (history img0 ++ map (fun write => Noised write.1 write.2) writes)%list
      ∧ Forall (noisy mag) writes.

(** An image that was only drawn on: no filter, pixel write or rotation. *)
Fixpoint drawn_only (img : image) : bool :=
  match img with
  | New _ _ _ => true
  | Draw i _ => drawn_only i
  | _ => false
  end.

(** The record the specification gives for one generated image:
    [{ filename, documentType, quality, synthetic, expectedFields }]. *)
Definition manifest_record (filename documentType quality : string)
    (expectedFields : list (string * json)) : json :=
  JDict [
    ("filename", JString filename);
    ("documentType", JString documentType);
    ("quality", JString quality);
    ("synthetic", JBool true);
    ("expectedFields", JDict expectedFields)
  ].

(** The watermark text that [add_watermark] draws on [img]. *)
Definition watermark_of (img : image) : draw_op :=
  DrawText (width img / 4, height img / 2) "SAMPLE - FOR TESTING ONLY"
    (RGBA 200 200 200 128) (get_font 24 false) None.

(** The world after a renderer that started in [w], drew [canvas], had
    sampled its data by [w1], and saved under [path]: the canvas was
    watermarked, then degraded, then written. *)
Definition rendered (QUALITY_SETTINGS : gmap string setting) (quality path : string)
    (canvas : image) (w w1 w' : world) : Prop :=
  only_rng w w1
  ∧ drawn_only canvas = true
  ∧ w' = mkWorld
           (rng (apply_quality QUALITY_SETTINGS (add_watermark canvas) quality w1).2)
           (dirs w)
           (files w ++ [(path,
              Png (apply_quality QUALITY_SETTINGS (add_watermark canvas) quality w1).1)])
           (utcnow_isoformat w) (stdout w).

(** [receipt_number] as the receipt renderer formats it. *)
Definition receipt_number (date : Datetime.t) (n : Z) : string :=
  "RCP-" ++ Str.of_Z (Datetime.year date) ++ "-" ++ Str.of_Z n.

(** The file name every renderer builds: [{prefix}_{short}_{quality}_{index:03d}.png]. *)
Definition document_filename (prefix short quality : string) (index : Z) : string :=
  prefix ++ "_" ++ short ++ "_" ++ quality ++ "_" ++ Str.zfill 3 index ++ ".png".

Definition receipt_tax_text : string :=
  "No goods or services were provided in exchange for this donation. This receipt may be used for tax purposes.".

(** The sentence of the letter body that names the donation. *)
Definition letter_body (amount : float) (donation_date : Datetime.t) : string :=
  "Thank you for your generous donation of $" ++ Float.format_comma_2f amount
    ++ " received on " ++ Datetime.strftime_B_d_Y donation_date
    ++ ". Your support helps us continue our mission to serve the community.".

Definition letter_tax_text : string :=
  "This letter serves as your official receipt for tax purposes. No goods or services were provided in exchange for your contribution. Please retain this letter for your tax records.".

(** The dates [random_date()] can return: 2025-01-01 plus 0 to 393 days. *)
Definition sampled_date (d : Datetime.t) : Prop :=
  ∃ days, 0 ≤ days ≤ 393 ∧ d = Datetime.add_days (Datetime.mk 2025 1 1) days.

(** The four strings of a statement row, left to right. *)
Definition row_texts (t : txn) : list string :=
  [ Datetime.strftime_m_d (txn_date t);
    Str.take 35 (txn_desc t);
    "$" ++ Float.format_comma_2f (txn_amount t);
    "$" ++ Float.format_comma_2f (txn_balance t) ].

(** The ground-truth entry of a charitable transaction. *)
Definition charitable_entry (t : txn) : json :=
  JDict [
    ("organization", JString (org_name (default inhabitant (txn_org t))));
    ("amount", JFloat (abs (txn_amount t)));
    ("date", JString (Datetime.strftime_Y_m_d (txn_date t)))
  ].

(** The entries of the charitable transactions among [txns], in order. *)
Definition charitable_entries (txns : list txn) : list json :=
  map charitable_entry (List.filter txn_charitable txns).

(** A transaction as the two generating loops build it: a donation row
    names one of the catalog's organizations, any other row has none. *)
Definition well_formed_txn (t : txn) : Prop :=
  if txn_charitable t
  then ∃ org, org ∈ ORGANIZATIONS ∧ txn_org t = Some org
              ∧ txn_desc t = "DONATION " ++ Str.upper (Str.take 20 (org_name org))
  else txn_org t = None.

Definition generated (w : world) (txns0 : list txn) (n : nat)
    (st : gen_state) (w' : world) : Prop :=
  only_rng w w'
  ∧ ∃ new, st.1.1 = (txns0 ++ new)%list ∧ length new = n ∧ Forall well_formed_txn new.

(** ** The schedule of [main], in the specification's words *)

Inductive document_type := Receipt | AcknowledgmentLetter | BankStatement.

(** [documentType] in the manifest. *)
Definition type_name (kind : document_type) : string :=
  match kind with
  | Receipt => "receipt"
  | AcknowledgmentLetter => "acknowledgment_letter"
  | BankStatement => "bank_statement"
  end.

(** The sub-directory of the documents directory. *)
Definition directory (kind : document_type) : string :=
  match kind with
  | Receipt => "receipts"
  | AcknowledgmentLetter => "acknowledgment_letters"
  | BankStatement => "bank_statements"
  end.

(** The first component of the file name. *)
Definition prefix (kind : document_type) : string :=
  match kind with
  | Receipt => "receipt"
  | AcknowledgmentLetter => "acknowledgment"
  | BankStatement => "bank_statement"
  end.

(** The fixed quality distribution of each document type. *)
Definition qualities (kind : document_type) : list string :=
  match kind with
  | Receipt =>
      replicate 12 "high" ++ replicate 9 "medium" ++ replicate 6 "low"
        ++ replicate 3 "edge"
  | AcknowledgmentLetter =>
      replicate 10 "high" ++ replicate 6 "medium" ++ replicate 4 "low"
  | BankStatement =>
      replicate 8 "high" ++ replicate 5 "medium" ++ replicate 2 "low"
  end%list.

(** Round-robin through the catalog: the entry of the [i]-th document. *)
Definition catalog_name (kind : document_type) (i : Z) : string :=
  match kind with
  | BankStatement => bank_name (cyclic BANKS i)
  | _ => org_name (cyclic ORGANIZATIONS i)
  end.

Definition catalog_short (kind : document_type) (i : Z) : string :=
  match kind with
  | BankStatement => bank_short (cyclic BANKS i)
  | _ => org_short (cyclic ORGANIZATIONS i)
  end.

(** The ground-truth fields of each document type; the first one holds the
    catalog entry's name. *)
Definition expected_keys (kind : document_type) : list string :=
  match kind with
  | Receipt =>
      ["organization_name"; "ein"; "amount"; "date"; "donor_name"; "receipt_number"]
  | AcknowledgmentLetter =>
      ["organization_name"; "ein"; "amount"; "date"; "donor_name"]
  | BankStatement =>
      ["bank_name"; "account_number"; "statement_period_start";
       "statement_period_end"; "charitable_transactions"]
  end.

(** A scheduled document: its type, its position in its type's loop
    (from 0) and the quality label. *)
Definition scheduled : Type := document_type * Z * string.

Definition schedule_of (kind : document_type) : list scheduled :=
  map (fun '(i, quality) => (kind, i, quality)) (enumerate (qualities kind)).

Definition schedule : list scheduled :=
  (schedule_of Receipt ++ schedule_of AcknowledgmentLetter
     ++ schedule_of BankStatement)%list.

(** The name under which a scheduled document is saved. *)
Definition scheduled_filename (item : scheduled) : string :=
  let '(kind, i, quality) := item in
  document_filename (prefix kind) (catalog_short kind i) quality (i + 1).

(** The manifest key of a scheduled document: its path relative to the
    documents directory. *)
Definition relative_path (item : scheduled) : string :=
  directory item.1.1 ++ "/" ++ scheduled_filename item.

(** One scheduled document was generated: its manifest record and the
    file saved for it. *)
Definition document_ok (QUALITY_SETTINGS : gmap string setting)
    (item : scheduled) (record : json) (saved : string * file) : Prop :=
  ∃ expected canvas img,
    record = manifest_record (relative_path item) (type_name item.1.1) item.2 expected
    ∧ map fst expected = expected_keys item.1.1
    ∧ (snd <$> head expected) = Some (JString (catalog_name item.1.1 item.1.2))
    ∧ saved = (path_join (path_join OUTPUT_DIR (directory item.1.1))
                 (scheduled_filename item), Png img)
    ∧ drawn_only canvas = true
    ∧ degraded (preset QUALITY_SETTINGS item.2) (add_watermark canvas) img.

(** The state of a loop of [main] after the documents [done]: the counter,
    the manifest entries and the files grew in lockstep. *)
Definition documents_generated (QUALITY_SETTINGS : gmap string setting)
    (entries0 : list json) (w0 : world) (done : list scheduled)
    (st : main_state) (w : world) : Prop :=
  st.1 = Z.of_nat (length done)
  ∧ utcnow_isoformat w = utcnow_isoformat w0
  ∧ ∃ records saved,
      st.2 = (entries0 ++ records)%list
      ∧ files w = (files w0 ++ saved)%list
      ∧ Forall3 (document_ok QUALITY_SETTINGS) done records saved.

(** The manifest [main] writes for the clock reading [generatedAt] and the
    accumulated [records]. *)
Definition manifest_json (generatedAt : string) (records : list json) : json :=
  JDict [
    ("version", JString "1.0.0");
    ("generatedBy", JString "claude-synthetic");
    ("generatedAt", JString (generatedAt ++ "Z"));
    ("totalDocuments", JInt (Z.of_nat (length records)));
    ("documentCounts", JDict [
      ("receipts", JInt 30);
      ("acknowledgment_letters", JInt 20);
      ("bank_statements", JInt 15)
    ]);
    ("documents", JList records)
  ].

(** Files and clock are untouched between [w] and [w']. *)
Definition kept (w w' : world) : Prop :=
  files w' = files w ∧ utcnow_isoformat w' = utcnow_isoformat w.

(** A step of degradation: anything but a drawing call. *)
Definition degradation_step (s : step) : Prop :=
  match s with
  | Drawn _ => False
  | _ => True
  end.

(** Between [w] and [w'] one image was saved, and it was post-processed:
    the image is [apply_quality (add_watermark canvas) quality] for a canvas
    that was only drawn on, so its history is the drawing, then the
    watermark, then nothing but the degradation of the [quality] preset. *)
Definition post_processed (QUALITY_SETTINGS : gmap string setting)
    (quality : string) (w w' : world) : Prop :=
  ∃ canvas w1 path img degradation,
    drawn_only canvas = true
    ∧ only_rng w w1
    ∧ img = (apply_quality QUALITY_SETTINGS (add_watermark canvas) quality w1).1
    ∧ files w' = (files w ++ [(path, Png img)])%list
    ∧ history img =
        (map Drawn (ops canvas) ++ [Drawn (watermark_of canvas)] ++ degradation)%list
    ∧ Forall degradation_step degradation
    ∧ degraded (preset QUALITY_SETTINGS quality) (add_watermark canvas) img.

(** A pixel whose three channels are valid 8-bit values. *)
Definition in_range (value : pixel) : Prop :=
  0 ≤ value.1.1 ≤ 255 ∧ 0 ≤ value.1.2 ≤ 255 ∧ 0 ≤ value.2 ≤ 255.

(** What was done to [img] to obtain [img']. *)
Definition added_steps (img img' : image) : list step :=
  drop (length (history img)) (history img').

(** Every pixel written in [steps] is in range. *)
Definition writes_in_range (steps : list step) : Prop :=
  Forall (fun s => match s with Noised _ value => in_range value | _ => True end) steps.

(** The statements of [main] before its first loop. *)
Definition main_prelude : M unit :=
  print "Generating OCR test documents...";;
  for_each ["receipts"; "acknowledgment_letters"; "bank_statements";
            "credit_card_statements"; "cancelled_checks"; "appraisals";
            "form_8283"; "other"]
    (fun subdir (_ : unit) => makedirs (path_join OUTPUT_DIR subdir)) tt;;
  print "Generating receipts...".

(** The manifest entries after the first call of a renderer in a run of
    [main]: the first receipt, high quality, first organization. *)
Definition first_entries (QUALITY_SETTINGS : gmap string setting) (w : world)
    : list json :=
  (generate_receipt QUALITY_SETTINGS (cyclic ORGANIZATIONS 0) "high" 1 []
     (main_prelude w).2).1.2.


(** The images saved so far, with their paths. *)
Definition saved_images (w : world) : list (string * image) :=
  omap (fun entry => match entry.2 with
                     | Png img => Some (entry.1, img)
                     | JsonText _ => None
                     end) (files w).

(** A manifest record and the file it describes: the record has exactly
    the five fields of the schema, its [filename] is the path of the image
    relative to the documents directory, and its [quality] is the label the
    image was degraded with. *)
Definition record_describes (QUALITY_SETTINGS : gmap string setting)
    (record : json) (saved : string * file) : Prop :=
  ∃ key documentType quality expected canvas img,
    record = manifest_record key documentType quality expected
    ∧ keys record = ["filename"; "documentType"; "quality"; "synthetic"; "expectedFields"]
    ∧ saved = (OUTPUT_DIR ++ "/" ++ key, Png img)
    ∧ drawn_only canvas = true
    ∧ degraded (preset QUALITY_SETTINGS quality) (add_watermark canvas) img.

(** The sign [random.choice([-1, 1])] returns when it reads the draw at
    [position] of the sequence [draws]. *)
Definition sign_at (draws : N → Z) (position : N) : Z :=
  (Random.choice (-1) [1] (Random.mk draws position)).1.

(** The saved image of an edge-quality document ends with a rotation by
    [magnitude] degrees, with the sign [random.choice] reads at the position
    [saved.2] of the sequence [draws]; other documents are not
    constrained. *)
Definition edge_rotated_at (magnitude : Z) (draws : N → Z) (item : scheduled)
    (record : json) (saved : (string * file) * N) : Prop :=
  if String.eqb item.2 "edge" then
    ∃ img,
      saved.1.2 = Png img
      ∧ get "quality" record = Some (JString "edge")
      ∧ last (history img) =
          Some (Rotated (sign_at draws saved.2 * magnitude) (255, 255, 255) true)
  else True.


(** Two runs in step, one started with the files [base], the other with
    [base']: the same random source, and the same files written since; the
    clock, the console and the files found at the start may differ. *)
Definition same_run (base base' : list (string * file)) (w w' : world) : Prop :=
  rng w = rng w'
  ∧ ∃ written, files w = (base ++ written)%list ∧ files w' = (base' ++ written)%list.

(** A computation whose result, random draws and written files are a
    function of the random source alone. *)
Definition deterministic {A} (m : M A) : Prop :=
  ∀ base base' w w',
    same_run base base' w w' →
    (m w).1 = (m w').1 ∧ same_run base base' (m w).2 (m w').2.


(** ** Observations for the further properties *)

(** The pixels of an image of size [sz], in the order the noise loop
    visits them: column after column. *)
Definition scan (sz : point) : list point :=
  concat ((fun i => (fun j => (i, j)) <$> range sz.2) <$> range sz.1).

(** [(max(0, min(255, r + n)), max(0, min(255, g + n)), max(0, min(255, b + n)))] *)
Definition clamp_add (value : pixel) (n : Z) : pixel :=
  (Z.max 0 (Z.min 255 (value.1.1 + n)),
   Z.max 0 (Z.min 255 (value.1.2 + n)),
   Z.max 0 (Z.min 255 (value.2 + n))).

(** [img] after the pixel assignments [writes], oldest first. *)
Definition put_pixels (img : image) (writes : list (point * pixel)) : image :=
  fold_left (fun i write => PutPixel i write.1 write.2) writes img.

(** The state of the noise loops after the pixels [visited]: some of them
    were written, each with the pixel of the image the loops started from
    plus an offset within the magnitude; every visit cost one random draw
    and every write one more. *)
Definition scanned (mag : Z) (img0 : image) (w0 : world) (visited : list point)
    (img : image) (w : world) : Prop :=
  Random.draws (rng w) = Random.draws (rng w0)
  ∧ ∃ writes : list (point * pixel),
      img = put_pixels img0 writes
      ∧ writes.*1 `sublist_of` visited
      ∧ Forall (fun write =>
                  ∃ n, - mag ≤ n ≤ mag
                       ∧ write.2 = clamp_add (getpixel img0 write.1) n) writes
      ∧ Random.cursor (rng w) =
          (Random.cursor (rng w0) + N.of_nat (length visited)
             + N.of_nat (length writes))%N.

(** The day of a row, as a proleptic Gregorian ordinal. *)
Definition ordinal_of (t : txn) : Z := Datetime.toordinal (txn_date t).

(** The balance column of [rows] is a running balance from [opening]: the
    balance of a row is the balance before it plus the amount of the row. *)
Fixpoint running_balance (opening : float) (rows : list txn) : Prop :=
  match rows with
  | [] => True
  | t :: rest =>
      txn_balance t = (opening + txn_amount t)%float
      ∧ running_balance (txn_balance t) rest
  end.

(** The balance after [rows]. *)
Definition closing_balance (opening : float) (rows : list txn) : float :=
  default opening (txn_balance <$> last rows).

(** What both generating loops do in an iteration on the element [x]: append
    one row dated with the current date, whose amount is added to the
    balance, and move the current date 1 to 5 days on. *)
Definition appends_dated_row {A} (good : A → txn → Prop)
    (body : A → gen_state → M gen_state) : Prop :=
  ∀ x txns balance current w,
    ∃ t days,
      (body x (txns, balance, current) w).1.1.1 = (txns ++ [t])%list
      ∧ (body x (txns, balance, current) w).1.1.2 = txn_balance t
      ∧ (body x (txns, balance, current) w).1.2 = Datetime.add_days current days
      ∧ txn_date t = current
      ∧ txn_balance t = (balance + txn_amount t)%float
      ∧ 1 ≤ days ≤ 5
      ∧ good x t.

(** The rows a generating loop has appended for the elements [done], when
    it started at the date [start] with the balance [opening]: one row per
    element, on strictly increasing days that begin with [start] and stay
    before the current date, the balances running from [opening]. *)
Definition rows_in_order {A} (good : A → txn → Prop) (start : Datetime.t)
    (opening : float) (txns0 : list txn) (done : list A) (st : gen_state) : Prop :=
  ∃ new,
    st.1.1 = (txns0 ++ new)%list
    ∧ st.1.2 = closing_balance opening new
    ∧ running_balance opening new
    ∧ Forall2 good done new
    ∧ StronglySorted Z.lt ((ordinal_of <$> new) ++ [Datetime.toordinal st.2])
    ∧ Forall (fun t => Datetime.toordinal start ≤ ordinal_of t
                       ≤ Datetime.toordinal start + 5 * Z.of_nat (length done) - 5) new
    ∧ Datetime.toordinal start + Z.of_nat (length done) ≤ Datetime.toordinal st.2
    ∧ Datetime.toordinal st.2 ≤ Datetime.toordinal start + 5 * Z.of_nat (length done)
    ∧ (txn_date <$> head new) = ((fun _ => start) <$> head done)
    ∧ (done = [] → st.2 = start).

(** A row of an everyday purchase. *)
Definition regular_row (_ : Z) (t : txn) : Prop :=
  txn_charitable t = false ∧ txn_org t = None
  ∧ txn_desc t ∈ ["GROCERY STORE"; "GAS STATION"; "RESTAURANT"; "ONLINE PURCHASE"].

(** The row of a donation to [org]. *)
Definition donation_row (org : organization) (t : txn) : Prop :=
  txn_charitable t = true ∧ txn_org t = Some org
  ∧ txn_desc t = "DONATION " ++ Str.upper (Str.take 20 (org_name org))
  ∧ ∃ s, txn_amount t = (- Float.round2 (Random.uniform 50 500 s).1)%float.

(** Between [w] and [w'] no directory was created and nothing was printed. *)
Definition quiet (w w' : world) : Prop :=
  dirs w' = dirs w ∧ stdout w' = stdout w.

(** The directories [main] creates, in order. *)
Definition created_directories : list string :=
  path_join OUTPUT_DIR <$>
    ["receipts"; "acknowledgment_letters"; "bank_statements";
     "credit_card_statements"; "cancelled_checks"; "appraisals"; "form_8283"; "other"].

(** [path] names a file directly in the directory [dir]: the directory, a
    slash, and a file name that has no slash in it. *)
Definition in_directory (dir path : string) : Prop :=
  ∃ name, path = dir +:+ "/" +:+ name ∧ String.index 0 "/" name = None.

(** An image saved directly in the subdirectory [subdir] of the documents
    directory, as [main] creates it. *)
Definition saved_in (subdir : string) (saved : string * file) : Prop :=
  in_directory (path_join OUTPUT_DIR subdir) saved.1 ∧ ∃ img, saved.2 = Png img.

(** [all(f(n) for n in range(start, start + count))], for the exhaustive
    checks of the calendar and of the decimal notation. *)
Fixpoint holds_from (f : Z → bool) (start : Z) (count : nat) : bool :=
  match count with
  | O => true
  | S k => f start && holds_from f (start + 1) k
  end.

(** [w] with the random source in the state [s]. *)
Definition with_rng (w : world) (s : Random.state) : world :=
  mkWorld s (dirs w) (files w) (utcnow_isoformat w) (stdout w).

(** The noise loop as a function of the random source: the pixels of
    [visited] are taken in order; each costs one [random.random()], and the
    pixel is written when that draw is below 0.1, with one more draw,
    [random.randint(-mag, mag)], added to the three channels of the pixel
    of [img] and clamped. *)
Fixpoint noise_writes (mag : Z) (img : image) (visited : list point)
    (s : Random.state) : list (point * pixel) * Random.state :=
  match visited with
  | [] => ([], s)
  | xy :: rest =>
      let (u, s1) := Random.random s in
      if (u <? 0.1)%float then
        let (n, s2) := Random.randint (- mag) mag s1 in
        let (writes, s3) := noise_writes mag img rest s2 in
        ((xy, clamp_add (getpixel img xy) n) :: writes, s3)
      else noise_writes mag img rest s1
  end.

(** The random source only moved on between [s] and [s']: the same
    sequence of draws, the cursor not before. *)
Definition moved_on (s s' : Random.state) : Prop :=
  Random.draws s' = Random.draws s ∧ (Random.cursor s ≤ Random.cursor s')%N.

(** A [random] call that consumes draws and nothing else. *)
Definition consuming {A} (f : Random.state → A * Random.state) : Prop :=
  ∀ s, moved_on s (f s).2.

(** A computation that only consumes draws of the random source. *)
Definition forward {A} (m : M A) : Prop := ∀ w, moved_on (rng w) (rng (m w).2).

(** A computation that consumes at least one draw. *)
Definition drawing {A} (m : M A) : Prop :=
  ∀ w, Random.draws (rng (m w).2) = Random.draws (rng w)
       ∧ (Random.cursor (rng w) < Random.cursor (rng (m w).2))%N.

(** One scheduled document of a run whose random source yields [draws]:
    its record and file are those of [document_ok], and when its preset has
    a rotation the saved image ends with a rotation by that magnitude, with
    the sign read at [saved.2], the position of the last draw of the
    call. *)
Definition document_drawn (QUALITY_SETTINGS : gmap string setting) (draws : N → Z)
    (item : scheduled) (record : json) (saved : (string * file) * N) : Prop :=
  document_ok QUALITY_SETTINGS item record saved.1
  ∧ (0 < rotation (preset QUALITY_SETTINGS item.2) →
     ∃ img, saved.1.2 = Png img
            ∧ last (history img) =
                Some (Rotated (sign_at draws saved.2
                                 * rotation (preset QUALITY_SETTINGS item.2))
                        (255, 255, 255) true)).

(** The state of a loop of [main] after the documents [done], with the
    positions of the draw sequence at which the calls ended. *)
Definition documents_drawn (QUALITY_SETTINGS : gmap string setting)
    (entries0 : list json) (w0 : world) (done : list scheduled)
    (st : main_state) (w : world) : Prop :=
  st.1 = Z.of_nat (length done)
  ∧ utcnow_isoformat w = utcnow_isoformat w0
  ∧ moved_on (rng w0) (rng w)
  ∧ ∃ records (saved : list ((string * file) * N)),
      st.2 = (entries0 ++ records)%list
      ∧ files w = (files w0 ++ saved.*1)%list
      ∧ Forall3 (document_drawn QUALITY_SETTINGS (Random.draws (rng w0)))
          done records saved
      ∧ StronglySorted N.lt saved.*2
      ∧ Forall (fun position =>
                  (Random.cursor (rng w0) ≤ position < Random.cursor (rng w))%N)
          saved.*2.

(** ** The monad and the loops *)

Lemma only_rng_refl w : only_rng w w.
Proof. by repeat split. Qed.

Lemma only_rng_trans w1 w2 w3 : only_rng w1 w2 → only_rng w2 w3 → only_rng w1 w3.
Proof. unfold only_rng. intros (-> & -> & -> & ->) (-> & -> & -> & ->). done. Qed.

Lemma bind_run {A B} (m : M A) (k : A → M B) w :
  (m ≫= k) w = k (m w).1 (m w).2.
Proof. unfold mbind, M_bind. by destruct (m w). Qed.

Lemma ret_run {A} (a : A) w : (mret a : M A) w = (a, w).
Proof. done. Qed.

Lemma for_each_cons {A St} (x : A) xs (body : A → St → M St) st w :
  for_each (x :: xs) body st w =
  for_each xs body (body x st w).1 (body x st w).2.
Proof. simpl. apply bind_run. Qed.

(** Loop invariants: what holds before the loop and is kept by the body
    holds after it. *)
Lemma for_each_invariant {A St} (I : St → world → Prop) (xs : list A)
    (body : A → St → M St) :
  (∀ x st w, I st w → I (body x st w).1 (body x st w).2) →
  ∀ st w, I st w → I (for_each xs body st w).1 (for_each xs body st w).2.
Proof.
  intros Hbody. induction xs as [|x xs IH]; intros st w HI; [done|].
  rewrite for_each_cons. apply IH, Hbody, HI.
Qed.

Lemma pure_random_ret {A} (a : A) : pure_random (mret a).
Proof. intros w. apply only_rng_refl. Qed.

Lemma pure_random_bind {A B} (m : M A) (k : A → M B) :
  pure_random m → (∀ a, pure_random (k a)) → pure_random (m ≫= k).
Proof.
  intros Hm Hk w. rewrite bind_run.
  eapply only_rng_trans; [apply Hm | apply Hk].
Qed.

Lemma pure_random_rand {A} (f : Random.state → A * Random.state) :
  pure_random (rand f).
Proof. intros w. unfold rand. destruct (f (rng w)). by repeat split. Qed.

Lemma pure_random_for_each {A St} (xs : list A) (body : A → St → M St) st :
  (∀ x st, pure_random (body x st)) → pure_random (for_each xs body st).
Proof.
  intros Hbody w.
  apply (for_each_invariant (fun _ w' => only_rng w w')); [|apply only_rng_refl].
  intros x st' w' Hw'. eapply only_rng_trans; [exact Hw' | apply Hbody].
Qed.

Create HintDb random_only.
#[local] Hint Resolve pure_random_ret pure_random_rand : random_only.

(** ** The library models on concrete inputs *)

Example round2_ties_on_the_binary_value : Float.round2 2.675 = 2.67%float.
Proof. reflexivity. Qed.

Example format_groups_thousands : Float.format_comma_2f 1234567.891 = "1,234,567.89".
Proof. reflexivity. Qed.

Example format_keeps_the_sign : Float.format_comma_2f (-45.5) = "-45.50".
Proof. reflexivity. Qed.

Example zfill_pads_to_three : Str.zfill 3 7 = "007" ∧ Str.zfill 3 1234 = "1234".
Proof. by split. Qed.

Example ordinal_of_2025 : Datetime.toordinal (Datetime.mk 2025 1 1) = 739252.
Proof. reflexivity. Qed.

Example leap_day_2024 :
  Datetime.add_days (Datetime.mk 2024 2 28) 2 = Datetime.mk 2024 3 1.
Proof. reflexivity. Qed.

Example last_sampled_day :
  Datetime.add_days (Datetime.mk 2025 1 1) 393 = Datetime.mk 2026 1 29.
Proof. reflexivity. Qed.

Example strftime_formats :
  Datetime.strftime_B_d_Y (Datetime.mk 2025 3 5) = "March 05, 2025"
  ∧ Datetime.strftime_Y_m_d (Datetime.mk 2025 3 5) = "2025-03-05"
  ∧ Datetime.strftime_m_d_Y (Datetime.mk 2025 11 15) = "11/15/2025"
  ∧ Datetime.strftime_m_d (Datetime.mk 2025 3 5) = "03/05".
Proof. by repeat split. Qed.

Example path_join_cases :
  path_join "/repo/documents" "receipts" = "/repo/documents/receipts"
  ∧ path_join "/repo/" "manifest.json" = "/repo/manifest.json"
  ∧ path_join "" "documents" = "documents"
  ∧ path_join "/repo" "/tmp/x" = "/tmp/x".
Proof. by repeat split. Qed.

Example wrapped_tax_text :
  textwrap_wrap receipt_tax_text 60 =
    [ "No goods or services were provided in exchange for this";
      "donation. This receipt may be used for tax purposes." ].
Proof. reflexivity. Qed.

Example round_robin_wraps :
  org_short (cyclic ORGANIZATIONS 9) = "salvation-army"
  ∧ bank_short (cyclic BANKS 7) = "wellsfargo".
Proof. by split. Qed.

Example first_receipt_filename :
  document_filename "receipt" "goodwill" "high" 1 = "receipt_goodwill_high_001.png".
Proof. reflexivity. Qed.

Example sample_draws_distinct_entries :
  (Random.sample 1 [2; 3; 4; 5] 3 (Random.start (fun _ => 0))).1 = [1; 5; 4].
Proof. reflexivity. Qed.

(** ** The random draws stay in range *)

Lemma randbelow_range n s : 0 < n → 0 ≤ (Random.randbelow n s).1 < n.
Proof. intros Hn. unfold Random.randbelow. simpl. by apply Z.mod_pos_bound. Qed.

Lemma randint_range a b s : a ≤ b → a ≤ (Random.randint a b s).1 ≤ b.
Proof.
  intros Hab. unfold Random.randint.
  pose proof (randbelow_range (b - a + 1) s ltac:(lia)) as H.
  destruct (Random.randbelow (b - a + 1) s) as [r s']. simpl in *. lia.
Qed.

Lemma rand_fst {A} (f : Random.state → A * Random.state) w :
  (rand f w).1 = (f (rng w)).1.
Proof. unfold rand. by destruct (f (rng w)). Qed.

Lemma choice_sign s :
  (Random.choice (-1) [1] s).1 = 1 ∨ (Random.choice (-1) [1] s).1 = -1.
Proof.
  unfold Random.choice.
  pose proof (randbelow_range 2 s ltac:(lia)) as H.
  change (Z.of_nat (length [-1; 1])) with 2.
  destruct (Random.randbelow 2 s) as [i s']. simpl in *.
  assert (i = 0 ∨ i = 1) as [-> | ->] by lia; auto.
Qed.

(** ** Degradation *)

Lemma noise_pixel_spec mag i j img w :
  0 < mag →
  only_rng w (noise_pixel mag i j img w).2
  ∧ ((noise_pixel mag i j img w).1 = img
     ∨ ∃ v, (noise_pixel mag i j img w).1 = PutPixel img (i, j) v
            ∧ noisy mag ((i, j), v)).
Proof.
  intros Hmag. unfold noise_pixel. rewrite bind_run.
  pose proof (pure_random_rand Random.random w) as Hu.
  destruct (rand Random.random w) as [u w1]. simpl in Hu |- *.
  destruct (u <? 0.1)%float; [|by auto].
  rewrite bind_run.
  pose proof (pure_random_rand (Random.randint (- mag) mag) w1) as Hn.
  pose proof (rand_fst (Random.randint (- mag) mag) w1) as Hfst.
  pose proof (randint_range (- mag) mag (rng w1) ltac:(lia)) as Hrange.
  destruct (rand (Random.randint (- mag) mag) w1) as [n w2]. simpl in *.
  destruct (getpixel img (i, j)) as [[r g] b]. simpl.
  split; [by eapply only_rng_trans|].
  right. eexists. split; [done|].
  exists n, r, g, b. split; [lia | done].
Qed.

Lemma noise_invariant_start mag img w : noise_invariant mag img w img w.
Proof.
  split; [apply only_rng_refl|]. exists []. simpl. by rewrite app_nil_r.
Qed.

Lemma noise_invariant_pixel mag img0 w0 i j img w :
  0 < mag →
  noise_invariant mag img0 w0 img w →
  noise_invariant mag img0 w0 (noise_pixel mag i j img w).1 (noise_pixel mag i j img w).2.
Proof.
  intros Hmag [Hw (writes & Hhist & Hall)].
  destruct (noise_pixel_spec mag i j img w Hmag) as [Hw' [-> | (v & -> & Hv)]].
  - split; [by eapply only_rng_trans|]. by exists writes.
  - split; [by eapply only_rng_trans|].
    exists (writes ++ [((i, j), v)])%list. split.
    + simpl. rewrite Hhist, map_app, app_assoc. done.
    + apply Forall_app. split; [done|]. by constructor.
Qed.

Lemma noise_loops mag img w :
  0 < mag →
  noise_invariant mag img w
    (for_each (range (width img)) (fun i img =>
       for_each (range (height img)) (fun j img => noise_pixel mag i j img) img)
       img w).1
    (for_each (range (width img)) (fun i img =>
       for_each (range (height img)) (fun j img => noise_pixel mag i j img) img)
       img w).2.
Proof.
  intros Hmag.
  apply (for_each_invariant (noise_invariant mag img w));
    [|apply noise_invariant_start].
  intros i img1 w1 H1.
  apply (for_each_invariant (noise_invariant mag img w)); [|done].
  intros j img2 w2 H2. by apply noise_invariant_pixel.
Qed.

Lemma apply_quality_spec QS img quality w :
  degraded (preset QS quality) img (apply_quality QS img quality w).1
  ∧ only_rng w (apply_quality QS img quality w).2.
Proof.
  unfold apply_quality. fold (preset QS quality).
  set (s := preset QS quality).
  set (blurred := if (0 <? blur s)%float then GaussianBlur img (blur s) else img).
  assert (Hblur : history blurred =
            (history img ++ (if (0 <? blur s)%float then [Blurred (blur s)] else []))%list).
  { subst blurred. destruct (0 <? blur s)%float; simpl; [done | by rewrite app_nil_r]. }
  match goal with |- context [mbind _ ?m] => set (noise_step := m) end.
  rewrite bind_run.
  set (noised := noise_step w).
  assert (Hnoise : noise_invariant (noise s) blurred w noised.1 noised.2
                   ∧ (noise s ≤ 0 → noised = (blurred, w))).
  { subst noised noise_step. destruct (0 <? noise s) eqn:Hpos.
    - split; [apply noise_loops; lia | lia].
    - split; [apply noise_invariant_start | done]. }
  destruct Hnoise as [[Hw (writes & Hhist & Hall)] Hnone].
  destruct (0 <? rotation s) eqn:Hrot.
  - rewrite bind_run.
    pose proof (pure_random_rand (Random.choice (-1) [1]) noised.2) as Hw2.
    pose proof (rand_fst (Random.choice (-1) [1]) noised.2) as Hfst.
    pose proof (choice_sign (rng noised.2)) as Hsign.
    destruct (rand (Random.choice (-1) [1]) noised.2) as [sign w2]. simpl in *.
    split; [|by eapply only_rng_trans].
    destruct (Z.leb_spec (noise s) 0) as [Hle|Hgt].
    + exists [], sign. rewrite (Hnone Hle). simpl. rewrite Hblur, Hrot, Hfst.
      split; [by rewrite <- app_assoc|]. split; [done|]. by split.
    + exists writes, sign. simpl. rewrite Hhist, Hblur, Hrot, Hfst.
      split; [by rewrite <- !app_assoc|]. split; [done|]. split; [done | lia].
  - simpl. split; [|done].
    destruct (Z.leb_spec (noise s) 0) as [Hle|Hgt].
    + exists [], 1. rewrite (Hnone Hle). simpl. rewrite Hblur, Hrot.
      split; [by rewrite app_nil_r|]. split; [by left|]. by split.
    + exists writes, 1. rewrite Hhist, Hblur, Hrot.
      split; [by rewrite app_nil_r, <- !app_assoc|]. split; [by left|].
      split; [done | lia].
Qed.

(** ** Drawing *)

Lemma texts_Draw img op :
  texts (Draw img op) =
  (texts img ++ match op with DrawText _ s _ _ _ => [s] | _ => [] end)%list.
Proof.
  unfold texts, ops. simpl. rewrite !omap_app. simpl.
  destruct op; simpl; by rewrite ?app_nil_r.
Qed.

Lemma draw_lines_snoc x step fill fnt wrapped line img y :
  draw_lines x step fill fnt (wrapped ++ [line]) img y =
  (Draw (draw_lines x step fill fnt wrapped img y).1
        (DrawText (x, (draw_lines x step fill fnt wrapped img y).2) line fill fnt None),
   (draw_lines x step fill fnt wrapped img y).2 + step).
Proof.
  unfold draw_lines. rewrite fold_left_app. simpl.
  by destruct (fold_left _ wrapped (img, y)).
Qed.

Lemma texts_draw_lines x step fill fnt wrapped img y :
  texts (draw_lines x step fill fnt wrapped img y).1 = (texts img ++ wrapped)%list.
Proof.
  induction wrapped as [|line wrapped IH] using rev_ind.
  - simpl. by rewrite app_nil_r.
  - rewrite draw_lines_snoc. simpl. rewrite texts_Draw, IH. by rewrite app_assoc.
Qed.

Lemma drawn_only_draw_lines x step fill fnt wrapped img y :
  drawn_only (draw_lines x step fill fnt wrapped img y).1 = drawn_only img.
Proof.
  induction wrapped as [|line wrapped IH] using rev_ind; [done|].
  rewrite draw_lines_snoc. simpl. exact IH.
Qed.

Lemma rendered_world QS quality path canvas w w1 :
  only_rng w w1 → drawn_only canvas = true →
  let run := apply_quality QS (add_watermark canvas) quality w1 in
  rendered QS quality path canvas w w1
    (write_file path (Png run.1) run.2).2.
Proof.
  intros Hw Hc run. split; [done|]. split; [done|].
  destruct (apply_quality_spec QS (add_watermark canvas) quality w1) as [_ Hrun].
  fold run in Hrun. destruct Hw as (Hd & Hf & Hu & Hs).
  destruct Hrun as (Hd' & Hf' & Hu' & Hs').
  unfold write_file. simpl. by rewrite Hd', Hf', Hu', Hs', Hd, Hf, Hu, Hs.
Qed.

(** ** The renderers *)

Lemma pure_random_random_date y : pure_random (random_date y).
Proof. unfold random_date. apply pure_random_bind; auto with random_only. Qed.

Lemma pure_random_random_amount a b : pure_random (random_amount a b).
Proof. unfold random_amount. apply pure_random_bind; auto with random_only. Qed.

#[local] Hint Resolve pure_random_random_date pure_random_random_amount : random_only.

(** Name the result of the next bind of the goal. *)
Ltac run_bind x w' H :=
  lazymatch goal with
  | |- context [mbind ?k ?m ?w] =>
      first [rewrite (bind_run m k w) | rewrite bind_run];
      destruct (m w) as [x w'] eqn:H
  end;
  cbn [fst snd].

Lemma generate_receipt_spec QS org quality index entries w :
  ∃ date amount n canvas w1,
    let filename := document_filename "receipt" (org_short org) quality index in
    (generate_receipt QS org quality index entries w).1 =
      (filename,
       (entries ++ [manifest_record ("receipts/" +:+ filename) "receipt" quality [
          ("organization_name", JString (org_name org));
          ("ein", JString (org_ein org));
          ("amount", JFloat amount);
          ("date", JString (Datetime.strftime_Y_m_d date));
          ("donor_name", JString "Test Donor");
          ("receipt_number", JString (receipt_number date n))
        ]])%list)
    ∧ rendered QS quality (path_join (path_join OUTPUT_DIR "receipts") filename)
        canvas w w1 (generate_receipt QS org quality index entries w).2
    ∧ 10000 ≤ n ≤ 99999
    ∧ texts canvas =
        ([ org_name org; "EIN: " +:+ org_ein org; "DONATION RECEIPT";
           "Receipt Number: " +:+ receipt_number date n;
           "Date: " +:+ Datetime.strftime_B_d_Y date;
           "Received From:"; "Test Donor"; "123 Test Street"; "Test City, ST 12345";
           "DONATION AMOUNT"; "$" +:+ Float.format_comma_2f amount ]
         ++ textwrap_wrap receipt_tax_text 60
         ++ [ "Authorized Signature"; "Thank you for your generous donation!" ])%list.
Proof.
  unfold generate_receipt. cbv beta iota zeta.
  pose proof (pure_random_random_date 2025 w) as Hw1.
  run_bind date w1 Hdate.
  pose proof (pure_random_random_amount 25 5000 w1) as Hw2.
  run_bind amount w2 Hamount.
  pose proof (pure_random_rand (Random.randint 10000 99999) w2) as Hw3.
  pose proof (rand_fst (Random.randint 10000 99999) w2) as Hn.
  pose proof (randint_range 10000 99999 (rng w2) ltac:(lia)) as Hrange.
  run_bind n w3 Hn3. cbn [fst snd] in Hw1, Hw2, Hw3, Hn. rewrite <- Hn in Hrange.
  match goal with
  | |- context [draw_lines ?x ?s ?c ?f ?l ?i ?y] =>
      pose proof (texts_draw_lines x s c f l i y) as Htexts;
      pose proof (drawn_only_draw_lines x s c f l i y) as Hdrawn;
      destruct (draw_lines x s c f l i y) as [img y'] eqn:Hlines
  end.
  cbn [fst snd] in Htexts, Hdrawn.
  rewrite bind_run, bind_run, ret_run. cbn [fst snd].
  eexists date, amount, n, _, w3.
  split; [reflexivity|]. split; [|split; [exact Hrange|]].
  - apply rendered_world.
    + eapply only_rng_trans; [|exact Hw3]. eapply only_rng_trans; [exact Hw1 | exact Hw2].
    + simpl. exact Hdrawn.
  - rewrite !texts_Draw, Htexts, !texts_Draw. cbn [app].
    unfold texts at 1. cbn [ops history omap list_omap].
    rewrite <- !app_assoc. reflexivity.
Qed.

Lemma random_date_sampled w : sampled_date (random_date 2025 w).1.
Proof.
  unfold random_date. cbv zeta.
  change (Datetime.diff_days (Datetime.mk 2026 1 29) (Datetime.mk 2025 1 1)) with 393.
  rewrite bind_run, ret_run. cbn [fst]. rewrite rand_fst.
  eexists. split; [|reflexivity]. apply randint_range. lia.
Qed.

Lemma generate_acknowledgment_letter_spec QS org quality index entries w :
  ∃ date amount k canvas w1,
    let filename := document_filename "acknowledgment" (org_short org) quality index in
    let donation_date := Datetime.add_days date (- k) in
    (generate_acknowledgment_letter QS org quality index entries w).1 =
      (filename,
       (entries ++ [manifest_record ("acknowledgment_letters/" +:+ filename)
                      "acknowledgment_letter" quality [
          ("organization_name", JString (org_name org));
          ("ein", JString (org_ein org));
          ("amount", JFloat amount);
          ("date", JString (Datetime.strftime_Y_m_d donation_date));
          ("donor_name", JString "Test Donor")
        ]])%list)
    ∧ rendered QS quality
        (path_join (path_join OUTPUT_DIR "acknowledgment_letters") filename)
        canvas w w1 (generate_acknowledgment_letter QS org quality index entries w).2
    ∧ sampled_date date
    ∧ 1 ≤ k ≤ 14
    ∧ texts canvas =
        ([ org_name org; "123 Charity Lane, Nonprofit City, ST 00000";
           "Tax ID: " +:+ org_ein org;
           Datetime.strftime_B_d_Y date;
           "Test Donor"; "123 Test Street"; "Test City, ST 12345";
           "Dear Test Donor," ]
         ++ textwrap_wrap (letter_body amount donation_date) 70
         ++ textwrap_wrap letter_tax_text 70
         ++ [ "Donation Details:";
              "Amount: $" +:+ Float.format_comma_2f amount;
              "Date Received: " +:+ Datetime.strftime_Y_m_d donation_date;
              "Type: Cash/Check"; "With gratitude,"; "Executive Director";
              org_name org ])%list.
Proof.
  unfold generate_acknowledgment_letter. cbv beta iota zeta.
  pose proof (pure_random_random_date 2025 w) as Hw1.
  pose proof (random_date_sampled w) as Hsampled.
  run_bind date w1 Hdate.
  pose proof (pure_random_random_amount 25 5000 w1) as Hw2.
  run_bind amount w2 Hamount.
  pose proof (pure_random_rand (Random.randint 1 14) w2) as Hw3.
  pose proof (rand_fst (Random.randint 1 14) w2) as Hk.
  pose proof (randint_range 1 14 (rng w2) ltac:(lia)) as Hrange.
  run_bind k w3 Hk3. cbn [fst snd] in Hw1, Hw2, Hw3, Hk, Hsampled.
  rewrite <- Hk in Hrange.
  match goal with
  | |- context [draw_lines ?x ?s ?c ?f ?l ?i ?y] =>
      pose proof (texts_draw_lines x s c f l i y) as Htexts;
      pose proof (drawn_only_draw_lines x s c f l i y) as Hdrawn;
      destruct (draw_lines x s c f l i y) as [img y'] eqn:Hlines
  end.
  match goal with
  | |- context [draw_lines ?x ?s ?c ?f ?l ?i ?y] =>
      pose proof (texts_draw_lines x s c f l i y) as Htexts2;
      pose proof (drawn_only_draw_lines x s c f l i y) as Hdrawn2;
      destruct (draw_lines x s c f l i y) as [img2 y2] eqn:Hlines2
  end.
  cbn [fst snd drawn_only] in Htexts, Hdrawn, Htexts2, Hdrawn2.
  rewrite bind_run, bind_run, ret_run. cbn [fst snd].
  eexists date, amount, k, _, w3.
  split; [reflexivity|].
  split; [|split; [exact Hsampled|split; [exact Hrange|]]].
  - apply rendered_world.
    + eapply only_rng_trans; [|exact Hw3]. eapply only_rng_trans; [exact Hw1 | exact Hw2].
    + simpl. rewrite Hdrawn2. exact Hdrawn.
  - rewrite !texts_Draw, Htexts2, Htexts, !texts_Draw. cbn [app].
    unfold texts at 1. cbn [ops history omap list_omap].
    rewrite <- !app_assoc. reflexivity.
Qed.

Lemma for_each_snoc {A St} (xs : list A) (x : A) (body : A → St → M St) st w :
  for_each (xs ++ [x]) body st w =
  body x (for_each xs body st w).1 (for_each xs body st w).2.
Proof.
  revert st w. induction xs as [|y xs IH]; intros st w.
  - simpl. rewrite bind_run. by destruct (body x st w).
  - rewrite <- app_comm_cons, !for_each_cons. apply IH.
Qed.

(** Invariants that also see which elements the loop has processed. *)
Lemma for_each_invariant_prefix {A St} (I : list A → St → world → Prop)
    (xs : list A) (body : A → St → M St) st w :
  I [] st w →
  (∀ done x rest st' w', xs = (done ++ x :: rest)%list → I done st' w' →
     I (done ++ [x])%list (body x st' w').1 (body x st' w').2) →
  I xs (for_each xs body st w).1 (for_each xs body st w).2.
Proof.
  intros Hstart Hbody.
  assert (∀ ys pre st' w', xs = (pre ++ ys)%list → I pre st' w' →
            I xs (for_each ys body st' w').1 (for_each ys body st' w').2)
    as Hgen.
  { induction ys as [|y ys IH]; intros pre st' w' Hxs Hpre.
    - simpl. by rewrite Hxs, app_nil_r.
    - rewrite for_each_cons. apply (IH (pre ++ [y])%list).
      + by rewrite <- app_assoc.
      + by eapply Hbody. }
  by apply (Hgen xs [] st w).
Qed.

Lemma draw_transactions_all height fnt txns img y entries :
  y + 22 * Z.of_nat (length txns) ≤ height - 80 + 22 →
  texts (draw_transactions height fnt txns img y entries).1.1 =
    (texts img ++ concat (map row_texts txns))%list
  ∧ (draw_transactions height fnt txns img y entries).2 =
    (entries ++ charitable_entries txns)%list
  ∧ drawn_only (draw_transactions height fnt txns img y entries).1.1 = drawn_only img.
Proof.
  revert img y entries. induction txns as [|t txns IH]; intros img y entries Hfit.
  - simpl. by rewrite !app_nil_r.
  - cbn [draw_transactions]. cbn [length] in Hfit.
    destruct (Z.ltb_spec (height - 80) y) as [Hbreak|_]; [lia|].
    cbv zeta.
    match goal with
    | |- context [draw_transactions height fnt txns ?i ?y' ?e] =>
        destruct (IH i y' e ltac:(lia)) as (Ht & He & Hd)
    end.
    rewrite Ht, He, Hd. rewrite !texts_Draw.
    unfold charitable_entries. cbn [List.filter map concat drawn_only].
    split; [by rewrite <- !app_assoc|]. split; [|done].
    destruct (txn_charitable t); [|done].
    cbn [map]. by rewrite <- app_assoc.
Qed.

Lemma insert_by_date_length t l : length (insert_by_date t l) = S (length l).
Proof.
  induction l as [|u l IH]; [done|]. simpl.
  destruct (_ <? _); simpl; by rewrite ?IH.
Qed.

Lemma insert_by_date_Forall (P : txn → Prop) t l :
  P t → Forall P l → Forall P (insert_by_date t l).
Proof.
  intros Ht Hl. induction Hl as [|u l Hu Hl IH]; simpl.
  - by constructor.
  - destruct (_ <? _); repeat constructor; done.
Qed.

Lemma sort_by_date_spec (P : txn → Prop) l :
  Forall P l →
  length (sort_by_date l) = length l ∧ Forall P (sort_by_date l).
Proof.
  unfold sort_by_date. intros Hl.
  assert (∀ acc, Forall P acc →
            length (fold_left (fun sorted t => insert_by_date t sorted) l acc)
              = (length l + length acc)%nat
            ∧ Forall P (fold_left (fun sorted t => insert_by_date t sorted) l acc))
    as Hgen.
  { induction Hl as [|t l Ht Hl IH]; intros acc Hacc; [done|]. simpl.
    destruct (IH (insert_by_date t acc)) as [Hlen Hall].
    - by apply insert_by_date_Forall.
    - rewrite Hlen, insert_by_date_length. split; [lia | done]. }
  destruct (Hgen [] ltac:(constructor)) as [Hlen Hall].
  simpl in Hlen. split; [lia | done].
Qed.

Lemma nth_Forall {A} (P : A → Prop) (l : list A) i d :
  P d → Forall P l → P (nth i l d).
Proof.
  intros Hd Hl. destruct (nth_in_or_default i l d) as [Hin | ->]; [|done].
  rewrite Forall_forall in Hl. apply Hl. by apply list_elem_of_In.
Qed.

Lemma sample_loop_spec {A} (P : A → Prop) (d : A) pool n k s :
  P d → Forall P pool →
  length (Random.sample_loop d pool n k s).1 = k
  ∧ Forall P (Random.sample_loop d pool n k s).1.
Proof.
  intros Hd. revert pool n s. induction k as [|k IH]; intros pool n s Hpool.
  - simpl. by split.
  - cbn [Random.sample_loop].
    destruct (Random.randbelow (Z.of_nat n) s) as [j s1].
    match goal with
    | |- context [Random.sample_loop d ?p ?m k s1] =>
        destruct (IH p m s1) as [Hlen Hall];
        [ apply Forall_insert; [done | by apply nth_Forall] |];
        destruct (Random.sample_loop d p m k s1) as [rest s2]
    end.
    simpl in *. split; [by rewrite Hlen|].
    constructor; [by apply nth_Forall | done].
Qed.

Lemma sample_organizations k s :
  0 ≤ k →
  length (Random.sample (hd inhabitant ORGANIZATIONS) (tl ORGANIZATIONS) k s).1
    = Z.to_nat k
  ∧ Forall (fun org => org ∈ ORGANIZATIONS)
      (Random.sample (hd inhabitant ORGANIZATIONS) (tl ORGANIZATIONS) k s).1.
Proof.
  intros Hk. unfold Random.sample.
  apply (sample_loop_spec (fun org => org ∈ ORGANIZATIONS)).
  - simpl. by left.
  - change (hd inhabitant ORGANIZATIONS :: tl ORGANIZATIONS) with ORGANIZATIONS.
    by apply Forall_forall.
Qed.

(** The invariant of the loops that generate the transactions. *)
Lemma regular_transaction_step i txns balance current w :
  ∃ t, (regular_transaction i (txns, balance, current) w).1.1.1 = (txns ++ [t])%list
       ∧ txn_charitable t = false ∧ txn_org t = None
       ∧ only_rng w (regular_transaction i (txns, balance, current) w).2.
Proof.
  unfold regular_transaction. cbv beta iota zeta.
  pose proof (pure_random_rand (Random.uniform 20 200) w) as Hw1.
  run_bind x w1 Hx.
  pose proof (pure_random_rand
    (Random.choice "GROCERY STORE" ["GAS STATION"; "RESTAURANT"; "ONLINE PURCHASE"]) w1)
    as Hw2.
  run_bind desc w2 Hdesc.
  pose proof (pure_random_rand (Random.randint 1 5) w2) as Hw3.
  run_bind days w3 Hdays. cbn [fst snd] in *.
  rewrite ret_run. cbn [fst snd].
  eexists. split; [reflexivity|]. split; [done|]. split; [done|].
  eapply only_rng_trans; [|exact Hw3]. by eapply only_rng_trans.
Qed.

Lemma charitable_transaction_step org txns balance current w :
  ∃ t, (charitable_transaction org (txns, balance, current) w).1.1.1 = (txns ++ [t])%list
       ∧ txn_charitable t = true ∧ txn_org t = Some org
       ∧ txn_desc t = "DONATION " +:+ Str.upper (Str.take 20 (org_name org))
       ∧ only_rng w (charitable_transaction org (txns, balance, current) w).2.
Proof.
  unfold charitable_transaction. cbv beta iota zeta.
  pose proof (pure_random_random_amount 50 500 w) as Hw1.
  run_bind x w1 Hx.
  pose proof (pure_random_rand (Random.randint 1 5) w1) as Hw2.
  run_bind days w2 Hdays. cbn [fst snd] in *.
  rewrite ret_run. cbn [fst snd].
  eexists. split; [reflexivity|]. split; [done|]. split; [done|]. split; [done|].
  by eapply only_rng_trans.
Qed.

Lemma regular_transactions_loop xs st w :
  generated w st.1.1 (length xs)
    (for_each xs regular_transaction st w).1 (for_each xs regular_transaction st w).2.
Proof.
  apply (for_each_invariant_prefix
           (fun done st' w' => generated w st.1.1 (length done) st' w')).
  - split; [apply only_rng_refl|]. exists []. by rewrite app_nil_r.
  - intros done x rest [[txns balance] current] w' _ [Hw (new & Hnew & Hlen & Hall)].
    destruct (regular_transaction_step x txns balance current w')
      as (t & Ht & Hc & Ho & Hw').
    split; [by eapply only_rng_trans|].
    exists (new ++ [t])%list. simpl in Hnew. rewrite Ht, Hnew.
    split; [by rewrite app_assoc|]. split; [rewrite !length_app; simpl; lia|].
    apply Forall_app. split; [done|]. constructor; [|done].
    unfold well_formed_txn. by rewrite Hc.
Qed.

Lemma charitable_transactions_loop orgs st w :
  Forall (fun org => org ∈ ORGANIZATIONS) orgs →
  generated w st.1.1 (length orgs)
    (for_each orgs charitable_transaction st w).1
    (for_each orgs charitable_transaction st w).2.
Proof.
  intros Horgs.
  apply (for_each_invariant_prefix
           (fun done st' w' => generated w st.1.1 (length done) st' w')).
  - split; [apply only_rng_refl|]. exists []. by rewrite app_nil_r.
  - intros done org rest [[txns balance] current] w' Hin [Hw (new & Hnew & Hlen & Hall)].
    destruct (charitable_transaction_step org txns balance current w')
      as (t & Ht & Hc & Ho & Hdesc & Hw').
    split; [by eapply only_rng_trans|].
    exists (new ++ [t])%list. simpl in Hnew. rewrite Ht, Hnew.
    split; [by rewrite app_assoc|]. split; [rewrite !length_app; simpl; lia|].
    apply Forall_app. split; [done|]. constructor; [|done].
    unfold well_formed_txn. rewrite Hc. exists org.
    split; [|done]. rewrite Forall_forall in Horgs. apply Horgs.
    rewrite Hin. apply elem_of_app. right. by left.
Qed.

Lemma generate_bank_statement_spec QS bank quality index entries w :
  ∃ n start_date txns canvas w1,
    let filename := document_filename "bank_statement" (bank_short bank) quality index in
    let end_date := Datetime.add_days start_date 30 in
    (generate_bank_statement QS bank quality index entries w).1 =
      (filename,
       (entries ++ [manifest_record ("bank_statements/" +:+ filename)
                      "bank_statement" quality [
          ("bank_name", JString (bank_name bank));
          ("account_number", JString ("***" +:+ Str.of_Z n));
          ("statement_period_start", JString (Datetime.strftime_Y_m_d start_date));
          ("statement_period_end", JString (Datetime.strftime_Y_m_d end_date));
          ("charitable_transactions", JList (charitable_entries txns))
        ]])%list)
    ∧ rendered QS quality (path_join (path_join OUTPUT_DIR "bank_statements") filename)
        canvas w w1 (generate_bank_statement QS bank quality index entries w).2
    ∧ 1000 ≤ n ≤ 9999
    ∧ sampled_date start_date
    ∧ Forall well_formed_txn txns
    ∧ (5 ≤ length txns ≤ 8)%nat
    ∧ texts canvas =
        ([ bank_name bank; "Account Statement";
           "Account: " +:+ "***" +:+ Str.of_Z n; "Statement Period:";
           "Primary Checking";
           Datetime.strftime_m_d_Y start_date +:+ " - "
             +:+ Datetime.strftime_m_d_Y end_date;
           "Date"; "Description"; "Amount"; "Balance" ]
         ++ concat (map row_texts txns)
         ++ [ "Page 1 of 1" ])%list.
Proof.
  unfold generate_bank_statement. cbv beta iota zeta.
  pose proof (pure_random_rand (Random.randint 1000 9999) w) as Hw1.
  pose proof (rand_fst (Random.randint 1000 9999) w) as Hn.
  pose proof (randint_range 1000 9999 (rng w) ltac:(lia)) as Hnrange.
  run_bind n w1 Hn1. cbn [fst snd] in Hw1, Hn. rewrite <- Hn in Hnrange.
  pose proof (pure_random_random_date 2025 w1) as Hw2.
  pose proof (random_date_sampled w1) as Hsampled.
  run_bind start_date w2 Hdate. cbn [fst snd] in Hw2, Hsampled.
  pose proof (pure_random_rand (Random.uniform 5000 15000) w2) as Hw3.
  run_bind balance w3 Hbalance. cbn [fst snd] in Hw3.
  pose proof (pure_random_rand (Random.randint 3 5) w3) as Hw4.
  pose proof (rand_fst (Random.randint 3 5) w3) as Hcount.
  pose proof (randint_range 3 5 (rng w3) ltac:(lia)) as Hcrange.
  run_bind count w4 Hcount4. cbn [fst snd] in Hw4, Hcount. rewrite <- Hcount in Hcrange.
  pose proof (regular_transactions_loop (range count) ([], balance, start_date) w4)
    as [Hw5 (regular & Hregular & Hrlen & Hrall)].
  run_bind st w5 Hst. cbn [fst snd] in Hw5, Hregular.
  pose proof (pure_random_rand (Random.randint 2 3) w5) as Hw6.
  pose proof (rand_fst (Random.randint 2 3) w5) as Hk.
  pose proof (randint_range 2 3 (rng w5) ltac:(lia)) as Hkrange.
  run_bind k w6 Hk6. cbn [fst snd] in Hw6, Hk. rewrite <- Hk in Hkrange.
  pose proof (pure_random_rand
    (Random.sample (hd inhabitant ORGANIZATIONS) (tl ORGANIZATIONS) k) w6) as Hw7.
  pose proof (rand_fst
    (Random.sample (hd inhabitant ORGANIZATIONS) (tl ORGANIZATIONS) k) w6) as Horgs.
  pose proof (sample_organizations k (rng w6) ltac:(lia)) as [Holen Hoall].
  run_bind charitable_orgs w7 Horgs7. cbn [fst snd] in Hw7, Horgs.
  rewrite <- Horgs in Holen, Hoall.
  pose proof (charitable_transactions_loop charitable_orgs st w7 Hoall)
    as [Hw8 (charitable & Hcharitable & Hclen & Hcall)].
  run_bind st' w8 Hst'. cbn [fst snd] in Hw8, Hcharitable.
  destruct st' as [[transactions balance'] current']. cbn [fst snd] in Hcharitable.
  assert (Hall : Forall well_formed_txn transactions).
  { rewrite Hcharitable, Hregular. simpl. apply Forall_app. by split. }
  assert (Hlen : (5 ≤ length transactions ≤ 8)%nat).
  { rewrite Hcharitable, Hregular. simpl. rewrite length_app, Hrlen, Hclen, Holen.
    unfold range. rewrite length_seqZ. lia. }
  destruct (sort_by_date_spec well_formed_txn transactions Hall) as [Hslen Hsall].
  match goal with
  | |- context [draw_transactions ?h ?f ?l ?i ?y ?e] =>
      destruct (draw_transactions_all h f l i y e) as (Htexts & Hentries & Hdrawn);
      [ rewrite Hslen; lia |];
      destruct (draw_transactions h f l i y e) as [[img y'] charitable_entries'] eqn:Hdraw
  end.
  cbn [fst snd] in Htexts, Hentries, Hdrawn.
  rewrite bind_run, bind_run, ret_run. cbn [fst snd].
  eexists n, start_date, (sort_by_date transactions), _, w8.
  cbv zeta. rewrite Hentries. cbn [app].
  split; [reflexivity|].
  split; [|split; [exact Hnrange|split; [exact Hsampled|split; [exact Hsall|split;
            [rewrite Hslen; exact Hlen|]]]]].
  - apply rendered_world.
    + repeat (eapply only_rng_trans; [|eassumption]). apply only_rng_refl.
    + simpl. exact Hdrawn.
  - rewrite !texts_Draw, Htexts, !texts_Draw. cbn [app].
    unfold texts at 1. cbn [ops history omap list_omap].
    rewrite <- !app_assoc. reflexivity.
Qed.

(** ** The driver *)

Lemma rendered_saved QS quality path canvas w w1 w' :
  rendered QS quality path canvas w w1 w' →
  ∃ img, files w' = (files w ++ [(path, Png img)])%list
         ∧ utcnow_isoformat w' = utcnow_isoformat w
         ∧ drawn_only canvas = true
         ∧ degraded (preset QS quality) (add_watermark canvas) img
         ∧ img = (apply_quality QS (add_watermark canvas) quality w1).1.
Proof.
  intros (_ & Hcanvas & ->). eexists. simpl.
  split; [done|]. split; [done|]. split; [done|]. split; [|done].
  apply apply_quality_spec.
Qed.

Lemma receipt_document QS i quality entries w :
  ∃ record saved,
    (generate_receipt QS (cyclic ORGANIZATIONS i) quality (i + 1) entries w).1.2
      = (entries ++ [record])%list
    ∧ files (generate_receipt QS (cyclic ORGANIZATIONS i) quality (i + 1) entries w).2
      = (files w ++ [saved])%list
    ∧ utcnow_isoformat
        (generate_receipt QS (cyclic ORGANIZATIONS i) quality (i + 1) entries w).2
      = utcnow_isoformat w
    ∧ document_ok QS (Receipt, i, quality) record saved.
Proof.
  destruct (generate_receipt_spec QS (cyclic ORGANIZATIONS i) quality (i + 1) entries w)
    as (date & amount & n & canvas & w1 & Hres & Hrendered & _ & _).
  destruct (rendered_saved _ _ _ _ _ _ _ Hrendered) as (img & Hfiles & Hclock & Hc & Hd & _).
  cbv zeta in Hres. rewrite Hres, Hfiles. cbn [fst snd].
  eexists _, _. split; [reflexivity|]. split; [reflexivity|]. split; [done|].
  eexists _, canvas, img. split; [reflexivity|]. by repeat split.
Qed.

Lemma letter_document QS i quality entries w :
  ∃ record saved,
    (generate_acknowledgment_letter QS (cyclic ORGANIZATIONS i) quality (i + 1)
       entries w).1.2 = (entries ++ [record])%list
    ∧ files (generate_acknowledgment_letter QS (cyclic ORGANIZATIONS i) quality (i + 1)
               entries w).2 = (files w ++ [saved])%list
    ∧ utcnow_isoformat
        (generate_acknowledgment_letter QS (cyclic ORGANIZATIONS i) quality (i + 1)
           entries w).2 = utcnow_isoformat w
    ∧ document_ok QS (AcknowledgmentLetter, i, quality) record saved.
Proof.
  destruct (generate_acknowledgment_letter_spec QS (cyclic ORGANIZATIONS i) quality
              (i + 1) entries w)
    as (date & amount & k & canvas & w1 & Hres & Hrendered & _).
  destruct (rendered_saved _ _ _ _ _ _ _ Hrendered) as (img & Hfiles & Hclock & Hc & Hd & _).
  cbv zeta in Hres. rewrite Hres, Hfiles. cbn [fst snd].
  eexists _, _. split; [reflexivity|]. split; [reflexivity|]. split; [done|].
  eexists _, canvas, img. split; [reflexivity|]. by repeat split.
Qed.

Lemma statement_document QS i quality entries w :
  ∃ record saved,
    (generate_bank_statement QS (cyclic BANKS i) quality (i + 1) entries w).1.2
      = (entries ++ [record])%list
    ∧ files (generate_bank_statement QS (cyclic BANKS i) quality (i + 1) entries w).2
      = (files w ++ [saved])%list
    ∧ utcnow_isoformat
        (generate_bank_statement QS (cyclic BANKS i) quality (i + 1) entries w).2
      = utcnow_isoformat w
    ∧ document_ok QS (BankStatement, i, quality) record saved.
Proof.
  destruct (generate_bank_statement_spec QS (cyclic BANKS i) quality (i + 1) entries w)
    as (n & start_date & txns & canvas & w1 & Hres & Hrendered & _).
  destruct (rendered_saved _ _ _ _ _ _ _ Hrendered) as (img & Hfiles & Hclock & Hc & Hd & _).
  cbv zeta in Hres. rewrite Hres, Hfiles. cbn [fst snd].
  eexists _, _. split; [reflexivity|]. split; [reflexivity|]. split; [done|].
  eexists _, canvas, img. split; [reflexivity|]. by repeat split.
Qed.

Lemma enumerate_position {A} (l : list A) done i (x : A) rest :
  enumerate l = (done ++ (i, x) :: rest)%list → i = Z.of_nat (length done).
Proof.
  intros Hl.
  assert (enumerate l !! length done = Some (i, x)) as Hlookup.
  { rewrite Hl. by apply list_lookup_middle. }
  unfold enumerate in Hlookup. rewrite list_lookup_imap in Hlookup.
  destruct (l !! length done); simpl in Hlookup; congruence.
Qed.

(** A loop of [main] over the qualities of one document type, for any
    renderer that appends one record and saves one file per call. *)
Lemma documents_loop QS kind
    (render : Z → string → Z → list json → M (string * list json)) entries0 w0 :
  (∀ i quality entries w,
     ∃ record saved,
       (render i quality (i + 1) entries w).1.2 = (entries ++ [record])%list
       ∧ files (render i quality (i + 1) entries w).2 = (files w ++ [saved])%list
       ∧ utcnow_isoformat (render i quality (i + 1) entries w).2 = utcnow_isoformat w
       ∧ document_ok QS (kind, i, quality) record saved) →
  let loop :=
    for_each (enumerate (qualities kind))
      (fun '(i, quality) '((count, manifest_entries) : main_state) =>
         '(_, manifest_entries) ← render i quality (count + 1) manifest_entries;
         mret (count + 1, manifest_entries))
      (0, entries0) in
  documents_generated QS entries0 w0 (schedule_of kind) (loop w0).1 (loop w0).2.
Proof.
  intros Hrender loop. subst loop. unfold schedule_of.
  apply (for_each_invariant_prefix
           (fun done st w =>
              documents_generated QS entries0 w0
                (map (fun '(i, quality) => (kind, i, quality)) done) st w)).
  - split; [done|]. split; [done|]. exists [], []. rewrite !app_nil_r.
    split; [done|]. split; [done|]. constructor.
  - intros done [i quality] rest [count entries] w Hpos
      (Hcount & Hclock & records & saved & Hentries & Hfiles & Hall).
    apply enumerate_position in Hpos. rewrite length_map in Hcount.
    cbn [fst snd] in Hcount, Hentries. subst count.
    rewrite <- Hpos. rewrite bind_run.
    destruct (Hrender i quality entries w) as (record & file & Hr & Hf & Hc & Hok).
    destruct (render i quality (i + 1) entries w) as [[name entries'] w'].
    cbn [fst snd] in *. rewrite ret_run. cbn [fst snd].
    split; [rewrite length_map, length_app; simpl; lia|].
    split; [congruence|].
    exists (records ++ [record])%list, (saved ++ [file])%list.
    rewrite Hr, Hf, Hentries, Hfiles, !app_assoc.
    split; [done|]. split; [done|].
    rewrite map_app. apply Forall3_app; [done|]. simpl. by repeat constructor.
Qed.

Lemma print_kept line w : kept w (print line w).2.
Proof. by split. Qed.

Lemma makedirs_loop_kept subdirs w :
  kept w (for_each subdirs
            (fun subdir (_ : unit) => makedirs (path_join OUTPUT_DIR subdir)) tt w).2.
Proof.
  apply (for_each_invariant (fun _ w' => kept w w')); [|by split].
  intros subdir [] w' [Hf Hc]. by split.
Qed.

(** The receipts loop only appends to the manifest entries. *)
Lemma receipts_loop_grows QS xs (st : main_state) w :
  st.2 `prefix_of`
    (for_each xs
       (fun '(i, quality) '((receipt_count, manifest_entries) : main_state) =>
          '(_, manifest_entries) ←
            generate_receipt QS (cyclic ORGANIZATIONS i) quality (receipt_count + 1)
              manifest_entries;
          mret (receipt_count + 1, manifest_entries)) st w).1.2.
Proof.
  apply (for_each_invariant (fun st' _ => st.2 `prefix_of` st'.2)); [|done].
  intros [i quality] [count entries] w' Hprefix. rewrite bind_run.
  destruct (generate_receipt_spec QS (cyclic ORGANIZATIONS i) quality (count + 1)
              entries w') as (? & ? & ? & ? & ? & Hres & _).
  cbv zeta in Hres.
  destruct (generate_receipt QS (cyclic ORGANIZATIONS i) quality (count + 1) entries w')
    as [[name entries'] w''].
  cbn [fst snd] in *. rewrite ret_run. cbn [fst snd].
  injection Hres as _ ->. by apply prefix_app_r.
Qed.

Lemma receipts_loop_first QS w :
  (generate_receipt QS (cyclic ORGANIZATIONS 0) "high" 1 [] w).1.2 `prefix_of`
    (for_each (enumerate (qualities Receipt))
       (fun '(i, quality) '((receipt_count, manifest_entries) : main_state) =>
          '(_, manifest_entries) ←
            generate_receipt QS (cyclic ORGANIZATIONS i) quality (receipt_count + 1)
              manifest_entries;
          mret (receipt_count + 1, manifest_entries)) (0, []) w).1.2.
Proof.
  change (enumerate (qualities Receipt))
    with ((0, "high") :: tail (enumerate (qualities Receipt))).
  rewrite for_each_cons.
  etransitivity; [|apply receipts_loop_grows].
  rewrite bind_run. change (0 + 1) with 1.
  destruct (generate_receipt QS (cyclic ORGANIZATIONS 0) "high" 1 [] w)
    as [[name entries'] w'].
  done.
Qed.

Lemma main_prelude_run w :
  (main_prelude w).2 =
  (print "Generating receipts..."
     (for_each ["receipts"; "acknowledgment_letters"; "bank_statements";
                "credit_card_statements"; "cancelled_checks"; "appraisals";
                "form_8283"; "other"]
        (fun subdir (_ : unit) => makedirs (path_join OUTPUT_DIR subdir)) tt
        (print "Generating OCR test documents..." w).2).2).2.
Proof. unfold main_prelude. by rewrite !bind_run. Qed.

Lemma main_spec QS w :
  ∃ records saved,
    files (main QS w).2 =
      (files w ++ saved
         ++ [(MANIFEST_PATH, JsonText (manifest_json (utcnow_isoformat w) records))])%list
    ∧ Forall3 (document_ok QS) schedule records saved
    ∧ first_entries QS w `prefix_of` records.
Proof.
  unfold main. cbv zeta.
  pose proof (print_kept "Generating OCR test documents..." w) as [Hf1 Hc1].
  pose proof (main_prelude_run w) as Hprelude.
  run_bind u1 w1 H1. cbn [snd] in Hf1, Hc1, Hprelude. clear H1.
  lazymatch goal with
  | |- context [for_each ?dirs _ tt] =>
      pose proof (makedirs_loop_kept dirs w1) as [Hf2 Hc2]
  end.
  run_bind u2 w2 H2. cbn [snd] in Hf2, Hc2, Hprelude. clear H2.
  pose proof (print_kept "Generating receipts..." w2) as [Hf3 Hc3].
  run_bind u3 w3 H3. cbn [snd] in Hf3, Hc3, Hprelude. clear H3.
  (* receipts *)
  lazymatch goal with
  | |- context [mbind _ ?m w3] =>
      pose proof (documents_loop QS Receipt
        (fun i quality => generate_receipt QS (cyclic ORGANIZATIONS i) quality) [] w3
        (receipt_document QS)
        : documents_generated QS [] w3 (schedule_of Receipt) (m w3).1 (m w3).2) as Hloop1;
      pose proof (receipts_loop_first QS w3
        : (generate_receipt QS (cyclic ORGANIZATIONS 0) "high" 1 [] w3).1.2
            `prefix_of` (m w3).1.2) as Hfirst
  end.
  run_bind st1 w4 H4. clear H4. destruct st1 as [receipt_count entries1].
  destruct Hloop1 as (Hn1 & Hc4 & records1 & saved1 & He1 & Hf4 & Hall1).
  cbn [fst snd] in Hn1, He1, Hc4, Hf4, Hfirst. change (Z.of_nat (length (schedule_of Receipt))) with 30 in Hn1.
  lazymatch goal with
  | |- context [mbind _ (print ?line) w4] => pose proof (print_kept line w4) as [Hf5 Hc5]
  end.
  run_bind u5 w5 H5. cbn [snd] in Hf5, Hc5. clear H5.
  pose proof (print_kept "Generating acknowledgment letters..." w5) as [Hf6 Hc6].
  run_bind u6 w6 H6. cbn [snd] in Hf6, Hc6. clear H6.
  (* acknowledgment letters *)
  lazymatch goal with
  | |- context [mbind _ ?m w6] =>
      pose proof (documents_loop QS AcknowledgmentLetter
        (fun i quality =>
           generate_acknowledgment_letter QS (cyclic ORGANIZATIONS i) quality)
        entries1 w6 (letter_document QS)
        : documents_generated QS entries1 w6 (schedule_of AcknowledgmentLetter)
            (m w6).1 (m w6).2) as Hloop2
  end.
  run_bind st2 w7 H7. clear H7. destruct st2 as [letter_count entries2].
  destruct Hloop2 as (Hn2 & Hc7 & records2 & saved2 & He2 & Hf7 & Hall2).
  cbn [fst snd] in Hn2, He2, Hc7, Hf7.
  change (Z.of_nat (length (schedule_of AcknowledgmentLetter))) with 20 in Hn2.
  lazymatch goal with
  | |- context [mbind _ (print ?line) w7] => pose proof (print_kept line w7) as [Hf8 Hc8]
  end.
  run_bind u8 w8 H8. cbn [snd] in Hf8, Hc8. clear H8.
  pose proof (print_kept "Generating bank statements..." w8) as [Hf9 Hc9].
  run_bind u9 w9 H9. cbn [snd] in Hf9, Hc9. clear H9.
  (* bank statements *)
  lazymatch goal with
  | |- context [mbind _ ?m w9] =>
      pose proof (documents_loop QS BankStatement
        (fun i quality => generate_bank_statement QS (cyclic BANKS i) quality)
        entries2 w9 (statement_document QS)
        : documents_generated QS entries2 w9 (schedule_of BankStatement)
            (m w9).1 (m w9).2) as Hloop3
  end.
  run_bind st3 w10 H10. clear H10. destruct st3 as [statement_count entries3].
  destruct Hloop3 as (Hn3 & Hc10 & records3 & saved3 & He3 & Hf10 & Hall3).
  cbn [fst snd] in Hn3, He3, Hc10, Hf10.
  change (Z.of_nat (length (schedule_of BankStatement))) with 15 in Hn3.
  lazymatch goal with
  | |- context [mbind _ (print ?line) w10] => pose proof (print_kept line w10) as [Hf11 Hc11]
  end.
  run_bind u11 w11 H11. cbn [snd] in Hf11, Hc11. clear H11.
  (* manifest *)
  run_bind generatedAt w12 H12. unfold utcnow in H12. injection H12 as <- <-.
  rewrite !bind_run. unfold write_file, print at 1 2. cbn [fst snd files].
  exists (records1 ++ records2 ++ records3)%list, (saved1 ++ saved2 ++ saved3)%list.
  split.
  - rewrite Hf11, Hf10, Hf9, Hf8, Hf7, Hf6, Hf5, Hf4, Hf3, Hf2, Hf1.
    rewrite Hc11, Hc10, Hc9, Hc8, Hc7, Hc6, Hc5, Hc4, Hc3, Hc2, Hc1.
    rewrite He3, He2, He1, Hn1, Hn2, Hn3. cbn [app].
    rewrite <- !app_assoc. reflexivity.
  - split; [unfold schedule; by repeat apply Forall3_app|].
    unfold first_entries. rewrite Hprelude. rewrite He1 in Hfirst. simpl in Hfirst.
    by apply prefix_app_r.
Qed.

(** ** What degradation leaves alone *)

Lemma degraded_ops s img img' : degraded s img img' → ops img' = ops img.
Proof.
  intros (writes & sign & Hhist & _). unfold ops. rewrite Hhist, !omap_app.
  clear Hhist.
  assert (omap (fun s => match s with Drawn op => Some op | _ => None end)
            (map (fun write : point * pixel => Noised write.1 write.2) writes) = [])
    as ->.
  { induction writes as [|write writes IH]; [done | exact IH]. }
  destruct (0 <? blur s)%float, (0 <? rotation s); simpl; by rewrite ?app_nil_r.
Qed.

Lemma degraded_texts s img img' : degraded s img img' → texts img' = texts img.
Proof. intros H. unfold texts. by rewrite (degraded_ops _ _ _ H). Qed.

Lemma texts_add_watermark canvas :
  texts (add_watermark canvas) = (texts canvas ++ ["SAMPLE - FOR TESTING ONLY"])%list.
Proof. unfold add_watermark. by rewrite texts_Draw. Qed.

Lemma drawn_only_history canvas :
  drawn_only canvas = true → history canvas = map Drawn (ops canvas).
Proof.
  unfold ops. induction canvas; simpl; try done.
  intros H. rewrite omap_app, map_app, <- IHcanvas; done.
Qed.

(** The texts of the image a renderer saved: those of its canvas, then the
    watermark. *)
Lemma rendered_texts QS quality path canvas w w1 w' :
  rendered QS quality path canvas w w1 w' →
  ∃ img, files w' = (files w ++ [(path, Png img)])%list
         ∧ texts img = (texts canvas ++ ["SAMPLE - FOR TESTING ONLY"])%list.
Proof.
  intros H. destruct (rendered_saved _ _ _ _ _ _ _ H) as (img & Hf & _ & _ & Hd & _).
  exists img. split; [done|].
  by rewrite (degraded_texts _ _ _ Hd), texts_add_watermark.
Qed.

(** ** The calendar around the sampled dates *)

Lemma ordinal_roundtrip n :
  739200 ≤ n ≤ 739700 → Datetime.toordinal (Datetime.fromordinal n) = n.
Proof.
  intros Hn.
  assert (forallb (fun n => Datetime.toordinal (Datetime.fromordinal n) =? n)
            (seqZ 739200 501) = true) as Hall by (vm_compute; reflexivity).
  rewrite forallb_forall in Hall.
  apply Z.eqb_eq, Hall, list_elem_of_In, elem_of_seqZ. lia.
Qed.

Lemma sampled_date_ordinal d :
  sampled_date d → 739252 ≤ Datetime.toordinal d ≤ 739645.
Proof.
  intros (days & Hdays & ->). unfold Datetime.add_days.
  change (Datetime.toordinal (Datetime.mk 2025 1 1)) with 739252.
  rewrite ordinal_roundtrip; lia.
Qed.

Lemma sampled_date_shift d k :
  sampled_date d → -14 ≤ k ≤ 30 →
  Datetime.toordinal (Datetime.add_days d k) = Datetime.toordinal d + k.
Proof.
  intros Hd Hk. apply sampled_date_ordinal in Hd.
  unfold Datetime.add_days. rewrite ordinal_roundtrip; lia.
Qed.

(** ** Ground truth in lockstep with the rendering *)

(** ** Post-processing *)

Lemma rendered_post_processed QS quality path canvas w w1 w' :
  rendered QS quality path canvas w w1 w' → post_processed QS quality w w'.
Proof.
  intros H. pose proof H as (Hw1 & _ & _).
  destruct (rendered_saved _ _ _ _ _ _ _ H) as (img & Hfiles & _ & Hcanvas & Hd & Himg).
  pose proof Hd as (writes & sign & Hhist & _).
  eexists canvas, w1, path, img, _.
  split; [done|]. split; [done|]. split; [done|]. split; [done|].
  split; [|split; [|done]].
  - rewrite Hhist. unfold add_watermark. fold (watermark_of canvas). simpl.
    rewrite (drawn_only_history canvas Hcanvas), <- !app_assoc. reflexivity.
  - apply Forall_app. split; [destruct (0 <? blur _)%float; by repeat constructor|].
    apply Forall_app. split; [|destruct (0 <? rotation _); by repeat constructor].
    apply Forall_map, Forall_forall. by intros.
Qed.

(** C3: each of the three renderers post-processes its drawing the same way,
    with the same two functions: [add_watermark] first, [apply_quality]
    second.  The saved image is the drawing, then the watermark, then only
    the degradation of the requested quality. *)
Theorem C3_watermark_then_degradation QS quality index entries w :
  (∀ org, post_processed QS quality w
            (generate_receipt QS org quality index entries w).2)
  ∧ (∀ org, post_processed QS quality w
              (generate_acknowledgment_letter QS org quality index entries w).2)
  ∧ (∀ bank, post_processed QS quality w
               (generate_bank_statement QS bank quality index entries w).2).
Proof.
  split; [|split].
  - intros org.
    destruct (generate_receipt_spec QS org quality index entries w)
      as (? & ? & ? & canvas & w1 & _ & Hrendered & _).
    by eapply rendered_post_processed.
  - intros org.
    destruct (generate_acknowledgment_letter_spec QS org quality index entries w)
      as (? & ? & ? & canvas & w1 & _ & Hrendered & _).
    by eapply rendered_post_processed.
  - intros bank.
    destruct (generate_bank_statement_spec QS bank quality index entries w)
      as (? & ? & ? & canvas & w1 & _ & Hrendered & _).
    by eapply rendered_post_processed.
Qed.

(** ** The quality presets *)

Lemma load_QUALITY_SETTINGS_table w :
  ∃ edge_rotation,
    5 ≤ edge_rotation ≤ 15
    ∧ (load_QUALITY_SETTINGS w).1 =
        <["edge" := mkSetting 0.8 15 edge_rotation]>
          (<["low" := mkSetting 1.5 25 0]>
          (<["medium" := mkSetting 0.5 10 0]>
          (<["high" := mkSetting 0 0 0]> ∅))).
Proof.
  unfold load_QUALITY_SETTINGS. rewrite bind_run, ret_run. cbn [fst].
  rewrite rand_fst. eexists. split; [|reflexivity].
  apply randint_range. lia.
Qed.

Lemma apply_quality_unchanged QS img quality w :
  preset QS quality = mkSetting 0 0 0 → apply_quality QS img quality w = (img, w).
Proof.
  intros Hpreset. unfold apply_quality. fold (preset QS quality).
  rewrite Hpreset. reflexivity.
Qed.

(** ** Noise stays in range *)

Lemma noisy_in_range mag write :
  noisy mag write →
  0 ≤ write.2.1.1 ≤ 255 ∧ 0 ≤ write.2.1.2 ≤ 255 ∧ 0 ≤ write.2.2 ≤ 255.
Proof. intros (n & r & g & b & _ & ->). simpl. lia. Qed.

Lemma noise_pixel_in_range mag i j img w :
  (noise_pixel mag i j img w).1 = img
  ∨ ∃ value, (noise_pixel mag i j img w).1 = PutPixel img (i, j) value
             ∧ in_range value.
Proof.
  unfold noise_pixel. rewrite bind_run.
  destruct (rand Random.random w) as [u w1]. cbn [fst snd].
  destruct (u <? 0.1)%float; [|by left].
  rewrite bind_run.
  destruct (rand (Random.randint (- mag) mag) w1) as [n w2]. cbn [fst snd].
  destruct (getpixel img (i, j)) as [[r g] b]. rewrite ret_run. cbn [fst].
  right. eexists. split; [reflexivity|]. unfold in_range. simpl. lia.
Qed.

(** C8: the noise step never writes an out-of-range pixel.  For every noise
    magnitude and every pixel, the loop body leaves the image alone or writes
    a pixel whose red, green and blue values are in [0, 255]; so every pixel
    [apply_quality] writes, under any settings table, is in range. *)
Theorem C8_noise_in_range QS img quality w :
  (∀ mag i j,
     (noise_pixel mag i j img w).1 = img
     ∨ ∃ value, (noise_pixel mag i j img w).1 = PutPixel img (i, j) value
                ∧ in_range value)
  ∧ writes_in_range (added_steps img (apply_quality QS img quality w).1).
Proof.
  split; [intros; apply noise_pixel_in_range|].
  destruct (apply_quality_spec QS img quality w)
    as [(writes & sign & Hhist & _ & Hall & _) _].
  unfold added_steps, writes_in_range. rewrite Hhist, drop_app_length.
  apply Forall_app. split; [destruct (0 <? blur _)%float; by repeat constructor|].
  apply Forall_app. split; [|destruct (0 <? rotation _); by repeat constructor].
  apply Forall_map. eapply Forall_impl; [exact Hall|].
  intros write Hwrite. by apply noisy_in_range in Hwrite.
Qed.

(** C9: a quality label outside the four presets is not an error:
    [apply_quality] falls back to the high preset and returns the image as
    it is, without consuming a random draw. *)
Theorem C9_unknown_quality_falls_back w0 img quality w :
  quality ≠ "high" → quality ≠ "medium" → quality ≠ "low" → quality ≠ "edge" →
  preset (load_QUALITY_SETTINGS w0).1 quality
    = preset (load_QUALITY_SETTINGS w0).1 "high"
  ∧ apply_quality (load_QUALITY_SETTINGS w0).1 img quality w = (img, w).
Proof.
  intros Hhigh Hmedium Hlow Hedge.
  destruct (load_QUALITY_SETTINGS_table w0) as (r & _ & ->).
  assert (preset (<["edge" := mkSetting 0.8 15 r]>
                    (<["low" := mkSetting 1.5 25 0]>
                    (<["medium" := mkSetting 0.5 10 0]>
                    (<["high" := mkSetting 0 0 0]> ∅)))) quality = mkSetting 0 0 0)
    as Hpreset.
  { unfold preset. by rewrite !lookup_insert_ne, lookup_empty. }
  split; [by rewrite Hpreset | by apply apply_quality_unchanged].
Qed.

(** ** Paths *)

Lemma string_app_assoc (a b c : string) : (a +:+ b) +:+ c = a +:+ b +:+ c.
Proof.
  induction a as [|x a IH]; [done|].
  change (String x ((a +:+ b) +:+ c) = String x (a +:+ b +:+ c)). by rewrite IH.
Qed.

(** The last character of a string that ends with a non-empty [t]. *)
Lemma last_char_app (s : string) (c : ascii) (t : string) :
  String.substring (String.length (s +:+ String c t) - 1) 1 (s +:+ String c t)
  = String.substring (String.length (String c t) - 1) 1 (String c t).
Proof.
  induction s as [|x s IH]; [done|].
  change (String x s +:+ String c t) with (String x (s +:+ String c t)).
  assert (∃ n, String.length (s +:+ String c t) = S n) as [n Hn].
  { clear IH. induction s as [|y s [n IH]]; simpl; eauto. }
  rewrite <- IH. cbn [String.length]. rewrite Hn.
  replace (S (S n) - 1)%nat with (S n) by lia.
  replace (S n - 1)%nat with n by lia. reflexivity.
Qed.

Lemma app_nonempty (s : string) (c : ascii) (t : string) :
  String.eqb (s +:+ String c t) "" = false.
Proof. by destruct s. Qed.

(** Joining below a directory that ends with [t], not a slash. *)
Lemma path_join_below (s : string) (c : ascii) (t : string) (b : string) (x : ascii)
    (rest : string) :
  String.eqb (String.substring (String.length (String c t) - 1) 1 (String c t)) "/" = false →
  b = String x rest → Ascii.eqb x "/" = false →
  path_join (s +:+ String c t) b = (s +:+ String c t) +:+ "/" +:+ b.
Proof.
  intros Hlast -> Hx. unfold path_join.
  rewrite app_nonempty, last_char_app, Hlast.
  destruct x as [[] [] [] [] [] [] [] []]; try done.
Qed.

Lemma OUTPUT_DIR_documents : ∃ s, OUTPUT_DIR = s +:+ "documents".
Proof.
  unfold OUTPUT_DIR, path_join.
  destruct (String.eqb BASE_DIR ""); [by exists ""|].
  destruct (String.eqb _ "/"); [by exists BASE_DIR|].
  exists (BASE_DIR +:+ "/"). by rewrite string_app_assoc.
Qed.

(** A document is saved under the documents directory at its manifest key. *)
Lemma saved_path item :
  path_join (path_join OUTPUT_DIR (directory item.1.1)) (scheduled_filename item)
  = OUTPUT_DIR +:+ "/" +:+ relative_path item.
Proof.
  destruct OUTPUT_DIR_documents as [s Hs]. rewrite Hs.
  destruct item as [[kind i] quality]. unfold relative_path. cbn [fst snd].
  destruct kind; cbn [directory scheduled_filename prefix document_filename].
  all: erewrite (path_join_below s "d" "ocuments"); [|done|reflexivity|done].
  all: rewrite <- !string_app_assoc.
  all: erewrite (path_join_below _ _ _); [|done|reflexivity|done].
  all: by rewrite !string_app_assoc.
Qed.

(** ** A run of the script *)

Lemma script_run w :
  script w = main (load_QUALITY_SETTINGS w).1 (load_QUALITY_SETTINGS w).2.
Proof. unfold script. by rewrite bind_run. Qed.

Lemma load_QUALITY_SETTINGS_only_rng w : only_rng w (load_QUALITY_SETTINGS w).2.
Proof.
  unfold load_QUALITY_SETTINGS. apply pure_random_bind; auto with random_only.
Qed.

Lemma script_spec w :
  ∃ records saved,
    files (script w).2 =
      (files w ++ saved
         ++ [(MANIFEST_PATH, JsonText (manifest_json (utcnow_isoformat w) records))])%list
    ∧ Forall3 (document_ok (load_QUALITY_SETTINGS w).1) schedule records saved
    ∧ first_entries (load_QUALITY_SETTINGS w).1 (load_QUALITY_SETTINGS w).2
        `prefix_of` records.
Proof.
  rewrite script_run.
  destruct (main_spec (load_QUALITY_SETTINGS w).1 (load_QUALITY_SETTINGS w).2)
    as (records & saved & Hfiles & Hall & Hfirst).
  destruct (load_QUALITY_SETTINGS_only_rng w) as (_ & Hf & Hc & _).
  exists records, saved. rewrite Hfiles, Hf, Hc.
  split; [reflexivity|]. split; [exact Hall | exact Hfirst].
Qed.

Lemma schedule_length : length schedule = 65%nat.
Proof. reflexivity. Qed.

Lemma distinct_NoDup (l : list string) : Str.distinct l = true → NoDup l.
Proof.
  induction l as [|s l IH]; [constructor|].
  cbn [Str.distinct]. intros [Hs Hl]%andb_true_iff. constructor; [|by apply IH].
  intros Hin%list_elem_of_In. apply negb_true_iff in Hs.
  assert (existsb (String.eqb s) l = true) as Hex; [|congruence].
  apply existsb_exists. exists s. split; [done | apply String.eqb_refl].
Qed.

Lemma schedule_keys_distinct : NoDup (relative_path <$> schedule).
Proof. apply distinct_NoDup. vm_compute. reflexivity. Qed.

Lemma document_ok_describes QS item record saved :
  document_ok QS item record saved →
  record_describes QS record saved
  ∧ get "filename" record = Some (JString (relative_path item))
  ∧ get "documentType" record = Some (JString (type_name item.1.1))
  ∧ get "quality" record = Some (JString item.2).
Proof.
  intros (expected & canvas & img & -> & _ & _ & -> & Hc & Hd).
  split; [|done].
  exists (relative_path item), (type_name item.1.1), item.2, expected, canvas, img.
  by rewrite saved_path.
Qed.

Lemma documents_described QS items records saved :
  Forall3 (document_ok QS) items records saved →
  Forall2 (record_describes QS) records saved
  ∧ get "filename" <$> records = (fun item => Some (JString (relative_path item))) <$> items
  ∧ length records = length items.
Proof.
  induction 1 as [|item record file items records saved Hok Hall (IH1 & IH2 & IH3)].
  - by repeat split.
  - apply document_ok_describes in Hok as (Hdesc & Hname & _).
    split; [by constructor|]. split; [|by rewrite !length_cons, IH3].
    rewrite !fmap_cons. by rewrite Hname, IH2.
Qed.

(** C5: the manifest holds exactly one record per generated image.  In any
    run, the documents list of the final manifest pairs off with the saved
    images, 65 of each; every record has exactly the fields filename,
    documentType, quality, synthetic and expectedFields; its filename is the
    path of its image relative to the documents directory, so the keys are
    pairwise distinct; and its quality is the label the image was degraded
    with. *)
Theorem C5_one_record_per_image w :
  ∃ records saved,
    files (script w).2 =
      (files w ++ saved
         ++ [(MANIFEST_PATH, JsonText (manifest_json (utcnow_isoformat w) records))])%list
    ∧ length records = 65%nat
    ∧ Forall2 (record_describes (load_QUALITY_SETTINGS w).1) records saved
    ∧ NoDup (get "filename" <$> records).
Proof.
  destruct (script_spec w) as (records & saved & Hfiles & Hall & _).
  destruct (documents_described _ _ _ _ Hall) as (Hdesc & Hkeys & Hlen).
  exists records, saved.
  split; [exact Hfiles|]. split; [by rewrite Hlen|]. split; [exact Hdesc|].
  rewrite Hkeys.
  replace ((fun item => Some (JString (relative_path item))) <$> schedule)
    with ((fun key => Some (JString key)) <$> (relative_path <$> schedule))
    by (by rewrite <- list_fmap_compose).
  apply NoDup_fmap_2; [|apply schedule_keys_distinct].
  intros a b Hab. by injection Hab.
Qed.

(** C6: the driver follows a fixed schedule -- 30 receipts (12 high, 9
    medium, 6 low, 3 edge), 20 acknowledgment letters (10 high, 6 medium, 4
    low), 15 bank statements (8 high, 5 medium, 2 low), the catalogs taken
    round-robin -- calls the matching renderer once per scheduled document,
    and writes one manifest, last, whose totalDocuments is the length of its
    documents list and the sum of its documentCounts. *)
Theorem C6_driver_schedule w :
  (fun item : scheduled => (item.1.1, item.2)) <$> schedule =
    (replicate 12 (Receipt, "high") ++ replicate 9 (Receipt, "medium")
       ++ replicate 6 (Receipt, "low") ++ replicate 3 (Receipt, "edge")
       ++ replicate 10 (AcknowledgmentLetter, "high")
       ++ replicate 6 (AcknowledgmentLetter, "medium")
       ++ replicate 4 (AcknowledgmentLetter, "low")
       ++ replicate 8 (BankStatement, "high") ++ replicate 5 (BankStatement, "medium")
       ++ replicate 2 (BankStatement, "low"))%list
  ∧ Forall (fun item : scheduled =>
              catalog_name item.1.1 item.1.2 =
                match item.1.1 with
                | BankStatement =>
                    bank_name (BANKS !!! Z.to_nat (item.1.2 mod 5))
                | _ => org_name (ORGANIZATIONS !!! Z.to_nat (item.1.2 mod 8))
                end) schedule
  ∧ ∃ records saved manifest,
      files (script w).2 = (files w ++ saved ++ [(MANIFEST_PATH, JsonText manifest)])%list
      ∧ Forall3 (document_ok (load_QUALITY_SETTINGS w).1) schedule records saved
      ∧ get "documents" manifest = Some (JList records)
      ∧ get "totalDocuments" manifest = Some (JInt (Z.of_nat (length records)))
      ∧ get "documentCounts" manifest =
          Some (JDict [("receipts", JInt 30); ("acknowledgment_letters", JInt 20);
                       ("bank_statements", JInt 15)])
      ∧ Z.of_nat (length records) = 30 + 20 + 15.
Proof.
  split; [reflexivity|]. split; [by repeat constructor|].
  destruct (script_spec w) as (records & saved & Hfiles & Hall & _).
  destruct (documents_described _ _ _ _ Hall) as (_ & _ & Hlen).
  exists records, saved, (manifest_json (utcnow_isoformat w) records).
  split; [exact Hfiles|]. split; [exact Hall|].
  split; [reflexivity|]. split; [reflexivity|]. split; [reflexivity|].
  by rewrite Hlen.
Qed.

(** ** Determinism relative to the random source *)

Lemma deterministic_ret {A} (a : A) : deterministic (mret a).
Proof. intros base base' w w' H. split; [reflexivity | exact H]. Qed.

Lemma deterministic_bind {A B} (m : M A) (k : A → M B) :
  deterministic m → (∀ a, deterministic (k a)) → deterministic (m ≫= k).
Proof.
  intros Hm Hk base base' w w' H. rewrite !bind_run.
  destruct (Hm base base' w w' H) as [-> H']. by apply Hk.
Qed.

Lemma deterministic_rand {A} (f : Random.state → A * Random.state) :
  deterministic (rand f).
Proof.
  intros base base' w w' [Hrng Hfiles]. unfold rand. rewrite Hrng.
  destruct (f (rng w')). split; [reflexivity|]. split; [reflexivity | exact Hfiles].
Qed.

Lemma deterministic_print line : deterministic (print line).
Proof. intros base base' w w' H. split; [reflexivity | exact H]. Qed.

Lemma deterministic_makedirs path : deterministic (makedirs path).
Proof. intros base base' w w' H. split; [reflexivity | exact H]. Qed.

Lemma deterministic_write_file path content : deterministic (write_file path content).
Proof.
  intros base base' w w' [Hrng (written & Hf & Hf')].
  split; [reflexivity|]. split; [exact Hrng|].
  exists (written ++ [(path, content)])%list. unfold write_file. cbn [snd files].
  rewrite Hf, Hf', <- !app_assoc. by split.
Qed.

Lemma deterministic_for_each {A St} (xs : list A) (body : A → St → M St) st :
  (∀ x st, deterministic (body x st)) → deterministic (for_each xs body st).
Proof.
  intros Hbody. revert st. induction xs as [|x xs IH]; intros st.
  - apply deterministic_ret.
  - simpl. apply deterministic_bind; [apply Hbody | apply IH].
Qed.

Create HintDb deterministic.
#[local] Hint Resolve deterministic_ret deterministic_rand deterministic_print
  deterministic_makedirs deterministic_write_file : deterministic.

(** Decompose a computation along its binds, loops and case analyses. *)
Ltac deterministic_steps :=
  repeat first
    [ solve [auto 1 with deterministic]
    | apply deterministic_bind; [|intros ?]
    | apply deterministic_for_each; intros ? ?
    | lazymatch goal with
      | |- deterministic (match ?x with _ => _ end) => destruct x
      | |- deterministic ((match ?x with _ => _ end) _) => destruct x
      | |- deterministic (if ?b then _ else _) => destruct b
      end
    | progress cbv beta iota zeta ].

Lemma deterministic_noise_pixel mag i j img : deterministic (noise_pixel mag i j img).
Proof. unfold noise_pixel. deterministic_steps. Qed.

#[local] Hint Resolve deterministic_noise_pixel : deterministic.

Lemma deterministic_apply_quality QS img quality :
  deterministic (apply_quality QS img quality).
Proof. unfold apply_quality. deterministic_steps. Qed.

Lemma deterministic_random_date y : deterministic (random_date y).
Proof. unfold random_date. deterministic_steps. Qed.

Lemma deterministic_random_amount a b : deterministic (random_amount a b).
Proof. unfold random_amount. deterministic_steps. Qed.

#[local] Hint Resolve deterministic_apply_quality deterministic_random_date
  deterministic_random_amount : deterministic.

Lemma deterministic_generate_receipt QS org quality index entries :
  deterministic (generate_receipt QS org quality index entries).
Proof. unfold generate_receipt. deterministic_steps. Qed.

Lemma deterministic_generate_acknowledgment_letter QS org quality index entries :
  deterministic (generate_acknowledgment_letter QS org quality index entries).
Proof. unfold generate_acknowledgment_letter. deterministic_steps. Qed.

Lemma deterministic_regular_transaction i st : deterministic (regular_transaction i st).
Proof. unfold regular_transaction. deterministic_steps. Qed.

Lemma deterministic_charitable_transaction org st :
  deterministic (charitable_transaction org st).
Proof. unfold charitable_transaction. deterministic_steps. Qed.

#[local] Hint Resolve deterministic_regular_transaction
  deterministic_charitable_transaction : deterministic.

Lemma deterministic_generate_bank_statement QS bank quality index entries :
  deterministic (generate_bank_statement QS bank quality index entries).
Proof. unfold generate_bank_statement. deterministic_steps. Qed.

#[local] Hint Resolve deterministic_generate_receipt
  deterministic_generate_acknowledgment_letter
  deterministic_generate_bank_statement : deterministic.







(** ** The noise loop, pixel by pixel *)

Lemma put_pixels_snoc img writes write :
  put_pixels img (writes ++ [write]) = PutPixel (put_pixels img writes) write.1 write.2.
Proof. unfold put_pixels. by rewrite fold_left_app. Qed.

Lemma size_put_pixels img writes : size (put_pixels img writes) = size img.
Proof.
  induction writes as [|write writes IH] using rev_ind; [done|].
  by rewrite put_pixels_snoc.
Qed.

Lemma history_put_pixels img writes :
  history (put_pixels img writes) =
  (history img ++ map (fun write => Noised write.1 write.2) writes)%list.
Proof.
  induction writes as [|write writes IH] using rev_ind.
  - simpl. by rewrite app_nil_r.
  - rewrite put_pixels_snoc, map_app. simpl. by rewrite IH, app_assoc.
Qed.

Lemma getpixel_put_pixels img writes xy :
  xy ∉ writes.*1 → getpixel (put_pixels img writes) xy = getpixel img xy.
Proof.
  induction writes as [|[xy' v] writes IH] using rev_ind; [done|].
  rewrite fmap_app, not_elem_of_app, put_pixels_snoc. simpl.
  intros [Hwrites Hxy]. rewrite IH by done.
  destruct ((xy.1 =? xy'.1) && (xy.2 =? xy'.2))%bool eqn:Heq; [|done].
  apply andb_true_iff in Heq as [H1%Z.eqb_eq H2%Z.eqb_eq].
  exfalso. apply Hxy. destruct xy, xy'. simpl in *. subst. by left.
Qed.

Lemma rand_rng {A} (f : Random.state → A * Random.state) w :
  rng (rand f w).2 = (f (rng w)).2.
Proof. unfold rand. by destruct (f (rng w)). Qed.

Lemma next_state s :
  (Random.next s).2 = Random.mk (Random.draws s) (N.succ (Random.cursor s)).
Proof. reflexivity. Qed.

Lemma randbelow_state n s :
  (Random.randbelow n s).2 = Random.mk (Random.draws s) (N.succ (Random.cursor s)).
Proof. reflexivity. Qed.

Lemma randint_state a b s :
  (Random.randint a b s).2 = Random.mk (Random.draws s) (N.succ (Random.cursor s)).
Proof. reflexivity. Qed.

Lemma random_state s :
  (Random.random s).2 = Random.mk (Random.draws s) (N.succ (Random.cursor s)).
Proof. reflexivity. Qed.

Lemma uniform_state a b s :
  (Random.uniform a b s).2 = Random.mk (Random.draws s) (N.succ (Random.cursor s)).
Proof. reflexivity. Qed.

Lemma choice_state {A} (x : A) xs s :
  (Random.choice x xs s).2 = Random.mk (Random.draws s) (N.succ (Random.cursor s)).
Proof. reflexivity. Qed.

Lemma noise_pixel_exact mag i j img w :
  0 < mag →
  Random.draws (rng (noise_pixel mag i j img w).2) = Random.draws (rng w)
  ∧ (((noise_pixel mag i j img w).1 = img
      ∧ Random.cursor (rng (noise_pixel mag i j img w).2)
        = (Random.cursor (rng w) + 1)%N)
     ∨ ∃ n, - mag ≤ n ≤ mag
            ∧ (noise_pixel mag i j img w).1
              = PutPixel img (i, j) (clamp_add (getpixel img (i, j)) n)
            ∧ Random.cursor (rng (noise_pixel mag i j img w).2)
              = (Random.cursor (rng w) + 2)%N).
Proof.
  intros Hmag. unfold noise_pixel. rewrite bind_run.
  pose proof (rand_rng Random.random w) as Hrng1.
  destruct (rand Random.random w) as [u w1]. cbn [fst snd] in *.
  assert (Random.draws (rng w1) = Random.draws (rng w)
          ∧ Random.cursor (rng w1) = (Random.cursor (rng w) + 1)%N) as [Hd1 Hc1].
  { rewrite Hrng1. unfold Random.random, Random.randbelow, Random.next. simpl.
    split; [reflexivity | lia]. }
  destruct (u <? 0.1)%float.
  - rewrite bind_run.
    pose proof (rand_rng (Random.randint (- mag) mag) w1) as Hrng2.
    pose proof (rand_fst (Random.randint (- mag) mag) w1) as Hfst.
    pose proof (randint_range (- mag) mag (rng w1) ltac:(lia)) as Hrange.
    destruct (rand (Random.randint (- mag) mag) w1) as [n w2]. cbn [fst snd] in *.
    assert (Random.draws (rng w2) = Random.draws (rng w1)
            ∧ Random.cursor (rng w2) = (Random.cursor (rng w1) + 1)%N) as [Hd2 Hc2].
    { rewrite Hrng2. unfold Random.randint, Random.randbelow, Random.next. simpl.
      split; [reflexivity | lia]. }
    destruct (getpixel img (i, j)) as [[r g] b] eqn:Hpixel. rewrite ret_run.
    cbn [fst snd]. split; [congruence|]. right. exists n.
    split; [lia|]. split; [reflexivity | lia].
  - rewrite ret_run. cbn [fst snd]. split; [exact Hd1|]. left. by split.
Qed.

Lemma scanned_start mag img w : scanned mag img w [] img w.
Proof.
  split; [reflexivity|]. exists []. split; [reflexivity|]. split; [constructor|].
  split; [constructor | simpl; lia].
Qed.

Lemma scanned_pixel mag img0 w0 visited i j img w :
  0 < mag → (i, j) ∉ visited →
  scanned mag img0 w0 visited img w →
  scanned mag img0 w0 (visited ++ [(i, j)])
    (noise_pixel mag i j img w).1 (noise_pixel mag i j img w).2.
Proof.
  intros Hmag Hfresh (Hdraws & writes & -> & Hsub & Hall & Hcursor).
  destruct (noise_pixel_exact mag i j (put_pixels img0 writes) w Hmag)
    as [Hd [[-> Hc] | (n & Hn & -> & Hc)]].
  - split; [congruence|]. exists writes. split; [reflexivity|].
    split; [by apply sublist_inserts_r|]. split; [exact Hall|].
    rewrite Hc, Hcursor, length_app. simpl. lia.
  - split; [congruence|].
    exists (writes ++ [((i, j), clamp_add (getpixel img0 (i, j)) n)])%list.
    split; [|split; [|split]].
    + rewrite put_pixels_snoc. simpl. rewrite getpixel_put_pixels; [reflexivity|].
      intros Hin. apply Hfresh. by eapply elem_of_sublist.
    + rewrite fmap_app. by apply sublist_app.
    + apply Forall_app. split; [exact Hall|]. constructor; [|constructor].
      by exists n.
    + rewrite Hc, Hcursor, !length_app. simpl. lia.
Qed.

Lemma not_elem_of_middle {A} (l1 l2 : list A) (x : A) :
  NoDup (l1 ++ x :: l2) → x ∉ l1.
Proof.
  intros (_ & Hdisjoint & _)%NoDup_app Hin. apply (Hdisjoint x Hin). by left.
Qed.

Lemma scan_fresh (h : Z) (columns rows : list Z) i j :
  i ∉ columns → j ∉ rows →
  (i, j) ∉ (concat ((fun i => (fun j => (i, j)) <$> range h) <$> columns)
              ++ ((fun j => (i, j)) <$> rows))%list.
Proof.
  intros Hi Hj [Hin | Hin]%elem_of_app.
  - apply list_elem_of_In, in_concat in Hin as (column & Hcolumn & Hin).
    apply list_elem_of_In, list_elem_of_fmap in Hcolumn as (i' & -> & Hi').
    apply list_elem_of_In, list_elem_of_fmap in Hin as (j' & Heq & _).
    injection Heq as -> _. by apply Hi.
  - apply list_elem_of_fmap in Hin as (j' & Heq & Hj').
    injection Heq as ->. by apply Hj.
Qed.

Lemma noise_loops_scanned mag img w :
  0 < mag →
  scanned mag img w (scan (size img))
    (for_each (range (width img)) (fun i img =>
       for_each (range (height img)) (fun j img => noise_pixel mag i j img) img)
       img w).1
    (for_each (range (width img)) (fun i img =>
       for_each (range (height img)) (fun j img => noise_pixel mag i j img) img)
       img w).2.
Proof.
  intros Hmag. unfold scan. fold (width img) (height img).
  apply (for_each_invariant_prefix
           (fun columns img1 w1 =>
              scanned mag img w
                (concat ((fun i => (fun j => (i, j)) <$> range (height img)) <$> columns))
                img1 w1)); [apply scanned_start|].
  intros columns i rest img1 w1 Hcolumns Hscanned.
  assert (height img1 = height img) as ->.
  { destruct Hscanned as (_ & writes & -> & _). unfold height.
    by rewrite size_put_pixels. }
  assert (i ∉ columns) as Hi.
  { eapply not_elem_of_middle. rewrite <- Hcolumns. apply NoDup_seqZ. }
  rewrite fmap_app, concat_app. simpl. rewrite app_nil_r.
  apply (for_each_invariant_prefix
           (fun rows img2 w2 =>
              scanned mag img w
                (concat ((fun i => (fun j => (i, j)) <$> range (height img)) <$> columns)
                   ++ ((fun j => (i, j)) <$> rows))
                img2 w2)); [by rewrite app_nil_r|].
  intros rows j rest' img2 w2 Hrows Hscanned2.
  rewrite fmap_app, app_assoc. simpl.
  apply scanned_pixel; [exact Hmag | | exact Hscanned2].
  apply scan_fresh; [exact Hi|].
  eapply not_elem_of_middle. rewrite <- Hrows. apply NoDup_seqZ.
Qed.

Lemma scan_in_bounds sz xy : xy ∈ scan sz → 0 ≤ xy.1 < sz.1 ∧ 0 ≤ xy.2 < sz.2.
Proof.
  unfold scan. intros Hin.
  apply list_elem_of_In, in_concat in Hin as (column & Hcolumn & Hin).
  apply list_elem_of_In, list_elem_of_fmap in Hcolumn as (i & -> & Hi).
  apply list_elem_of_In, list_elem_of_fmap in Hin as (j & -> & Hj).
  apply elem_of_seqZ in Hi, Hj. simpl. lia.
Qed.

Lemma scan_NoDup sz : NoDup (scan sz).
Proof.
  unfold scan. generalize (NoDup_seqZ 0 sz.1). unfold range.
  induction (seqZ 0 sz.1) as [|i columns IH]; intros Hdup; [constructor|].
  apply NoDup_cons in Hdup as [Hi Hdup]. simpl. apply NoDup_app.
  split; [|split; [|by apply IH]].
  - apply NoDup_fmap_2; [|apply NoDup_seqZ]. by intros j j' [=].
  - intros xy Hxy Hin.
    apply list_elem_of_fmap in Hxy as (j & -> & _).
    apply list_elem_of_In, in_concat in Hin as (column & Hcolumn & Hin).
    apply list_elem_of_In, list_elem_of_fmap in Hcolumn as (i' & -> & Hi').
    apply list_elem_of_In, list_elem_of_fmap in Hin as (j' & Heq & _).
    injection Heq as -> _. by apply Hi.
Qed.

Lemma scan_length sz : length (scan sz) = (Z.to_nat sz.1 * Z.to_nat sz.2)%nat.
Proof.
  unfold scan, range. rewrite <- (length_seqZ 0 sz.1).
  generalize (seqZ 0 sz.1). intros columns.
  induction columns as [|i columns IH]; [done|].
  cbn [fmap list_fmap concat length]. rewrite length_app, IH, length_fmap, length_seqZ.
  lia.
Qed.

(** [apply_quality], exactly: the blurred image, with some pixels of the
    scan replaced, then rotated; and the random draws it costs. *)
Lemma apply_quality_exact QS img quality w :
  let s := preset QS quality in
  let blurred := if (0 <? blur s)%float then GaussianBlur img (blur s) else img in
  ∃ (writes : list (point * pixel)) (sign : Z),
    (apply_quality QS img quality w).1 =
      (if 0 <? rotation s
       then Rotate (put_pixels blurred writes) (sign * rotation s) (255, 255, 255) true
       else put_pixels blurred writes)
    ∧ (sign = 1 ∨ sign = -1)
    ∧ writes.*1 `sublist_of` scan (size img)
    ∧ Forall (fun write =>
                ∃ n, - noise s ≤ n ≤ noise s
                     ∧ write.2 = clamp_add (getpixel blurred write.1) n) writes
    ∧ (noise s ≤ 0 → writes = [])
    ∧ Random.draws (rng (apply_quality QS img quality w).2) = Random.draws (rng w)
    ∧ Random.cursor (rng (apply_quality QS img quality w).2) =
        (Random.cursor (rng w)
           + (if (0 <? noise s)%Z
              then N.of_nat (length (scan (size img))) + N.of_nat (length writes)
              else 0)
           + (if (0 <? rotation s)%Z then 1 else 0))%N.
Proof.
  unfold apply_quality. fold (preset QS quality).
  set (s := preset QS quality). cbv zeta.
  set (blurred := if (0 <? blur s)%float then GaussianBlur img (blur s) else img).
  assert (size blurred = size img) as Hsize.
  { subst blurred. by destruct (0 <? blur s)%float. }
  match goal with |- context [mbind _ ?m] => set (noise_step := m) end.
  assert (scanned (noise s) blurred w
            (if 0 <? noise s then scan (size img) else [])
            (noise_step w).1 (noise_step w).2) as Hscanned.
  { subst noise_step. destruct (Z.ltb_spec 0 (noise s)) as [Hpos|_].
    - rewrite <- Hsize. by apply noise_loops_scanned.
    - apply scanned_start. }
  rewrite !bind_run. destruct (noise_step w) as [noised w1]. cbn [fst snd] in *.
  clearbody blurred. clear noise_step.
  destruct Hscanned as (Hdraws & writes & -> & Hsub & Hall & Hcursor).
  assert (writes.*1 `sublist_of` scan (size img)
          ∧ (noise s ≤ 0 → writes = [])
          ∧ Random.cursor (rng w1) =
              (Random.cursor (rng w)
                 + (if (0 <? noise s)%Z
                    then N.of_nat (length (scan (size img))) + N.of_nat (length writes)
                    else 0))%N) as (Hsub' & Hnone & Hcursor').
  { destruct (Z.ltb_spec 0 (noise s)) as [Hpos|Hle].
    - split; [exact Hsub|]. split; [lia|]. rewrite Hcursor. lia.
    - apply sublist_nil_r, fmap_nil_inv in Hsub. subst writes.
      split; [apply sublist_nil_l|]. split; [reflexivity|]. rewrite Hcursor. simpl. lia. }
  destruct (0 <? rotation s).
  - rewrite bind_run.
    pose proof (rand_rng (Random.choice (-1) [1]) w1) as Hrng.
    pose proof (rand_fst (Random.choice (-1) [1]) w1) as Hfst.
    pose proof (choice_sign (rng w1)) as Hsign.
    destruct (rand (Random.choice (-1) [1]) w1) as [sign w2]. cbn [fst snd] in *.
    rewrite <- Hfst in Hsign. rewrite ret_run. cbn [fst snd].
    exists writes, sign.
    split; [reflexivity|]. split; [exact Hsign|]. split; [exact Hsub'|].
    split; [exact Hall|]. split; [exact Hnone|].
    rewrite Hrng. unfold Random.choice, Random.randbelow, Random.next. simpl.
    split; [exact Hdraws | lia].
  - rewrite ret_run. cbn [fst snd]. exists writes, 1.
    split; [reflexivity|]. split; [by left|]. split; [exact Hsub'|].
    split; [exact Hall|]. split; [exact Hnone|]. split; [exact Hdraws | lia].
Qed.

(** X1: the noise loop writes only pixels of the image, each at most
    once, in the order of the scan, and each written value is the pixel of
    the blurred image at that place plus one offset within the preset's
    noise, the same for the three channels, clamped: a write never depends
    on an earlier write. *)
Theorem X1_noise_writes_in_place QS img quality w :
  let s := preset QS quality in
  let blurred := if (0 <? blur s)%float then GaussianBlur img (blur s) else img in
  ∃ (writes : list (point * pixel)) (sign : Z),
    (apply_quality QS img quality w).1 =
      (if 0 <? rotation s
       then Rotate (put_pixels blurred writes) (sign * rotation s) (255, 255, 255) true
       else put_pixels blurred writes)
    ∧ writes.*1 `sublist_of` scan (size img)
    ∧ NoDup writes.*1
    ∧ Forall (fun write => 0 ≤ write.1.1 < width img ∧ 0 ≤ write.1.2 < height img) writes
    ∧ Forall (fun write =>
                ∃ n, - noise s ≤ n ≤ noise s
                     ∧ write.2 = clamp_add (getpixel blurred write.1) n) writes.
Proof.
  destruct (apply_quality_exact QS img quality w)
    as (writes & sign & Hresult & _ & Hsub & Hall & _).
  exists writes, sign. split; [exact Hresult|]. split; [exact Hsub|].
  split; [eapply sublist_NoDup; [apply scan_NoDup | exact Hsub]|].
  split; [|exact Hall].
  apply Forall_forall. intros write Hwrite.
  apply (scan_in_bounds (size img)). eapply elem_of_sublist; [|exact Hsub].
  apply list_elem_of_fmap. by exists write.
Qed.

(** X3: blur and noise keep the size of the image: [apply_quality]
    returns an image of the size it was given whenever the preset has no
    rotation. *)
Theorem X3_size_kept_without_rotation QS img quality w :
  rotation (preset QS quality) ≤ 0 →
  size (apply_quality QS img quality w).1 = size img.
Proof.
  intros Hrotation.
  destruct (apply_quality_exact QS img quality w) as (writes & sign & -> & _).
  destruct (Z.ltb_spec 0 (rotation (preset QS quality))) as [|_]; [lia|].
  rewrite size_put_pixels. by destruct (0 <? blur _)%float.
Qed.

(** ** The drawing loop of the statement and its page limit *)

(** X4: the rows of a statement stop at the page limit.  For any list of
    transactions the loop draws a prefix of it, one row every 22 pixels; it
    goes on as long as the next row starts at most at [height - 80], and
    what it records as charitable entries are exactly the charitable rows it
    drew -- never a transaction that was cut off. *)
Theorem X4_rows_stop_at_the_page_limit height fnt txns img y entries :
  ∃ n : nat,
    let drawn := take n txns in
    let result := draw_transactions height fnt txns img y entries in
    (n ≤ length txns)%nat
    ∧ (n = length txns ∨ height - 80 < y + 22 * Z.of_nat n)
    ∧ (n = 0%nat ∨ y + 22 * (Z.of_nat n - 1) ≤ height - 80)
    ∧ texts result.1.1 = (texts img ++ concat (map row_texts drawn))%list
    ∧ result.1.2 = y + 22 * Z.of_nat n
    ∧ result.2 = (entries ++ charitable_entries drawn)%list.
Proof.
  revert img y entries. induction txns as [|t txns IH]; intros img y entries.
  - exists 0%nat. simpl. rewrite !app_nil_r.
    split; [lia|]. split; [by left|]. split; [by left|]. split; [done|].
    split; [lia | done].
  - cbn [draw_transactions].
    destruct (Z.ltb_spec (height - 80) y) as [Hbreak|Hfits].
    + exists 0%nat. simpl. rewrite !app_nil_r.
      split; [lia|]. split; [right; lia|]. split; [by left|]. split; [done|].
      split; [lia | done].
    + cbv zeta.
      match goal with
      | |- context [draw_transactions height fnt txns ?i ?y' ?e] =>
          destruct (IH i y' e) as (n & Hlen & Hstop & Hlast & Htexts & Hy & Hentries)
      end.
      cbv zeta in Htexts, Hy, Hentries.
      exists (S n). cbv zeta. rewrite Htexts, Hy, Hentries, !texts_Draw.
      cbn [take map concat length]. unfold charitable_entries.
      cbn [List.filter].
      split; [lia|]. split; [destruct Hstop; [left | right]; lia|].
      split; [right; destruct Hlast; lia|].
      split; [by rewrite <- !app_assoc|]. split; [lia|].
      destruct (txn_charitable t); [|done].
      cbn [map]. by rewrite <- app_assoc.
Qed.

(** ** Sampling without replacement *)

(** One step of the selection loop keeps the candidates: the first [n]
    entries of the pool are the entry picked and the first [n - 1] entries
    of the updated pool. *)
Lemma sample_step_pool {A} (pool : list A) (n j : nat) (x y : A) :
  (j < S n)%nat → pool !! j = Some x → pool !! n = Some y →
  take (S n) pool ≡ₚ x :: take n (<[j := y]> pool).
Proof.
  intros Hj Hx Hy. rewrite (take_S_r pool n y Hy).
  destruct (decide (j = n)) as [->|Hne].
  - assert (x = y) as -> by congruence.
    rewrite (list_insert_id pool n y Hy). by rewrite Permutation_app_comm.
  - rewrite take_insert_lt by lia.
    assert (take n pool !! j = Some x) as Hlookup by (rewrite lookup_take_lt; [done | lia]).
    rewrite insert_take_drop by (apply lookup_lt_Some in Hlookup; lia).
    rewrite <- (take_drop_middle (take n pool) j x Hlookup) at 1.
    rewrite <- app_assoc. simpl.
    rewrite <- !Permutation_middle. f_equiv.
    rewrite app_assoc. by rewrite Permutation_app_comm.
Qed.

Lemma sample_loop_distinct {A} (d : A) pool (n k : nat) s :
  (k ≤ n ≤ length pool)%nat → NoDup (take n pool) →
  NoDup (Random.sample_loop d pool n k s).1
  ∧ (Random.sample_loop d pool n k s).1 ⊆ take n pool.
Proof.
  revert pool n s. induction k as [|k IH]; intros pool n s Hn Hdup.
  - simpl. split; [constructor | set_solver].
  - destruct n as [|n]; [lia|]. cbn [Random.sample_loop].
    pose proof (randbelow_range (Z.of_nat (S n)) s ltac:(lia)) as Hj.
    destruct (Random.randbelow (Z.of_nat (S n)) s) as [j s1]. cbn [fst] in Hj.
    replace (S n - 1)%nat with n by lia.
    destruct (lookup_lt_is_Some_2 pool (Z.to_nat j) ltac:(lia)) as [x Hx].
    destruct (lookup_lt_is_Some_2 pool n ltac:(lia)) as [y Hy].
    rewrite (nth_lookup_Some _ _ d x Hx), (nth_lookup_Some _ _ d y Hy).
    pose proof (sample_step_pool pool n (Z.to_nat j) x y ltac:(lia) Hx Hy) as Hperm.
    rewrite Hperm in Hdup. apply NoDup_cons in Hdup as [Hfresh Hdup].
    destruct (IH (<[Z.to_nat j := y]> pool) n s1) as [Hrest Hsub];
      [rewrite length_insert; lia | exact Hdup |].
    destruct (Random.sample_loop d (<[Z.to_nat j := y]> pool) n k s1) as [rest s2].
    cbn [fst] in *. split.
    + constructor; [|exact Hrest]. intros Hin. apply Hfresh. by apply Hsub.
    + intros z Hz. rewrite Hperm. apply elem_of_cons in Hz as [->|Hz]; [by left|].
      right. by apply Hsub.
Qed.

Lemma organizations_distinct : NoDup ORGANIZATIONS.
Proof.
  apply (NoDup_fmap_1 org_short). apply distinct_NoDup. reflexivity.
Qed.

Lemma sample_organizations_distinct k s :
  0 ≤ k ≤ 8 →
  NoDup (Random.sample (hd inhabitant ORGANIZATIONS) (tl ORGANIZATIONS) k s).1.
Proof.
  intros Hk. unfold Random.sample.
  apply sample_loop_distinct.
  - simpl. lia.
  - change (hd inhabitant ORGANIZATIONS :: tl ORGANIZATIONS) with ORGANIZATIONS.
    rewrite firstn_all. apply organizations_distinct.
Qed.

(** ** The rows of a statement, in order *)

Lemma closing_balance_snoc opening rows t :
  closing_balance opening (rows ++ [t]) = txn_balance t.
Proof. unfold closing_balance. by rewrite last_snoc. Qed.

Lemma closing_balance_cons opening t rows :
  closing_balance opening (t :: rows) = closing_balance (txn_balance t) rows.
Proof.
  destruct rows as [|u rows]; [reflexivity|].
  unfold closing_balance. rewrite last_cons_cons.
  destruct (last (u :: rows)) eqn:Hlast; [reflexivity|].
  by apply last_None in Hlast.
Qed.

Lemma running_balance_app opening rows more :
  running_balance opening rows →
  running_balance (closing_balance opening rows) more →
  running_balance opening (rows ++ more).
Proof.
  revert opening. induction rows as [|t rows IH]; intros opening; [by intros _|].
  intros [Ht Hrows] Hmore. split; [exact Ht|]. apply IH; [exact Hrows|].
  by rewrite <- (closing_balance_cons opening).
Qed.

Lemma running_balance_snoc opening rows t :
  running_balance opening rows →
  txn_balance t = (closing_balance opening rows + txn_amount t)%float →
  running_balance opening (rows ++ [t]).
Proof.
  intros Hrows Ht. apply running_balance_app; [exact Hrows|]. by split.
Qed.

Lemma choice_elem_of {A} (x : A) (xs : list A) s :
  (Random.choice x xs s).1 ∈ x :: xs.
Proof.
  unfold Random.choice, Random.randbelow.
  destruct (Random.next s) as [r s']. cbn [fst].
  destruct (nth_in_or_default (Z.to_nat (r mod Z.of_nat (length (x :: xs)))) (x :: xs) x)
    as [Hin | ->]; [by apply list_elem_of_In|by left].
Qed.

Lemma rows_in_order_loop {A} (good : A → txn → Prop)
    (body : A → gen_state → M gen_state) xs txns0 balance0 start w :
  appends_dated_row good body →
  739252 ≤ Datetime.toordinal start →
  Datetime.toordinal start + 5 * Z.of_nat (length xs) ≤ 739700 →
  rows_in_order good start balance0 txns0 xs
    (for_each xs body (txns0, balance0, start) w).1.
Proof.
  intros Hbody Hlow Hhigh.
  apply (for_each_invariant_prefix
           (fun done st _ => rows_in_order good start balance0 txns0 done st)).
  - exists []. rewrite app_nil_r. simpl.
    split; [done|]. split; [done|]. split; [done|].
    split; [constructor|]. split; [repeat constructor|].
    split; [constructor|]. split; [lia|]. split; [lia|]. by split.
  - intros done x rest [[txns balance] current] w' Hxs
      (new & Hnew & Hclosing & Hrunning & Hgood & Hsorted & Hfrom & Hmin & Hmax & Hhead
       & Hfirst).
    cbn [fst snd] in *.
    destruct (Hbody x txns balance current w')
      as (t & days & Ht & Hb & Hc & Hdate & Hbalance & Hdays & Hx).
    assert (length xs = (length done + S (length rest))%nat) as Hlen
      by (rewrite Hxs, length_app; simpl; lia).
    assert (Datetime.toordinal (Datetime.add_days current days)
            = Datetime.toordinal current + days) as Hshift.
    { unfold Datetime.add_days. rewrite ordinal_roundtrip; lia. }
    exists (new ++ [t])%list. rewrite Ht, Hb, Hc, Hnew, Hshift, length_app. simpl.
    split; [by rewrite app_assoc|].
    split; [by rewrite closing_balance_snoc|].
    split; [apply running_balance_snoc; [exact Hrunning | by rewrite <- Hclosing]|].
    split; [apply Forall2_app; by repeat constructor|].
    assert (ordinal_of t = Datetime.toordinal current) as Hord
      by (unfold ordinal_of; by rewrite Hdate).
    split; [|split; [|split; [lia|split; [lia|split]]]].
    + rewrite fmap_app. simpl. rewrite Hord.
      apply StronglySorted_app_2; [|exact Hsorted|repeat constructor].
      intros x1 x2 Hx1 ->%list_elem_of_singleton.
      apply elem_of_app in Hx1 as [Hx1 | ->%list_elem_of_singleton]; [|lia].
      pose proof (StronglySorted_app_1_elem_of _ _ _ x1 (Datetime.toordinal current)
                    Hsorted Hx1 ltac:(by left)).
      lia.
    + apply Forall_app. split; [|constructor; [|constructor]; lia].
      eapply Forall_impl; [exact Hfrom|]. intros u Hu. cbv beta in Hu. lia.
    + destruct done as [|x0 done].
      * apply Forall2_nil_inv_l in Hgood as ->. simpl. by rewrite Hdate, Hfirst.
      * destruct new as [|t0 new]; [by apply Forall2_nil_inv_r in Hgood|exact Hhead].
    + intros Hnil. by destruct done.
Qed.

Lemma regular_transaction_dated : appends_dated_row regular_row regular_transaction.
Proof.
  intros i txns balance current w. unfold regular_transaction. cbv beta iota zeta.
  run_bind x w1 Hx.
  pose proof (rand_fst (Random.choice "GROCERY STORE"
                          ["GAS STATION"; "RESTAURANT"; "ONLINE PURCHASE"]) w1) as Hchoice.
  pose proof (choice_elem_of "GROCERY STORE"
                ["GAS STATION"; "RESTAURANT"; "ONLINE PURCHASE"] (rng w1)) as Hin.
  run_bind desc w2 Hdesc. cbn [fst] in Hchoice. rewrite <- Hchoice in Hin.
  pose proof (rand_fst (Random.randint 1 5) w2) as Hdays.
  pose proof (randint_range 1 5 (rng w2) ltac:(lia)) as Hrange.
  run_bind days w3 Hdays3. cbn [fst] in Hdays. rewrite <- Hdays in Hrange.
  rewrite ret_run. cbn [fst snd].
  eexists _, days. split; [reflexivity|]. split; [reflexivity|]. split; [reflexivity|].
  split; [reflexivity|]. split; [reflexivity|].
  split; [exact Hrange|]. by repeat split.
Qed.

Lemma random_amount_fst a b w :
  (random_amount a b w).1 = Float.round2 (Random.uniform a b (rng w)).1.
Proof.
  unfold random_amount. rewrite bind_run, ret_run. cbn [fst]. by rewrite rand_fst.
Qed.

Lemma charitable_transaction_dated :
  appends_dated_row donation_row charitable_transaction.
Proof.
  intros org txns balance current w. unfold charitable_transaction. cbv beta iota zeta.
  pose proof (random_amount_fst 50 500 w) as Hamount.
  run_bind x w1 Hx. cbn [fst] in Hamount.
  pose proof (rand_fst (Random.randint 1 5) w1) as Hdays.
  pose proof (randint_range 1 5 (rng w1) ltac:(lia)) as Hrange.
  run_bind days w2 Hdays2. cbn [fst] in Hdays. rewrite <- Hdays in Hrange.
  rewrite ret_run. cbn [fst snd].
  eexists _, days. split; [reflexivity|]. split; [reflexivity|]. split; [reflexivity|].
  split; [reflexivity|]. split; [reflexivity|].
  split; [exact Hrange|]. split; [done|]. split; [done|]. split; [done|].
  exists (rng w). cbn [txn_amount]. by rewrite Hamount.
Qed.

Lemma insert_by_date_last t l :
  Forall (fun u => ordinal_of u ≤ ordinal_of t) l → insert_by_date t l = (l ++ [t])%list.
Proof.
  induction 1 as [|u l Hu Hl IH]; [done|]. simpl. fold (ordinal_of t) (ordinal_of u).
  destruct (Z.ltb_spec (ordinal_of t) (ordinal_of u)); [lia|]. by rewrite IH.
Qed.

(** Rows on increasing days are already in the order the sort gives. *)
Lemma sort_by_date_sorted l :
  StronglySorted Z.lt (ordinal_of <$> l) → sort_by_date l = l.
Proof.
  unfold sort_by_date.
  assert (∀ acc, StronglySorted Z.lt (ordinal_of <$> (acc ++ l)%list) →
            fold_left (fun sorted t => insert_by_date t sorted) l acc = (acc ++ l)%list)
    as Hgen.
  { induction l as [|t l IH]; intros acc Hsorted; [by rewrite app_nil_r|].
    simpl. rewrite insert_by_date_last.
    - rewrite IH; [by rewrite <- app_assoc|]. by rewrite <- app_assoc.
    - rewrite fmap_app in Hsorted. apply Forall_forall. intros u Hu.
      pose proof (StronglySorted_app_1_elem_of _ _ _ (ordinal_of u) (ordinal_of t)
                    Hsorted) as Hlt.
      apply Z.lt_le_incl, Hlt; [by apply list_elem_of_fmap_2 | by left]. }
  intros Hsorted. by apply (Hgen []).
Qed.

Lemma charitable_entries_rows regular donations :
  Forall (fun t => txn_charitable t = false) regular →
  Forall (fun t => txn_charitable t = true) donations →
  charitable_entries (regular ++ donations) = charitable_entry <$> donations.
Proof.
  intros Hfalse Htrue. unfold charitable_entries. rewrite List.filter_app.
  replace (List.filter txn_charitable regular) with (@nil txn).
  - simpl. f_equal. induction Htrue as [|t l Ht _ IH]; [done|]. simpl. by rewrite Ht, IH.
  - induction Hfalse as [|t l Ht _ IH]; [done|]. simpl. by rewrite Ht.
Qed.

(** The statement renderer, with its rows in the order of generation. *)
Lemma generate_bank_statement_rows QS bank quality index entries w :
  ∃ n start_date regular orgs donations canvas w1,
    let filename := document_filename "bank_statement" (bank_short bank) quality index in
    let end_date := Datetime.add_days start_date 30 in
    let rows := (regular ++ donations)%list in
    (generate_bank_statement QS bank quality index entries w).1 =
      (filename,
       (entries ++ [manifest_record ("bank_statements/" +:+ filename)
                      "bank_statement" quality [
          ("bank_name", JString (bank_name bank));
          ("account_number", JString ("***" +:+ Str.of_Z n));
          ("statement_period_start", JString (Datetime.strftime_Y_m_d start_date));
          ("statement_period_end", JString (Datetime.strftime_Y_m_d end_date));
          ("charitable_transactions", JList (charitable_entry <$> donations))
        ]])%list)
    ∧ rendered QS quality (path_join (path_join OUTPUT_DIR "bank_statements") filename)
        canvas w w1 (generate_bank_statement QS bank quality index entries w).2
    ∧ 1000 ≤ n ≤ 9999
    ∧ sampled_date start_date
    ∧ (3 ≤ length regular ≤ 5)%nat
    ∧ (2 ≤ length donations ≤ 3)%nat
    ∧ Forall (regular_row 0) regular
    ∧ running_balance
        (Random.uniform 5000 15000
           (Random.mk (Random.draws (rng w)) (Random.cursor (rng w) + 2))).1 rows
    ∧ NoDup orgs
    ∧ orgs ⊆ ORGANIZATIONS
    ∧ Forall2 donation_row orgs donations
    ∧ StronglySorted Z.lt (ordinal_of <$> rows)
    ∧ Forall (fun t => Datetime.toordinal start_date ≤ ordinal_of t
                       ≤ Datetime.toordinal start_date + 35) rows
    ∧ Forall (fun t => Datetime.toordinal start_date + Z.of_nat (length regular)
                       ≤ ordinal_of t) donations
    ∧ (txn_date <$> head rows) = Some start_date
    ∧ texts canvas =
        ([ bank_name bank; "Account Statement";
           "Account: " +:+ "***" +:+ Str.of_Z n; "Statement Period:";
           "Primary Checking";
           Datetime.strftime_m_d_Y start_date +:+ " - "
             +:+ Datetime.strftime_m_d_Y end_date;
           "Date"; "Description"; "Amount"; "Balance" ]
         ++ concat (map row_texts rows)
         ++ [ "Page 1 of 1" ])%list.
Proof.
  unfold generate_bank_statement. cbv beta iota zeta.
  pose proof (pure_random_rand (Random.randint 1000 9999) w) as Hw1.
  pose proof (rand_fst (Random.randint 1000 9999) w) as Hn.
  pose proof (randint_range 1000 9999 (rng w) ltac:(lia)) as Hnrange.
  run_bind n w1 Hn1. cbn [fst snd] in Hw1, Hn. rewrite <- Hn in Hnrange.
  pose proof (pure_random_random_date 2025 w1) as Hw2.
  pose proof (random_date_sampled w1) as Hsampled.
  run_bind start_date w2 Hdate. cbn [fst snd] in Hw2, Hsampled.
  pose proof (sampled_date_ordinal _ Hsampled) as Hstart.
  pose proof (pure_random_rand (Random.uniform 5000 15000) w2) as Hw3.
  run_bind balance w3 Hbalance. cbn [fst snd] in Hw3.
  pose proof (pure_random_rand (Random.randint 3 5) w3) as Hw4.
  pose proof (rand_fst (Random.randint 3 5) w3) as Hcount.
  pose proof (randint_range 3 5 (rng w3) ltac:(lia)) as Hcrange.
  run_bind count w4 Hcount4. cbn [fst snd] in Hw4, Hcount. rewrite <- Hcount in Hcrange.
  pose proof (regular_transactions_loop (range count) ([], balance, start_date) w4)
    as [Hw5 _].
  pose proof (rows_in_order_loop regular_row regular_transaction (range count) []
                balance start_date w4 regular_transaction_dated) as Hregular.
  unfold range in Hregular at 1 2. rewrite length_seqZ in Hregular.
  specialize (Hregular ltac:(lia) ltac:(lia)).
  run_bind st w5 Hst. cbn [fst snd] in Hw5, Hregular.
  destruct st as [[regular balance1] current1].
  destruct Hregular as (regular' & Hreg & Hclosing1 & Hrunning1 & Hgood1 & Hsorted1
                          & Hfrom1 & Hmin1 & Hmax1 & Hhead1 & _).
  cbn [fst snd] in Hreg, Hclosing1, Hsorted1, Hmin1, Hmax1. simpl in Hreg. subst regular'.
  pose proof (Forall2_length _ _ _ Hgood1) as Hrlen.
  unfold range in Hrlen, Hmin1, Hmax1, Hhead1. rewrite length_seqZ in Hrlen, Hmin1, Hmax1.
  pose proof (pure_random_rand (Random.randint 2 3) w5) as Hw6.
  pose proof (rand_fst (Random.randint 2 3) w5) as Hk.
  pose proof (randint_range 2 3 (rng w5) ltac:(lia)) as Hkrange.
  run_bind k w6 Hk6. cbn [fst snd] in Hw6, Hk. rewrite <- Hk in Hkrange.
  pose proof (pure_random_rand
    (Random.sample (hd inhabitant ORGANIZATIONS) (tl ORGANIZATIONS) k) w6) as Hw7.
  pose proof (rand_fst
    (Random.sample (hd inhabitant ORGANIZATIONS) (tl ORGANIZATIONS) k) w6) as Horgs.
  pose proof (sample_organizations k (rng w6) ltac:(lia)) as [Holen Hoall].
  pose proof (sample_organizations_distinct k (rng w6) ltac:(lia)) as Hodup.
  run_bind orgs w7 Horgs7. cbn [fst snd] in Hw7, Horgs.
  rewrite <- Horgs in Holen, Hoall, Hodup.
  pose proof (charitable_transactions_loop orgs (regular, balance1, current1) w7 Hoall)
    as [Hw8 _].
  pose proof (rows_in_order_loop donation_row charitable_transaction orgs regular
                balance1 current1 w7 charitable_transaction_dated
                ltac:(lia) ltac:(lia)) as Hdonations.
  run_bind st' w8 Hst'. cbn [fst snd] in Hw8, Hdonations.
  destruct st' as [[transactions balance2] current2].
  destruct Hdonations as (donations & Hrows & Hclosing2 & Hrunning2 & Hgood2 & Hsorted2
                            & Hfrom2 & Hmin2 & Hmax2 & Hhead2 & _).
  cbn [fst snd] in Hrows, Hsorted2, Hmin2, Hmax2. subst transactions.
  pose proof (Forall2_length _ _ _ Hgood2) as Hdlen.
  (* the rows are in date order already *)
  assert (StronglySorted Z.lt (ordinal_of <$> (regular ++ donations)%list)) as Hsorted.
  { rewrite fmap_app. apply StronglySorted_app_2.
    - intros x1 x2 Hx1 Hx2.
      pose proof (StronglySorted_app_1_elem_of _ _ _ x1 (Datetime.toordinal current1)
                    Hsorted1 Hx1 ltac:(by left)) as Hlt.
      apply list_elem_of_fmap in Hx2 as (t & -> & Ht).
      rewrite Forall_forall in Hfrom2. specialize (Hfrom2 t Ht). cbv beta in Hfrom2. lia.
    - by apply StronglySorted_app_1_l in Hsorted1.
    - by apply StronglySorted_app_1_l in Hsorted2. }
  rewrite (sort_by_date_sorted _ Hsorted).
  match goal with
  | |- context [draw_transactions ?h ?f ?l ?i ?y ?e] =>
      destruct (draw_transactions_all h f l i y e) as (Htexts & Hentries & Hdrawn);
      [ rewrite length_app; lia |];
      destruct (draw_transactions h f l i y e) as [[img y'] charitable_entries'] eqn:Hdraw
  end.
  cbn [fst snd] in Htexts, Hentries, Hdrawn.
  assert (Forall (regular_row 0) regular) as Hreg.
  { eapply Forall2_Forall_r; [exact Hgood1|]. apply Forall_forall. by intros. }
  rewrite charitable_entries_rows in Hentries;
    [| eapply Forall_impl; [exact Hreg | by intros ? [? ?]]
     | eapply Forall2_Forall_r; [exact Hgood2 | apply Forall_forall; by intros ? ? ? [? ?]]].
  rewrite bind_run, bind_run, ret_run. cbn [fst snd].
  eexists n, start_date, regular, orgs, donations, _, w8.
  cbv zeta. rewrite Hentries. cbn [app].
  split; [reflexivity|].
  split; [apply rendered_world;
            [repeat (eapply only_rng_trans; [|eassumption]); apply only_rng_refl
            | simpl; exact Hdrawn]|].
  split; [exact Hnrange|]. split; [exact Hsampled|].
  split; [lia|]. split; [lia|]. split; [exact Hreg|].
  split.
  { assert (rng w2 = Random.mk (Random.draws (rng w)) (Random.cursor (rng w) + 2)) as <-.
    { replace w2 with (random_date 2025 w1).2 by (by rewrite Hdate).
      replace w1 with (rand (Random.randint 1000 9999) w).2 by (by rewrite Hn1).
      unfold random_date. cbv zeta. rewrite bind_run, ret_run. cbn [snd].
      rewrite !rand_rng, !randint_state. cbn [Random.draws Random.cursor].
      f_equal. lia. }
    rewrite <- (rand_fst (Random.uniform 5000 15000) w2), Hbalance. cbn [fst].
    apply running_balance_app; [exact Hrunning1 | by rewrite <- Hclosing1]. }
  split; [exact Hodup|].
  split; [intros org Horg; rewrite Forall_forall in Hoall; by apply Hoall|].
  split; [exact Hgood2|]. split; [exact Hsorted|].
  split; [|split; [|split]].
  - apply Forall_app. split.
    + eapply Forall_impl; [exact Hfrom1|]. intros t Ht. cbv beta in Ht.
      unfold range in Ht. rewrite length_seqZ in Ht. lia.
    + eapply Forall_impl; [exact Hfrom2|]. intros t Ht. cbv beta in Ht. lia.
  - eapply Forall_impl; [exact Hfrom2|]. intros t Ht. cbv beta in Ht. lia.
  - destruct regular as [|t regular]; [simpl in Hrlen; lia|].
    simpl in Hhead1 |- *. rewrite Hhead1.
    destruct (seqZ 0 count) eqn:Hseq; [|done].
    apply (f_equal length) in Hseq. rewrite length_seqZ in Hseq. simpl in Hseq. lia.
  - rewrite !texts_Draw, Htexts, !texts_Draw. cbn [app].
    unfold texts at 1. cbn [ops history omap list_omap].
    rewrite <- !app_assoc. reflexivity.
Qed.

Lemma organization_names_injective org1 org2 :
  org1 ∈ ORGANIZATIONS → org2 ∈ ORGANIZATIONS → org_name org1 = org_name org2 → org1 = org2.
Proof.
  intros H1 H2. unfold ORGANIZATIONS in H1, H2.
  repeat (apply elem_of_cons in H1 as [-> | H1]);
    [ .. | by apply elem_of_nil in H1 ];
    (repeat (apply elem_of_cons in H2 as [-> | H2]);
       [ .. | by apply elem_of_nil in H2 ]);
    first [ reflexivity | intros Hname; discriminate Hname ].
Qed.

(** ** The description column *)

Lemma take_short n s : (String.length s ≤ n)%nat → Str.take n s = s.
Proof.
  unfold Str.take. revert n. induction s as [|c s IH]; intros n Hn.
  - by destruct n.
  - destruct n as [|n]; [simpl in Hn; lia|]. simpl. rewrite IH; [done|]. simpl in Hn. lia.
Qed.

Lemma length_take n s : (String.length (Str.take n s) ≤ n)%nat.
Proof.
  unfold Str.take. revert n. induction s as [|c s IH]; intros n.
  - destruct n; simpl; lia.
  - destruct n as [|n]; simpl; [lia|]. specialize (IH n). lia.
Qed.

Lemma length_upper s : String.length (Str.upper s) = String.length s.
Proof. induction s as [|c s IH]; [done|]. simpl. by rewrite IH. Qed.

Lemma donation_description_length name :
  (String.length ("DONATION " +:+ Str.upper (Str.take 20 name)) ≤ 29)%nat.
Proof.
  change (S (S (S (S (S (S (S (S (S (String.length (Str.upper (Str.take 20 name)))))))))))
            ≤ 29)%nat.
  rewrite length_upper. pose proof (length_take 20 name). lia.
Qed.

(** X7: the description column of a bank statement is never cut by its
    limit of 35 characters: an everyday purchase shows one of four fixed
    words, a donation shows DONATION and the name of the organization in
    upper case, the name cut after 20 characters, so at most 29 characters
    in all.  An organization whose name has at most 20 characters is shown
    with its whole name. *)
Theorem X7_descriptions_fit_the_column QS bank quality index entries w :
  ∃ header regular orgs donations canvas w1,
    let filename := document_filename "bank_statement" (bank_short bank) quality index in
    let rows := (regular ++ donations)%list in
    rendered QS quality (path_join (path_join OUTPUT_DIR "bank_statements") filename)
      canvas w w1 (generate_bank_statement QS bank quality index entries w).2
    ∧ texts canvas =
        (header
           ++ concat (map (fun t => [ Datetime.strftime_m_d (txn_date t);
                                      txn_desc t;
                                      "$" +:+ Float.format_comma_2f (txn_amount t);
                                      "$" +:+ Float.format_comma_2f (txn_balance t) ])
                        rows)
           ++ [ "Page 1 of 1" ])%list
    ∧ length header = 10%nat
    ∧ Forall (fun t => txn_desc t ∈ ["GROCERY STORE"; "GAS STATION"; "RESTAURANT";
                                     "ONLINE PURCHASE"]) regular
    ∧ Forall2 (fun org t =>
                 txn_desc t = "DONATION " +:+ Str.upper (Str.take 20 (org_name org))
                 ∧ (String.length (txn_desc t) ≤ 29)%nat
                 ∧ ((String.length (org_name org) ≤ 20)%nat →
                    txn_desc t = "DONATION " +:+ Str.upper (org_name org)))
        orgs donations.
Proof.
  destruct (generate_bank_statement_rows QS bank quality index entries w)
    as (n & start_date & regular & orgs & donations & canvas & w1 & _ & Hrendered & _ & _
        & _ & _ & Hplain & _ & _ & _ & Hgood & _ & _ & _ & _ & Htexts).
  eexists _, regular, orgs, donations, canvas, w1. cbv zeta.
  assert (Forall (fun t => Str.take 35 (txn_desc t) = txn_desc t) (regular ++ donations))
    as Hfit.
  { apply Forall_app. split.
    - eapply Forall_impl; [exact Hplain|]. intros t (_ & _ & Hdesc). apply take_short.
      repeat (apply elem_of_cons in Hdesc as [-> | Hdesc]; [simpl; lia|]).
      by apply elem_of_nil in Hdesc.
    - eapply Forall2_Forall_r; [exact Hgood|]. apply Forall_forall.
      intros org _ t (_ & _ & -> & _). apply take_short.
      pose proof (donation_description_length (org_name org)). lia. }
  split; [exact Hrendered|].
  split; [|split; [|split]].
  - rewrite Htexts. f_equal. f_equal. f_equal. clear -Hfit.
    induction Hfit as [|t rows Ht _ IH]; [done|].
    cbn [map]. rewrite IH. unfold row_texts. by rewrite Ht.
  - reflexivity.
  - eapply Forall_impl; [exact Hplain|]. by intros t (_ & _ & Hdesc).
  - eapply Forall2_impl; [exact Hgood|]. intros org t (_ & _ & Hdesc & _).
    split; [exact Hdesc|]. split.
    + rewrite Hdesc. apply donation_description_length.
    + intros Hshort. by rewrite Hdesc, take_short.
Qed.

(** ** The console and the directories *)

Lemma rendered_quiet QS quality path canvas w w1 w' :
  rendered QS quality path canvas w w1 w' → quiet w w'.
Proof. intros (_ & _ & ->). by split. Qed.

Lemma receipt_quiet QS org quality index entries w :
  quiet w (generate_receipt QS org quality index entries w).2
  ∧ length (generate_receipt QS org quality index entries w).1.2 = S (length entries).
Proof.
  destruct (generate_receipt_spec QS org quality index entries w)
    as (? & ? & ? & canvas & w1 & Hres & Hrendered & _).
  cbv zeta in Hres. rewrite Hres. cbn [fst snd].
  split; [by eapply rendered_quiet|]. rewrite length_app. simpl. lia.
Qed.

Lemma letter_quiet QS org quality index entries w :
  quiet w (generate_acknowledgment_letter QS org quality index entries w).2
  ∧ length (generate_acknowledgment_letter QS org quality index entries w).1.2
    = S (length entries).
Proof.
  destruct (generate_acknowledgment_letter_spec QS org quality index entries w)
    as (? & ? & ? & canvas & w1 & Hres & Hrendered & _).
  cbv zeta in Hres. rewrite Hres. cbn [fst snd].
  split; [by eapply rendered_quiet|]. rewrite length_app. simpl. lia.
Qed.

Lemma statement_quiet QS bank quality index entries w :
  quiet w (generate_bank_statement QS bank quality index entries w).2
  ∧ length (generate_bank_statement QS bank quality index entries w).1.2
    = S (length entries).
Proof.
  destruct (generate_bank_statement_spec QS bank quality index entries w)
    as (? & ? & ? & canvas & w1 & Hres & Hrendered & _).
  cbv zeta in Hres. rewrite Hres. cbn [fst snd].
  split; [by eapply rendered_quiet|]. rewrite length_app. simpl. lia.
Qed.

(** A loop of [main] counts its documents and is silent. *)
Lemma documents_loop_quiet
    (render : Z → string → Z → list json → M (string * list json)) xs :
  (∀ i quality n entries w,
     quiet w (render i quality n entries w).2
     ∧ length (render i quality n entries w).1.2 = S (length entries)) →
  ∀ (st : main_state) w0,
    let loop :=
      for_each xs
        (fun '(i, quality) '((count, manifest_entries) : main_state) =>
           '(_, manifest_entries) ← render i quality (count + 1) manifest_entries;
           mret (count + 1, manifest_entries))
        st in
    (loop w0).1.1 = st.1 + Z.of_nat (length xs)
    ∧ length (loop w0).1.2 = (length st.2 + length xs)%nat
    ∧ quiet w0 (loop w0).2.
Proof.
  intros Hrender. induction xs as [|[i quality] xs IH]; intros [count entries] w0 loop.
  - subst loop. simpl. split; [lia|]. split; [lia|]. by split.
  - subst loop. rewrite for_each_cons. rewrite bind_run.
    destruct (Hrender i quality (count + 1) entries w0) as [[Hd Hs] Hlen].
    destruct (render i quality (count + 1) entries w0) as [[name entries'] w1].
    cbn [fst snd] in *. rewrite ret_run. cbn [fst snd].
    destruct (IH (count + 1, entries') w1) as (Hcount & Hentries & Hd' & Hs').
    cbn [fst snd] in Hcount, Hentries.
    rewrite Hcount, Hentries, Hlen. simpl length.
    split; [lia|]. split; [lia|]. split; congruence.
Qed.

Lemma makedirs_loop_dirs subdirs w :
  let w' := (for_each subdirs
               (fun subdir (_ : unit) => makedirs (path_join OUTPUT_DIR subdir)) tt w).2 in
  dirs w' = (dirs w ++ (path_join OUTPUT_DIR <$> subdirs))%list ∧ stdout w' = stdout w.
Proof.
  revert w. induction subdirs as [|subdir subdirs IH]; intros w; cbv zeta.
  - simpl. by rewrite app_nil_r.
  - rewrite for_each_cons. destruct (IH (makedirs (path_join OUTPUT_DIR subdir) w).2)
      as [Hd Hs].
    split; [etransitivity; [exact Hd|] | etransitivity; [exact Hs|]]; unfold makedirs;
      cbn [fst snd dirs stdout fmap list_fmap]; by rewrite <- ?app_assoc.
Qed.

Lemma print_console line w :
  stdout (print line w).2 = (stdout w ++ [line])%list ∧ dirs (print line w).2 = dirs w.
Proof. by split. Qed.

Lemma main_console QS w :
  stdout (main QS w).2 =
    (stdout w ++ [
       "Generating OCR test documents...";
       "Generating receipts...";
       "  Generated 30 receipts";
       "Generating acknowledgment letters...";
       "  Generated 20 acknowledgment letters";
       "Generating bank statements...";
       "  Generated 15 bank statements";
       String "010"%char "Generated 65 total documents";
       "Manifest saved to " +:+ MANIFEST_PATH ])%list
  ∧ dirs (main QS w).2 = (dirs w ++ created_directories)%list.
Proof.
  unfold main. cbv zeta.
  pose proof (print_console "Generating OCR test documents..." w) as [Hs1 Hd1].
  run_bind u1 w1 H1. cbn [snd] in Hs1, Hd1. clear H1.
  lazymatch goal with
  | |- context [for_each ?subdirs _ tt] =>
      pose proof (makedirs_loop_dirs subdirs w1) as [Hd2 Hs2]
  end.
  run_bind u2 w2 H2. cbn [snd] in Hd2, Hs2. clear H2.
  pose proof (print_console "Generating receipts..." w2) as [Hs3 Hd3].
  run_bind u3 w3 H3. cbn [snd] in Hs3, Hd3. clear H3.
  (* receipts *)
  lazymatch goal with
  | |- context [mbind _ (for_each ?xs ?body ?st) w3] =>
      assert ((for_each xs body st w3).1.1 = st.1 + Z.of_nat (length xs)
              ∧ length (for_each xs body st w3).1.2 = (length st.2 + length xs)%nat
              ∧ quiet w3 (for_each xs body st w3).2) as Hloop1
        by exact (documents_loop_quiet
                    (fun i quality => generate_receipt QS (cyclic ORGANIZATIONS i) quality)
                    xs (fun i quality n entries w0 =>
                       receipt_quiet QS (cyclic ORGANIZATIONS i) quality n entries w0) st w3)
  end.
  run_bind st1 w4 H4. clear H4. destruct st1 as [receipt_count entries1].
  destruct Hloop1 as (Hn1 & He1 & Hd4 & Hs4).
  cbn [fst snd] in Hn1, He1, Hd4, Hs4.
  lazymatch goal with
  | |- context [mbind _ (print ?line) w4] => pose proof (print_console line w4) as [Hs5 Hd5]
  end.
  run_bind u5 w5 H5. cbn [snd] in Hs5, Hd5. clear H5.
  pose proof (print_console "Generating acknowledgment letters..." w5) as [Hs6 Hd6].
  run_bind u6 w6 H6. cbn [snd] in Hs6, Hd6. clear H6.
  (* acknowledgment letters *)
  lazymatch goal with
  | |- context [mbind _ (for_each ?xs ?body ?st) w6] =>
      assert ((for_each xs body st w6).1.1 = st.1 + Z.of_nat (length xs)
              ∧ length (for_each xs body st w6).1.2 = (length st.2 + length xs)%nat
              ∧ quiet w6 (for_each xs body st w6).2) as Hloop2
        by exact (documents_loop_quiet
                    (fun i quality => generate_acknowledgment_letter QS (cyclic ORGANIZATIONS i) quality)
                    xs (fun i quality n entries w0 =>
                       letter_quiet QS (cyclic ORGANIZATIONS i) quality n entries w0) st w6)
  end.
  run_bind st2 w7 H7. clear H7. destruct st2 as [letter_count entries2].
  destruct Hloop2 as (Hn2 & He2 & Hd7 & Hs7).
  cbn [fst snd] in Hn2, He2, Hd7, Hs7.
  lazymatch goal with
  | |- context [mbind _ (print ?line) w7] => pose proof (print_console line w7) as [Hs8 Hd8]
  end.
  run_bind u8 w8 H8. cbn [snd] in Hs8, Hd8. clear H8.
  pose proof (print_console "Generating bank statements..." w8) as [Hs9 Hd9].
  run_bind u9 w9 H9. cbn [snd] in Hs9, Hd9. clear H9.
  (* bank statements *)
  lazymatch goal with
  | |- context [mbind _ (for_each ?xs ?body ?st) w9] =>
      assert ((for_each xs body st w9).1.1 = st.1 + Z.of_nat (length xs)
              ∧ length (for_each xs body st w9).1.2 = (length st.2 + length xs)%nat
              ∧ quiet w9 (for_each xs body st w9).2) as Hloop3
        by exact (documents_loop_quiet
                    (fun i quality => generate_bank_statement QS (cyclic BANKS i) quality)
                    xs (fun i quality n entries w0 =>
                       statement_quiet QS (cyclic BANKS i) quality n entries w0) st w9)
  end.
  run_bind st3 w10 H10. clear H10. destruct st3 as [statement_count entries3].
  destruct Hloop3 as (Hn3 & He3 & Hd10 & Hs10).
  cbn [fst snd] in Hn3, He3, Hd10, Hs10.
  lazymatch goal with
  | |- context [mbind _ (print ?line) w10] =>
      pose proof (print_console line w10) as [Hs11 Hd11]
  end.
  run_bind u11 w11 H11. cbn [snd] in Hs11, Hd11. clear H11.
  run_bind generatedAt w12 H12. unfold utcnow in H12. injection H12 as <- <-.
  rewrite !bind_run. unfold write_file, print. cbn [fst snd dirs stdout].
  rewrite Hs11, Hs10, Hs9, Hs8, Hs7, Hs6, Hs5, Hs4, Hs3, Hs2, Hs1.
  rewrite Hd11, Hd10, Hd9, Hd8, Hd7, Hd6, Hd5, Hd4, Hd3, Hd2, Hd1.
  rewrite He3, He2, He1, Hn1, Hn2, Hn3.
  split; [|reflexivity].
  rewrite <- !app_assoc. reflexivity.
Qed.

Lemma script_console w :
  stdout (script w).2 =
    (stdout w ++ [
       "Generating OCR test documents...";
       "Generating receipts...";
       "  Generated 30 receipts";
       "Generating acknowledgment letters...";
       "  Generated 20 acknowledgment letters";
       "Generating bank statements...";
       "  Generated 15 bank statements";
       String "010"%char "Generated 65 total documents";
       "Manifest saved to " +:+ MANIFEST_PATH ])%list
  ∧ dirs (script w).2 = (dirs w ++ created_directories)%list.
Proof.
  rewrite script_run.
  destruct (main_console (load_QUALITY_SETTINGS w).1 (load_QUALITY_SETTINGS w).2)
    as [Hs Hd].
  destruct (load_QUALITY_SETTINGS_only_rng w) as (Hd0 & _ & _ & Hs0).
  rewrite Hs, Hd, Hs0, Hd0. split; reflexivity.
Qed.

Lemma path_join_documents (b : string) (x : ascii) (rest : string) :
  b = String x rest → Ascii.eqb x "/" = false →
  path_join OUTPUT_DIR b = OUTPUT_DIR +:+ "/" +:+ b.
Proof.
  intros Hb Hx. destruct OUTPUT_DIR_documents as [s ->].
  by erewrite (path_join_below s "d" "ocuments").
Qed.

Lemma subdirectory_path kind :
  path_join OUTPUT_DIR (directory kind) = OUTPUT_DIR +:+ "/" +:+ directory kind.
Proof. destruct kind; by eapply path_join_documents. Qed.

Lemma scheduled_filename_plain kind item :
  item ∈ schedule_of kind → String.index 0 "/" (scheduled_filename item) = None.
Proof.
  intros Hin.
  assert (forallb (fun item => match String.index 0 "/" (scheduled_filename item) with
                               | None => true
                               | Some _ => false
                               end) (schedule_of kind) = true) as Hall
    by (destruct kind; vm_compute; reflexivity).
  rewrite forallb_forall in Hall. specialize (Hall item ltac:(by apply list_elem_of_In)).
  by destruct (String.index 0 "/" (scheduled_filename item)).
Qed.

Lemma documents_saved_in QS kind records saved :
  Forall3 (document_ok QS) (schedule_of kind) records saved →
  Forall (saved_in (directory kind)) saved ∧ length saved = length (qualities kind).
Proof.
  intros Hall. split.
  - assert (Forall (fun item : scheduled =>
                      item.1.1 = kind
                      ∧ String.index 0 "/" (scheduled_filename item) = None)
              (schedule_of kind)) as Hkind.
    { apply Forall_forall. intros item Hin.
      split; [|by apply (scheduled_filename_plain kind)].
      unfold schedule_of in Hin. apply list_elem_of_In, in_map_iff in Hin
        as ([i quality] & <- & _). reflexivity. }
    induction Hall as [|item record file items records saved Hok _ IH]; [constructor|].
    apply Forall_cons in Hkind as [[Hitem Hplain] Hitems]. constructor; [|by apply IH].
    destruct Hok as (_ & _ & img & _ & _ & _ & -> & _).
    split; [|by exists img]. exists (scheduled_filename item).
    split; [|exact Hplain]. cbn [fst].
    rewrite saved_path, <- Hitem, subdirectory_path. unfold relative_path.
    by rewrite !string_app_assoc.
  - rewrite <- (Forall3_length_lr _ _ _ _ Hall). unfold schedule_of, enumerate.
    by rewrite length_map, length_imap.
Qed.

(** X9: what a run prints is what it did: the count printed after each of
    the three loops is the number of images the run saved in the directory
    of that document type, 30 receipts, 20 acknowledgment letters and 15
    bank statements, the total printed at the end is the number of all
    images saved, and the last line names the manifest, which is written
    after the images. *)
Theorem X9_console_reports_what_was_saved w :
  ∃ receipts letters statements manifest,
    files (script w).2 =
      (files w ++ receipts ++ letters ++ statements
         ++ [(MANIFEST_PATH, JsonText manifest)])%list
    ∧ Forall (saved_in "receipts") receipts
    ∧ Forall (saved_in "acknowledgment_letters") letters
    ∧ Forall (saved_in "bank_statements") statements
    ∧ (length receipts = 30 ∧ length letters = 20 ∧ length statements = 15)%nat
    ∧ stdout (script w).2 =
        (stdout w ++ [
           "Generating OCR test documents...";
           "Generating receipts...";
           "  Generated " +:+ Str.of_Z (Z.of_nat (length receipts)) +:+ " receipts";
           "Generating acknowledgment letters...";
           "  Generated " +:+ Str.of_Z (Z.of_nat (length letters))
             +:+ " acknowledgment letters";
           "Generating bank statements...";
           "  Generated " +:+ Str.of_Z (Z.of_nat (length statements))
             +:+ " bank statements";
           String "010"%char
             ("Generated "
                +:+ Str.of_Z (Z.of_nat (length (receipts ++ letters ++ statements)))
                +:+ " total documents");
           "Manifest saved to " +:+ MANIFEST_PATH ])%list.
Proof.
  destruct (script_spec w) as (records & saved & Hfiles & Hall & _).
  destruct (script_console w) as [Hstdout _].
  unfold schedule in Hall.
  apply Forall3_app_inv_l in Hall
    as (records1 & records' & receipts & saved' & -> & -> & Hall1 & Hall).
  apply Forall3_app_inv_l in Hall
    as (records2 & records3 & letters & statements & -> & -> & Hall2 & Hall3).
  destruct (documents_saved_in _ _ _ _ Hall1) as [Hin1 Hlen1].
  destruct (documents_saved_in _ _ _ _ Hall2) as [Hin2 Hlen2].
  destruct (documents_saved_in _ _ _ _ Hall3) as [Hin3 Hlen3].
  change (length (qualities Receipt)) with 30%nat in Hlen1.
  change (length (qualities AcknowledgmentLetter)) with 20%nat in Hlen2.
  change (length (qualities BankStatement)) with 15%nat in Hlen3.
  eexists receipts, letters, statements, _.
  split; [rewrite Hfiles, <- !app_assoc; reflexivity|].
  split; [exact Hin1|]. split; [exact Hin2|]. split; [exact Hin3|].
  split; [by repeat split|].
  rewrite !length_app, Hlen1, Hlen2, Hlen3. exact Hstdout.
Qed.

(** ** The paths of the files written *)

Lemma documents_paths QS items records saved :
  Forall3 (document_ok QS) items records saved →
  saved.*1 = (fun item => OUTPUT_DIR +:+ "/" +:+ relative_path item) <$> items.
Proof.
  induction 1 as [|item record file items records saved Hok _ IH]; [done|].
  destruct Hok as (_ & _ & img & _ & _ & _ & -> & _).
  cbn [fmap list_fmap fst]. by rewrite IH, saved_path.
Qed.

Lemma MANIFEST_PATH_json : ∃ s, MANIFEST_PATH = s +:+ "manifest.json".
Proof.
  unfold MANIFEST_PATH, path_join.
  destruct (String.eqb BASE_DIR ""); [by exists ""|].
  destruct (String.eqb _ "/"); [by exists BASE_DIR|].
  exists (BASE_DIR +:+ "/"). by rewrite string_app_assoc.
Qed.

(** No image is saved under the path of the manifest: an image path ends
    with [g], the manifest path with [n]. *)
Lemma image_path_not_manifest item :
  OUTPUT_DIR +:+ "/" +:+ relative_path item ≠ MANIFEST_PATH.
Proof.
  destruct MANIFEST_PATH_json as [s ->].
  destruct item as [[kind i] quality].
  unfold relative_path, scheduled_filename, document_filename. cbn [fst snd].
  intros Heq.
  apply (f_equal (fun p => String.substring (String.length p - 1) 1 p)) in Heq.
  rewrite <- !string_app_assoc in Heq.
  rewrite (last_char_app _ "." "png"), (last_char_app s "m" "anifest.json") in Heq.
  discriminate Heq.
Qed.

Lemma images_in_three_directories QS item record saved :
  item ∈ schedule → document_ok QS item record saved →
  (∃ dir, dir ∈ take 3 created_directories ∧ in_directory dir saved.1)
  ∧ (∀ dir, dir ∈ drop 3 created_directories → ¬ in_directory dir saved.1).
Proof.
  intros Hin (_ & _ & img & _ & _ & _ & -> & _). cbn [fst].
  assert (∃ kind, item ∈ schedule_of kind ∧ item.1.1 = kind) as (kind & Hkind & Hitem).
  { unfold schedule in Hin.
    apply elem_of_app in Hin as [Hin | [Hin | Hin]%elem_of_app];
      [exists Receipt | exists AcknowledgmentLetter | exists BankStatement];
      (split; [exact Hin|]);
      unfold schedule_of in Hin; apply list_elem_of_In, in_map_iff in Hin
        as ([i quality] & <- & _); reflexivity. }
  rewrite saved_path. unfold relative_path. rewrite Hitem. split.
  - exists (path_join OUTPUT_DIR (directory kind)). split.
    + destruct kind;
        [ apply list_elem_of_here
        | apply list_elem_of_further, list_elem_of_here
        | do 2 apply list_elem_of_further; apply list_elem_of_here ].
    + exists (scheduled_filename item).
      split; [|by apply (scheduled_filename_plain kind)].
      by rewrite subdirectory_path, !string_app_assoc.
  - intros dir Hdir (name & Heq & _).
    unfold created_directories in Hdir. cbn [fmap list_fmap drop] in Hdir.
    repeat (apply elem_of_cons in Hdir as [-> | Hdir]);
      [ .. | by apply elem_of_nil in Hdir ];
      (erewrite path_join_documents in Heq; [|reflexivity|reflexivity]);
      rewrite !string_app_assoc in Heq; apply (inj (String.app OUTPUT_DIR)) in Heq;
      destruct kind; vm_compute in Heq; discriminate Heq.
Qed.

(** X10: a run never writes the same path twice: the 65 images and the
    manifest have pairwise different paths, so no document of the data set
    replaces another.  The run creates eight directories; every image is a
    file directly in one of the first three, and none is in one of the
    other five. *)
Theorem X10_no_path_written_twice w :
  ∃ saved manifest,
    files (script w).2 = (files w ++ saved ++ [(MANIFEST_PATH, JsonText manifest)])%list
    ∧ length saved = 65%nat
    ∧ NoDup (saved.*1 ++ [MANIFEST_PATH])%list
    ∧ dirs (script w).2 = (dirs w ++ created_directories)%list
    ∧ Forall (fun file : string * file =>
                (∃ dir, dir ∈ take 3 created_directories ∧ in_directory dir file.1)
                ∧ (∀ dir, dir ∈ drop 3 created_directories → ¬ in_directory dir file.1))
        saved.
Proof.
  destruct (script_spec w) as (records & saved & Hfiles & Hall & _).
  destruct (script_console w) as [_ Hdirs].
  pose proof (documents_paths _ _ _ _ Hall) as Hpaths.
  eexists saved, _. split; [exact Hfiles|].
  split; [by rewrite <- (Forall3_length_lr _ _ _ _ Hall)|].
  split; [|split; [exact Hdirs|]].
  - rewrite Hpaths.
    apply NoDup_app. split; [|split; [|apply NoDup_singleton]].
    + replace ((fun item => OUTPUT_DIR +:+ "/" +:+ relative_path item) <$> schedule)
        with (String.app (OUTPUT_DIR +:+ "/") <$> (relative_path <$> schedule)).
      * apply (NoDup_fmap_2 _), schedule_keys_distinct.
      * rewrite <- list_fmap_compose. apply list_fmap_ext. intros _ item _.
        cbn. by rewrite string_app_assoc.
    + intros path (item & -> & _)%list_elem_of_fmap Heq%list_elem_of_singleton.
      exact (image_path_not_manifest item Heq).
  - clear Hpaths Hfiles.
    assert (Forall (fun item => item ∈ schedule) schedule) as Hin
      by (by apply Forall_forall).
    revert Hall Hin. generalize schedule at 1 3. intros items Hall.
    induction Hall as [|item record file items records saved Hok _ IH];
      intros Hin; [constructor|].
    apply Forall_cons in Hin as [Hitem Hitems].
    constructor; [by eapply images_in_three_directories | by apply IH].
Qed.

Lemma length_app_string (a b : string) :
  String.length (a +:+ b) = (String.length a + String.length b)%nat.
Proof.
  induction a as [|x a IH]; [done|].
  change (S (String.length (a +:+ b)) = S (String.length a + String.length b)).
  by rewrite IH.
Qed.

(** ** Dates and numbers of the documents *)

(** The calendar fields of every date up to 14 days before or 30 days after
    a date [random_date()] can return. *)
Lemma dates_around_the_sample days :
  -14 ≤ days ≤ 423 →
  let d := Datetime.add_days (Datetime.mk 2025 1 1) days in
  String.length (Datetime.strftime_Y_m_d d) = 10%nat
  ∧ 1 ≤ Datetime.month d ≤ 12
  ∧ 1 ≤ Datetime.day d ≤ Datetime.days_in_month (Datetime.is_leap (Datetime.year d))
                           (Datetime.month d)
  ∧ Datetime.year d = (if days <? 0 then 2024 else if days <? 365 then 2025 else 2026).
Proof.
  intros Hdays.
  assert (forallb (fun days =>
            let d := Datetime.add_days (Datetime.mk 2025 1 1) days in
            (String.length (Datetime.strftime_Y_m_d d) =? 10)%nat
            && (1 <=? Datetime.month d) && (Datetime.month d <=? 12)
            && (1 <=? Datetime.day d)
            && (Datetime.day d <=?
                  Datetime.days_in_month (Datetime.is_leap (Datetime.year d))
                    (Datetime.month d))
            && (Datetime.year d =?
                  (if days <? 0 then 2024 else if days <? 365 then 2025 else 2026)))
            (seqZ (-14) 438) = true) as Hall by (vm_compute; reflexivity).
  rewrite forallb_forall in Hall.
  specialize (Hall days ltac:(apply list_elem_of_In, elem_of_seqZ; lia)).
  cbv zeta in Hall |- *.
  repeat (apply andb_true_iff in Hall as [Hall ?]).
  repeat split; try (by apply Z.leb_le); try (by apply Z.eqb_eq); by apply Nat.eqb_eq.
Qed.

Lemma holds_from_spec f start count n :
  holds_from f start count = true → start ≤ n < start + Z.of_nat count → f n = true.
Proof.
  revert start. induction count as [|count IH]; intros start Hall Hn; [lia|].
  cbn [holds_from] in Hall. apply andb_true_iff in Hall as [Hstart Hrest].
  destruct (decide (n = start)) as [->|]; [exact Hstart|].
  apply (IH (start + 1)); [exact Hrest | lia].
Qed.

Lemma five_digits n : 10000 ≤ n ≤ 99999 → String.length (Str.of_Z n) = 5%nat.
Proof.
  intros Hn.
  assert (holds_from (fun n => (String.length (Str.of_Z n) =? 5)%nat) 10000
            (Z.to_nat 90000) = true) as Hall by (vm_compute; reflexivity).
  apply Nat.eqb_eq. apply (holds_from_spec _ _ _ n Hall). lia.
Qed.

(** The receipt renderer, with the range of its date. *)
Lemma generate_receipt_dated QS org quality index entries w :
  ∃ date amount n canvas w1,
    let filename := document_filename "receipt" (org_short org) quality index in
    (generate_receipt QS org quality index entries w).1 =
      (filename,
       (entries ++ [manifest_record ("receipts/" +:+ filename) "receipt" quality [
          ("organization_name", JString (org_name org));
          ("ein", JString (org_ein org));
          ("amount", JFloat amount);
          ("date", JString (Datetime.strftime_Y_m_d date));
          ("donor_name", JString "Test Donor");
          ("receipt_number", JString (receipt_number date n))
        ]])%list)
    ∧ rendered QS quality (path_join (path_join OUTPUT_DIR "receipts") filename)
        canvas w w1 (generate_receipt QS org quality index entries w).2
    ∧ 10000 ≤ n ≤ 99999
    ∧ sampled_date date
    ∧ texts canvas =
        ([ org_name org; "EIN: " +:+ org_ein org; "DONATION RECEIPT";
           "Receipt Number: " +:+ receipt_number date n;
           "Date: " +:+ Datetime.strftime_B_d_Y date;
           "Received From:"; "Test Donor"; "123 Test Street"; "Test City, ST 12345";
           "DONATION AMOUNT"; "$" +:+ Float.format_comma_2f amount ]
         ++ textwrap_wrap receipt_tax_text 60
         ++ [ "Authorized Signature"; "Thank you for your generous donation!" ])%list.
Proof.
  unfold generate_receipt. cbv beta iota zeta.
  pose proof (pure_random_random_date 2025 w) as Hw1.
  pose proof (random_date_sampled w) as Hsampled.
  run_bind date w1 Hdate. cbn [fst] in Hsampled.
  pose proof (pure_random_random_amount 25 5000 w1) as Hw2.
  run_bind amount w2 Hamount.
  pose proof (pure_random_rand (Random.randint 10000 99999) w2) as Hw3.
  pose proof (rand_fst (Random.randint 10000 99999) w2) as Hn.
  pose proof (randint_range 10000 99999 (rng w2) ltac:(lia)) as Hrange.
  run_bind n w3 Hn3. cbn [fst snd] in Hw1, Hw2, Hw3, Hn. rewrite <- Hn in Hrange.
  match goal with
  | |- context [draw_lines ?x ?s ?c ?f ?l ?i ?y] =>
      pose proof (texts_draw_lines x s c f l i y) as Htexts;
      pose proof (drawn_only_draw_lines x s c f l i y) as Hdrawn;
      destruct (draw_lines x s c f l i y) as [img y'] eqn:Hlines
  end.
  cbn [fst snd] in Htexts, Hdrawn.
  rewrite bind_run, bind_run, ret_run. cbn [fst snd].
  eexists date, amount, n, _, w3.
  split; [reflexivity|]. split; [|split; [exact Hrange|split; [exact Hsampled|]]].
  - apply rendered_world.
    + eapply only_rng_trans; [|exact Hw3]. eapply only_rng_trans; [exact Hw1 | exact Hw2].
    + simpl. exact Hdrawn.
  - rewrite !texts_Draw, Htexts, !texts_Draw. cbn [app].
    unfold texts at 1. cbn [ops history omap list_omap].
    rewrite <- !app_assoc. reflexivity.
Qed.

(** X11: a receipt is dated between 2025-01-01 and 2026-01-29, and its
    number, on the page and in the ground truth, is RCP, the year of that
    date (2025 or 2026) and a number of five digits, joined by hyphens: 14
    characters in all.  The date of the ground truth has the ten characters
    of an ISO date. *)
Theorem X11_receipt_number_format QS org quality index entries w :
  ∃ date amount n year header footer canvas w1,
    let filename := document_filename "receipt" (org_short org) quality index in
    let number := "RCP-" +:+ year +:+ "-" +:+ Str.of_Z n in
    (generate_receipt QS org quality index entries w).1 =
      (filename,
       (entries ++ [manifest_record ("receipts/" +:+ filename) "receipt" quality [
          ("organization_name", JString (org_name org));
          ("ein", JString (org_ein org));
          ("amount", JFloat amount);
          ("date", JString (Datetime.strftime_Y_m_d date));
          ("donor_name", JString "Test Donor");
          ("receipt_number", JString number)
        ]])%list)
    ∧ rendered QS quality (path_join (path_join OUTPUT_DIR "receipts") filename)
        canvas w w1 (generate_receipt QS org quality index entries w).2
    ∧ texts canvas =
        (header ++ [ "Receipt Number: " +:+ number;
                     "Date: " +:+ Datetime.strftime_B_d_Y date ] ++ footer)%list
    ∧ Datetime.toordinal (Datetime.mk 2025 1 1) ≤ Datetime.toordinal date
        ≤ Datetime.toordinal (Datetime.mk 2026 1 29)
    ∧ (year = "2025" ∧ Datetime.year date = 2025
       ∨ year = "2026" ∧ Datetime.year date = 2026)
    ∧ 10000 ≤ n ≤ 99999
    ∧ String.length number = 14%nat
    ∧ String.length (Datetime.strftime_Y_m_d date) = 10%nat.
Proof.
  destruct (generate_receipt_dated QS org quality index entries w)
    as (date & amount & n & canvas & w1 & Hres & Hrendered & Hn & Hsampled & Htexts).
  pose proof (sampled_date_ordinal _ Hsampled) as Hordinal.
  destruct Hsampled as (days & Hdays & ->).
  destruct (dates_around_the_sample days ltac:(lia)) as (Hiso & _ & _ & Hyear).
  cbv zeta in Hiso, Hyear.
  destruct (Z.ltb_spec days 0) as [|_]; [lia|].
  exists (Datetime.add_days (Datetime.mk 2025 1 1) days), amount, n,
    (Str.of_Z (Datetime.year (Datetime.add_days (Datetime.mk 2025 1 1) days))),
    [ org_name org; "EIN: " +:+ org_ein org; "DONATION RECEIPT" ],
    ([ "Received From:"; "Test Donor"; "123 Test Street"; "Test City, ST 12345";
       "DONATION AMOUNT"; "$" +:+ Float.format_comma_2f amount ]
     ++ textwrap_wrap receipt_tax_text 60
     ++ [ "Authorized Signature"; "Thank you for your generous donation!" ])%list,
    canvas, w1.
  cbv zeta.
  split; [exact Hres|]. split; [exact Hrendered|].
  split; [exact Htexts|].
  split; [exact Hordinal|].
  split; [|split; [exact Hn|split; [|exact Hiso]]].
  - rewrite Hyear. destruct (days <? 365); [by left | by right].
  - assert (String.length (Str.of_Z (Datetime.year
              (Datetime.add_days (Datetime.mk 2025 1 1) days))) = 4%nat) as Hfour
      by (rewrite Hyear; by destruct (days <? 365)).
    pose proof (five_digits n Hn) as Hfive.
    revert Hfour Hfive. generalize (Str.of_Z n).
    generalize (Str.of_Z (Datetime.year (Datetime.add_days (Datetime.mk 2025 1 1) days))).
    intros y digits Hy Hd.
    change (S (S (S (S (String.length (y +:+ "-" +:+ digits))))) = 14%nat).
    rewrite !length_app_string, Hy, Hd. reflexivity.
Qed.

(** ** [apply_quality] as a function of the random source *)

Lemma rand_run {A} (f : Random.state → A * Random.state) w :
  rand f w = ((f (rng w)).1, with_rng w (f (rng w)).2).
Proof. unfold rand, with_rng. by destruct (f (rng w)). Qed.

Lemma with_rng_rng w : with_rng w (rng w) = w.
Proof. by destruct w. Qed.

Lemma with_rng_twice w s s' : with_rng (with_rng w s) s' = with_rng w s'.
Proof. reflexivity. Qed.

Lemma for_each_fmap {A B St} (f : A → B) (xs : list A) (body : B → St → M St) st w :
  for_each (f <$> xs) body st w = for_each xs (fun x => body (f x)) st w.
Proof.
  revert st w. induction xs as [|x xs IH]; intros st w; [done|].
  cbn [fmap list_fmap]. rewrite !for_each_cons. apply IH.
Qed.

Lemma noise_pixel_run mag i j img w :
  noise_pixel mag i j img w =
    (put_pixels img (noise_writes mag img [(i, j)] (rng w)).1,
     with_rng w (noise_writes mag img [(i, j)] (rng w)).2).
Proof.
  unfold noise_pixel. rewrite bind_run, rand_run. cbn [fst snd noise_writes].
  destruct (Random.random (rng w)) as [u s1]. cbn [fst snd].
  destruct (u <? 0.1)%float; [|reflexivity].
  rewrite bind_run, rand_run. cbn [fst snd rng with_rng].
  destruct (Random.randint (- mag) mag s1) as [n s2]. cbn [fst snd].
  unfold clamp_add. destruct (getpixel img (i, j)) as [[r g] b]. reflexivity.
Qed.

Lemma noise_writes_app mag img visited more s :
  noise_writes mag img (visited ++ more) s =
    (((noise_writes mag img visited s).1
        ++ (noise_writes mag img more (noise_writes mag img visited s).2).1)%list,
     (noise_writes mag img more (noise_writes mag img visited s).2).2).
Proof.
  revert s. induction visited as [|xy visited IH]; intros s.
  - simpl. by destruct (noise_writes mag img more s).
  - cbn [app noise_writes]. destruct (Random.random s) as [u s1].
    destruct (u <? 0.1)%float; [|apply IH].
    destruct (Random.randint (- mag) mag s1) as [n s2]. rewrite IH.
    destruct (noise_writes mag img visited s2) as [writes s3]. reflexivity.
Qed.

Lemma noise_writes_sublist mag img visited s :
  (noise_writes mag img visited s).1.*1 `sublist_of` visited.
Proof.
  revert s. induction visited as [|xy visited IH]; intros s; [done|].
  cbn [noise_writes]. destruct (Random.random s) as [u s1].
  destruct (u <? 0.1)%float.
  - specialize (IH (Random.randint (- mag) mag s1).2).
    destruct (Random.randint (- mag) mag s1) as [n s2]. cbn [snd] in IH.
    destruct (noise_writes mag img visited s2) as [writes s3].
    cbn [fst snd fmap list_fmap] in IH |- *. apply sublist_skip, IH.
  - apply sublist_cons. exact (IH s1).
Qed.

(** The loop over a list of fresh pixels, on an image that already carries
    the writes [done]. *)
Lemma noise_points_run mag img0 (points : list point) :
  ∀ done w,
    NoDup points → (∀ xy, xy ∈ points → xy ∉ done.*1) →
    for_each points (fun xy img => noise_pixel mag xy.1 xy.2 img)
      (put_pixels img0 done) w =
      (put_pixels img0 (done ++ (noise_writes mag img0 points (rng w)).1),
       with_rng w (noise_writes mag img0 points (rng w)).2).
Proof.
  induction points as [|[i j] points IH]; intros done w Hdup Hfresh.
  - simpl. by rewrite app_nil_r, with_rng_rng.
  - apply NoDup_cons in Hdup as [Hxy Hdup].
    rewrite for_each_cons. cbn [fst snd]. rewrite noise_pixel_run. cbn [fst snd].
    assert (noise_writes mag (put_pixels img0 done) [(i, j)] (rng w)
            = noise_writes mag img0 [(i, j)] (rng w)) as ->.
    { cbn [noise_writes]. rewrite getpixel_put_pixels; [reflexivity|].
      apply Hfresh. by left. }
    change ((i, j) :: points) with ([(i, j)] ++ points)%list.
    rewrite noise_writes_app.
    set (first := noise_writes mag img0 [(i, j)] (rng w)). cbn [fst snd].
    replace (put_pixels (put_pixels img0 done) first.1)
      with (put_pixels img0 (done ++ first.1)) by (unfold put_pixels; by rewrite fold_left_app).
    rewrite IH; [|exact Hdup|].
    + cbn [rng with_rng]. by rewrite app_assoc.
    + intros xy Hin. rewrite fmap_app, not_elem_of_app. split.
      * apply Hfresh. by right.
      * intros Hfirst.
        pose proof (noise_writes_sublist mag img0 [(i, j)] (rng w)) as Hsub.
        fold first in Hsub.
        apply (elem_of_sublist _ _ _ Hfirst) in Hsub.
        apply list_elem_of_singleton in Hsub. subst xy. by apply Hxy.
Qed.

(** The nested loops over columns and rows are one loop over the scan. *)
Lemma noise_loops_run mag img w :
  for_each (range (width img)) (fun i img =>
    for_each (range (height img)) (fun j img => noise_pixel mag i j img) img) img w =
    (put_pixels img (noise_writes mag img (scan (size img)) (rng w)).1,
     with_rng w (noise_writes mag img (scan (size img)) (rng w)).2).
Proof.
  unfold scan. fold (width img) (height img).
  pose proof (scan_NoDup (size img)) as Hdup. unfold scan in Hdup.
  fold (width img) (height img) in Hdup.
  change img with (put_pixels img []) at 2.
  change (noise_writes mag img ?v (rng w)).1
    with (([] : list (point * pixel)) ++ (noise_writes mag img v (rng w)).1)%list at 1.
  assert (∀ xy, xy ∈ concat ((fun i => (fun j => (i, j)) <$> range (height img))
                               <$> range (width img))
                → xy ∉ ([] : list (point * pixel)).*1) as Hfresh
    by (intros xy _; apply not_elem_of_nil).
  revert Hdup Hfresh. generalize ([] : list (point * pixel)) as done. revert w.
  induction (range (width img)) as [|i columns IH]; intros w done Hdup Hfresh.
  - simpl. by rewrite app_nil_r, with_rng_rng.
  - cbn [fmap list_fmap concat] in Hdup, Hfresh |- *.
    apply NoDup_app in Hdup as (Hrow & Hdisjoint & Hdup).
    rewrite for_each_cons.
    assert (height (put_pixels img done) = height img) as ->
      by (unfold height; by rewrite size_put_pixels).
    assert (for_each (range (height img)) (fun j img1 => noise_pixel mag i j img1)
              (put_pixels img done) w
            = for_each ((fun j => (i, j)) <$> range (height img))
                (fun xy img1 => noise_pixel mag xy.1 xy.2 img1) (put_pixels img done) w)
      as ->.
    { symmetry.
      exact (for_each_fmap (fun j => (i, j)) (range (height img))
               (fun xy img1 => noise_pixel mag xy.1 xy.2 img1) (put_pixels img done) w). }
    rewrite noise_points_run; [|exact Hrow|intros xy Hin; apply Hfresh, elem_of_app; by left].
    cbn [fst snd]. rewrite IH; [|exact Hdup|].
    + cbn [rng with_rng]. rewrite noise_writes_app. cbn [fst snd].
      by rewrite app_assoc.
    + intros xy Hin. rewrite fmap_app, not_elem_of_app. split.
      * apply Hfresh, elem_of_app. by right.
      * intros Hfirst.
        pose proof (noise_writes_sublist mag img ((fun j => (i, j)) <$> range (height img))
                      (rng w)) as Hsub.
        apply (elem_of_sublist _ _ _ Hfirst) in Hsub.
        by apply (Hdisjoint xy).
Qed.

(** [apply_quality], as a function of the preset, the image and the random
    source: the world changes in its random source only. *)
Lemma apply_quality_run QS img quality w :
  let s := preset QS quality in
  let blurred := if (0 <? blur s)%float then GaussianBlur img (blur s) else img in
  let noise_run :=
    if 0 <? noise s
    then noise_writes (noise s) blurred (scan (size img)) (rng w)
    else ([], rng w) in
  let noised := put_pixels blurred noise_run.1 in
  let rotation_run := Random.choice (-1) [1] noise_run.2 in
  apply_quality QS img quality w =
    (if 0 <? rotation s
     then Rotate noised (rotation_run.1 * rotation s) (255, 255, 255) true
     else noised,
     with_rng w (if 0 <? rotation s then rotation_run.2 else noise_run.2)).
Proof.
  unfold apply_quality. fold (preset QS quality).
  set (s := preset QS quality). cbv zeta.
  set (blurred := if (0 <? blur s)%float then GaussianBlur img (blur s) else img).
  assert (size blurred = size img) as Hsize.
  { subst blurred. by destruct (0 <? blur s)%float. }
  rewrite bind_run.
  match goal with |- context [(if 0 <? noise s then ?loop else _) w] =>
    assert ((if 0 <? noise s then loop else mret blurred) w
            = (put_pixels blurred
                 (if 0 <? noise s
                  then noise_writes (noise s) blurred (scan (size img)) (rng w)
                  else ([], rng w)).1,
               with_rng w
                 (if 0 <? noise s
                  then noise_writes (noise s) blurred (scan (size img)) (rng w)
                  else ([], rng w)).2)) as ->
  end.
  { destruct (0 <? noise s).
    - rewrite noise_loops_run. by rewrite Hsize.
    - rewrite ret_run. cbn [fst snd put_pixels fold_left]. by rewrite with_rng_rng. }
  cbn [fst snd]. destruct (0 <? rotation s).
  - rewrite bind_run, rand_run, ret_run. reflexivity.
  - by rewrite ret_run.
Qed.

(** ** The draws a run consumes *)

Lemma moved_on_refl s : moved_on s s.
Proof. by split. Qed.

Lemma moved_on_trans s1 s2 s3 : moved_on s1 s2 → moved_on s2 s3 → moved_on s1 s3.
Proof. intros [Hd1 Hc1] [Hd2 Hc2]. split; [congruence | lia]. Qed.

Lemma moved_on_succ s : moved_on s (Random.mk (Random.draws s) (N.succ (Random.cursor s))).
Proof. split; [reflexivity | simpl; lia]. Qed.

Lemma consuming_randint a b : consuming (Random.randint a b).
Proof. intros s. rewrite randint_state. apply moved_on_succ. Qed.

Lemma consuming_random : consuming Random.random.
Proof. intros s. rewrite random_state. apply moved_on_succ. Qed.

Lemma consuming_uniform a b : consuming (Random.uniform a b).
Proof. intros s. rewrite uniform_state. apply moved_on_succ. Qed.

Lemma consuming_choice {A} (x : A) xs : consuming (Random.choice x xs).
Proof. intros s. rewrite choice_state. apply moved_on_succ. Qed.

Lemma consuming_sample_loop {A} (d : A) k : ∀ pool n s,
  moved_on s (Random.sample_loop d pool n k s).2.
Proof.
  induction k as [|k IH]; intros pool n s; [apply moved_on_refl|].
  cbn [Random.sample_loop].
  pose proof (randbelow_state (Z.of_nat n) s) as Hstate.
  destruct (Random.randbelow (Z.of_nat n) s) as [j s1]. cbn [snd] in Hstate.
  specialize (IH (<[Z.to_nat j := nth (n - 1) pool d]> pool) (n - 1)%nat s1).
  destruct (Random.sample_loop d _ (n - 1) k s1) as [rest s2]. cbn [snd] in *.
  eapply moved_on_trans; [|exact IH]. rewrite Hstate. apply moved_on_succ.
Qed.

Lemma consuming_sample {A} (x : A) xs k : consuming (Random.sample x xs k).
Proof. intros s. apply consuming_sample_loop. Qed.

Lemma forward_ret {A} (a : A) : forward (mret a).
Proof. intros w. apply moved_on_refl. Qed.

Lemma forward_bind {A B} (m : M A) (k : A → M B) :
  forward m → (∀ a, forward (k a)) → forward (m ≫= k).
Proof.
  intros Hm Hk w. rewrite bind_run.
  eapply moved_on_trans; [apply Hm | apply Hk].
Qed.

Lemma forward_rand {A} (f : Random.state → A * Random.state) :
  consuming f → forward (rand f).
Proof. intros Hf w. rewrite rand_rng. apply Hf. Qed.

Lemma forward_print line : forward (print line).
Proof. intros w. apply moved_on_refl. Qed.

Lemma forward_makedirs path : forward (makedirs path).
Proof. intros w. apply moved_on_refl. Qed.

Lemma forward_write_file path content : forward (write_file path content).
Proof. intros w. apply moved_on_refl. Qed.

Lemma forward_utcnow : forward utcnow.
Proof. intros w. apply moved_on_refl. Qed.

Lemma forward_for_each {A St} (xs : list A) (body : A → St → M St) st :
  (∀ x st, forward (body x st)) → forward (for_each xs body st).
Proof.
  intros Hbody. revert st. induction xs as [|x xs IH]; intros st.
  - apply forward_ret.
  - simpl. apply forward_bind; [apply Hbody | apply IH].
Qed.

Create HintDb forward.
#[local] Hint Resolve forward_ret forward_print forward_makedirs forward_write_file
  forward_utcnow consuming_randint consuming_random consuming_uniform consuming_choice
  consuming_sample : forward.

(** Decompose a computation along its binds, loops and case analyses. *)
Ltac forward_steps :=
  repeat first
    [ solve [auto 1 with forward]
    | apply forward_rand
    | apply forward_bind; [|intros ?]
    | apply forward_for_each; intros ? ?
    | lazymatch goal with
      | |- forward (match ?x with _ => _ end) => destruct x
      | |- forward ((match ?x with _ => _ end) _) => destruct x
      | |- forward (if ?b then _ else _) => destruct b
      end
    | progress cbv beta iota zeta ].

Lemma forward_noise_pixel mag i j img : forward (noise_pixel mag i j img).
Proof. unfold noise_pixel. forward_steps. Qed.

#[local] Hint Resolve forward_noise_pixel : forward.

Lemma forward_apply_quality QS img quality : forward (apply_quality QS img quality).
Proof. unfold apply_quality. forward_steps. Qed.

Lemma forward_random_date y : forward (random_date y).
Proof. unfold random_date. forward_steps. Qed.

Lemma forward_random_amount a b : forward (random_amount a b).
Proof. unfold random_amount. forward_steps. Qed.

#[local] Hint Resolve forward_apply_quality forward_random_date forward_random_amount
  : forward.

Lemma forward_regular_transaction i st : forward (regular_transaction i st).
Proof. unfold regular_transaction. forward_steps. Qed.

Lemma forward_charitable_transaction org st : forward (charitable_transaction org st).
Proof. unfold charitable_transaction. forward_steps. Qed.

#[local] Hint Resolve forward_regular_transaction forward_charitable_transaction
  : forward.

Lemma drawing_bind {A B} (m : M A) (k : A → M B) :
  drawing m → (∀ a, forward (k a)) → drawing (m ≫= k).
Proof.
  intros Hm Hk w. rewrite bind_run.
  destruct (Hm w) as [Hd Hc]. destruct (Hk (m w).1 (m w).2) as [Hd' Hc'].
  split; [congruence | lia].
Qed.

Lemma drawing_randint a b : drawing (rand (Random.randint a b)).
Proof.
  intros w. rewrite rand_rng, randint_state. split; [reflexivity | simpl; lia].
Qed.

Lemma drawing_random_date y : drawing (random_date y).
Proof.
  unfold random_date. cbv zeta.
  apply drawing_bind; [apply drawing_randint | intros; apply forward_ret].
Qed.

Lemma drawing_generate_receipt QS org quality index entries :
  drawing (generate_receipt QS org quality index entries).
Proof.
  unfold generate_receipt. cbv beta iota zeta.
  apply drawing_bind; [apply drawing_random_date | intros date; forward_steps].
Qed.

Lemma drawing_generate_acknowledgment_letter QS org quality index entries :
  drawing (generate_acknowledgment_letter QS org quality index entries).
Proof.
  unfold generate_acknowledgment_letter. cbv beta iota zeta.
  apply drawing_bind; [apply drawing_random_date | intros date; forward_steps].
Qed.

Lemma drawing_generate_bank_statement QS bank quality index entries :
  drawing (generate_bank_statement QS bank quality index entries).
Proof.
  unfold generate_bank_statement. cbv beta iota zeta.
  apply drawing_bind; [apply drawing_randint | intros n; forward_steps].
Qed.

Lemma choice_at_state s :
  (Random.choice (-1) [1] s).1
  = sign_at (Random.draws (Random.choice (-1) [1] s).2)
      (N.pred (Random.cursor (Random.choice (-1) [1] s).2)).
Proof.
  unfold sign_at. rewrite choice_state. cbn [Random.draws Random.cursor].
  rewrite N.pred_succ. by destruct s.
Qed.

(** The rotation of a saved image reads the last draw of the call. *)
Lemma rendered_rotation QS quality path canvas w w1 w' :
  rendered QS quality path canvas w w1 w' →
  0 < rotation (preset QS quality) →
  ∃ img, files w' = (files w ++ [(path, Png img)])%list
         ∧ last (history img) =
             Some (Rotated (sign_at (Random.draws (rng w'))
                              (N.pred (Random.cursor (rng w')))
                            * rotation (preset QS quality)) (255, 255, 255) true).
Proof.
  intros (_ & _ & ->) Hrotation. eexists. split; [reflexivity|].
  cbn [rng]. rewrite apply_quality_run. cbv zeta. cbn [fst snd rng with_rng].
  destruct (Z.ltb_spec 0 (rotation (preset QS quality))) as [_|]; [|lia].
  cbn [history]. rewrite last_snoc. by rewrite <- choice_at_state.
Qed.

(** One call of a renderer, with the draws it consumes. *)
Lemma document_drawn_call QS item entries (m : M (string * list json)) w :
  (∃ record saved,
     (m w).1.2 = (entries ++ [record])%list
     ∧ files (m w).2 = (files w ++ [saved])%list
     ∧ utcnow_isoformat (m w).2 = utcnow_isoformat w
     ∧ document_ok QS item record saved) →
  (∃ path canvas w1, rendered QS item.2 path canvas w w1 (m w).2) →
  drawing m →
  ∃ record (saved : (string * file) * N),
    (m w).1.2 = (entries ++ [record])%list
    ∧ files (m w).2 = (files w ++ [saved.1])%list
    ∧ utcnow_isoformat (m w).2 = utcnow_isoformat w
    ∧ Random.draws (rng (m w).2) = Random.draws (rng w)
    ∧ (Random.cursor (rng w) ≤ saved.2 < Random.cursor (rng (m w).2))%N
    ∧ document_drawn QS (Random.draws (rng w)) item record saved.
Proof.
  intros (record & saved & Hrecord & Hfiles & Hclock & Hok)
    (path & canvas & w1 & Hrendered) Hdrawing.
  destruct (Hdrawing w) as [Hdraws Hcursor].
  exists record, (saved, N.pred (Random.cursor (rng (m w).2))). cbn [fst snd].
  split; [exact Hrecord|]. split; [exact Hfiles|]. split; [exact Hclock|].
  split; [exact Hdraws|]. split; [lia|]. split; [exact Hok|].
  cbn [fst snd]. intros Hrotation.
  destruct (rendered_rotation _ _ _ _ _ _ _ Hrendered Hrotation) as (img & Hsaved & Hlast).
  rewrite Hfiles in Hsaved. apply app_inv_head in Hsaved. injection Hsaved as ->.
  exists img. split; [reflexivity|]. by rewrite <- Hdraws.
Qed.

Lemma receipt_drawn QS i quality entries w :
  let run := generate_receipt QS (cyclic ORGANIZATIONS i) quality (i + 1) entries w in
  ∃ record (saved : (string * file) * N),
    run.1.2 = (entries ++ [record])%list
    ∧ files run.2 = (files w ++ [saved.1])%list
    ∧ utcnow_isoformat run.2 = utcnow_isoformat w
    ∧ Random.draws (rng run.2) = Random.draws (rng w)
    ∧ (Random.cursor (rng w) ≤ saved.2 < Random.cursor (rng run.2))%N
    ∧ document_drawn QS (Random.draws (rng w)) (Receipt, i, quality) record saved.
Proof.
  apply (document_drawn_call QS (Receipt, i, quality) entries
           (generate_receipt QS (cyclic ORGANIZATIONS i) quality (i + 1) entries)).
  - apply receipt_document.
  - destruct (generate_receipt_spec QS (cyclic ORGANIZATIONS i) quality (i + 1) entries w)
      as (date & amount & n & canvas & w1 & _ & Hrendered & _).
    by eexists _, canvas, w1.
  - apply drawing_generate_receipt.
Qed.

Lemma letter_drawn QS i quality entries w :
  let run := generate_acknowledgment_letter QS (cyclic ORGANIZATIONS i) quality (i + 1)
               entries w in
  ∃ record (saved : (string * file) * N),
    run.1.2 = (entries ++ [record])%list
    ∧ files run.2 = (files w ++ [saved.1])%list
    ∧ utcnow_isoformat run.2 = utcnow_isoformat w
    ∧ Random.draws (rng run.2) = Random.draws (rng w)
    ∧ (Random.cursor (rng w) ≤ saved.2 < Random.cursor (rng run.2))%N
    ∧ document_drawn QS (Random.draws (rng w)) (AcknowledgmentLetter, i, quality)
        record saved.
Proof.
  apply (document_drawn_call QS (AcknowledgmentLetter, i, quality) entries
           (generate_acknowledgment_letter QS (cyclic ORGANIZATIONS i) quality (i + 1)
              entries)).
  - apply letter_document.
  - destruct (generate_acknowledgment_letter_spec QS (cyclic ORGANIZATIONS i) quality
                (i + 1) entries w)
      as (date & amount & k & canvas & w1 & _ & Hrendered & _).
    by eexists _, canvas, w1.
  - apply drawing_generate_acknowledgment_letter.
Qed.

Lemma statement_drawn QS i quality entries w :
  let run := generate_bank_statement QS (cyclic BANKS i) quality (i + 1) entries w in
  ∃ record (saved : (string * file) * N),
    run.1.2 = (entries ++ [record])%list
    ∧ files run.2 = (files w ++ [saved.1])%list
    ∧ utcnow_isoformat run.2 = utcnow_isoformat w
    ∧ Random.draws (rng run.2) = Random.draws (rng w)
    ∧ (Random.cursor (rng w) ≤ saved.2 < Random.cursor (rng run.2))%N
    ∧ document_drawn QS (Random.draws (rng w)) (BankStatement, i, quality) record saved.
Proof.
  apply (document_drawn_call QS (BankStatement, i, quality) entries
           (generate_bank_statement QS (cyclic BANKS i) quality (i + 1) entries)).
  - apply statement_document.
  - destruct (generate_bank_statement_spec QS (cyclic BANKS i) quality (i + 1) entries w)
      as (n & start_date & txns & canvas & w1 & _ & Hrendered & _).
    by eexists _, canvas, w1.
  - apply drawing_generate_bank_statement.
Qed.

(** A loop of [main], with the positions at which its calls ended. *)
Lemma documents_loop_drawn QS kind
    (render : Z → string → Z → list json → M (string * list json)) entries0 w0 :
  (∀ i quality entries w,
     ∃ record (saved : (string * file) * N),
       (render i quality (i + 1) entries w).1.2 = (entries ++ [record])%list
       ∧ files (render i quality (i + 1) entries w).2 = (files w ++ [saved.1])%list
       ∧ utcnow_isoformat (render i quality (i + 1) entries w).2 = utcnow_isoformat w
       ∧ Random.draws (rng (render i quality (i + 1) entries w).2) = Random.draws (rng w)
       ∧ (Random.cursor (rng w) ≤ saved.2
          < Random.cursor (rng (render i quality (i + 1)%Z entries w).2))%N
       ∧ document_drawn QS (Random.draws (rng w)) (kind, i, quality) record saved) →
  let loop :=
    for_each (enumerate (qualities kind))
      (fun '(i, quality) '((count, manifest_entries) : main_state) =>
         '(_, manifest_entries) ← render i quality (count + 1) manifest_entries;
         mret (count + 1, manifest_entries))
      (0, entries0) in
  documents_drawn QS entries0 w0 (schedule_of kind) (loop w0).1 (loop w0).2.
Proof.
  intros Hrender loop. subst loop. unfold schedule_of.
  apply (for_each_invariant_prefix
           (fun done st w =>
              documents_drawn QS entries0 w0
                (map (fun '(i, quality) => (kind, i, quality)) done) st w)).
  - split; [done|]. split; [done|]. split; [apply moved_on_refl|].
    exists [], []. rewrite !app_nil_r.
    split; [done|]. split; [done|]. split; [constructor|].
    split; constructor.
  - intros done [i quality] rest [count entries] w Hpos
      (Hcount & Hclock & [Hdraws Hcursor] & records & saved & Hentries & Hfiles & Hall
       & Hsorted & Hrange).
    apply enumerate_position in Hpos. rewrite length_map in Hcount.
    cbn [fst snd] in Hcount, Hentries. subst count.
    rewrite <- Hpos. rewrite bind_run.
    destruct (Hrender i quality entries w)
      as (record & file & Hr & Hf & Hc & Hd & Hp & Hok).
    destruct (render i quality (i + 1) entries w) as [[name entries'] w'].
    cbn [fst snd] in *. rewrite ret_run. cbn [fst snd].
    split; [rewrite length_map, length_app; simpl; lia|].
    split; [congruence|].
    split; [split; [congruence | lia]|].
    exists (records ++ [record])%list, (saved ++ [file])%list.
    rewrite Hr, Hf, Hentries, Hfiles, !fmap_app, !app_assoc.
    split; [done|]. split; [done|].
    split; [|split].
    + apply Forall3_app; [done|]. simpl.
      constructor; [|constructor]. by rewrite <- Hdraws.
    + apply StronglySorted_app_2; [|exact Hsorted|repeat constructor].
      intros x1 x2 Hx1 ->%list_elem_of_singleton.
      rewrite Forall_forall in Hrange. specialize (Hrange x1 Hx1). lia.
    + apply Forall_app. split.
      * eapply Forall_impl; [exact Hrange|]. intros c Hc'. cbv beta in Hc'. lia.
      * constructor; [lia | constructor].
Qed.

Lemma print_rng line w : rng (print line w).2 = rng w.
Proof. reflexivity. Qed.

Lemma makedirs_loop_rng subdirs w :
  rng (for_each subdirs
         (fun subdir (_ : unit) => makedirs (path_join OUTPUT_DIR subdir)) tt w).2 = rng w.
Proof.
  apply (for_each_invariant (fun _ w' => rng w' = rng w)); [|reflexivity].
  intros subdir [] w' Hrng. exact Hrng.
Qed.

(** [main], with the positions of the draw sequence at which the calls of
    the renderers ended. *)
Lemma main_drawn QS w :
  ∃ records (saved : list ((string * file) * N)),
    files (main QS w).2 =
      (files w ++ saved.*1
         ++ [(MANIFEST_PATH, JsonText (manifest_json (utcnow_isoformat w) records))])%list
    ∧ Forall3 (document_drawn QS (Random.draws (rng w))) schedule records saved
    ∧ StronglySorted N.lt saved.*2
    ∧ Forall (fun position => (Random.cursor (rng w) ≤ position)%N) saved.*2.
Proof.
  unfold main. cbv zeta.
  pose proof (print_kept "Generating OCR test documents..." w) as [Hf1 Hc1].
  pose proof (print_rng "Generating OCR test documents..." w) as Hr1.
  run_bind u1 w1 H1. cbn [snd] in Hf1, Hc1, Hr1. clear H1.
  lazymatch goal with
  | |- context [for_each ?dirs _ tt] =>
      pose proof (makedirs_loop_kept dirs w1) as [Hf2 Hc2];
      pose proof (makedirs_loop_rng dirs w1) as Hr2
  end.
  run_bind u2 w2 H2. cbn [snd] in Hf2, Hc2, Hr2. clear H2.
  pose proof (print_kept "Generating receipts..." w2) as [Hf3 Hc3].
  pose proof (print_rng "Generating receipts..." w2) as Hr3.
  run_bind u3 w3 H3. cbn [snd] in Hf3, Hc3, Hr3. clear H3.
  (* receipts *)
  lazymatch goal with
  | |- context [mbind _ ?m w3] =>
      pose proof (documents_loop_drawn QS Receipt
        (fun i quality => generate_receipt QS (cyclic ORGANIZATIONS i) quality) [] w3
        (receipt_drawn QS)
        : documents_drawn QS [] w3 (schedule_of Receipt) (m w3).1 (m w3).2) as Hloop1
  end.
  run_bind st1 w4 H4. clear H4. destruct st1 as [receipt_count entries1].
  destruct Hloop1 as (Hn1 & Hc4 & [Hd4 Hm4] & records1 & saved1 & He1 & Hf4 & Hall1
                        & Hsorted1 & Hrange1).
  cbn [fst snd] in Hn1, He1, Hc4, Hf4, Hd4, Hm4, Hall1, Hrange1.
  change (Z.of_nat (length (schedule_of Receipt))) with 30 in Hn1.
  lazymatch goal with
  | |- context [mbind _ (print ?line) w4] =>
      pose proof (print_kept line w4) as [Hf5 Hc5]; pose proof (print_rng line w4) as Hr5
  end.
  run_bind u5 w5 H5. cbn [snd] in Hf5, Hc5, Hr5. clear H5.
  pose proof (print_kept "Generating acknowledgment letters..." w5) as [Hf6 Hc6].
  pose proof (print_rng "Generating acknowledgment letters..." w5) as Hr6.
  run_bind u6 w6 H6. cbn [snd] in Hf6, Hc6, Hr6. clear H6.
  (* acknowledgment letters *)
  lazymatch goal with
  | |- context [mbind _ ?m w6] =>
      pose proof (documents_loop_drawn QS AcknowledgmentLetter
        (fun i quality =>
           generate_acknowledgment_letter QS (cyclic ORGANIZATIONS i) quality)
        entries1 w6 (letter_drawn QS)
        : documents_drawn QS entries1 w6 (schedule_of AcknowledgmentLetter)
            (m w6).1 (m w6).2) as Hloop2
  end.
  run_bind st2 w7 H7. clear H7. destruct st2 as [letter_count entries2].
  destruct Hloop2 as (Hn2 & Hc7 & [Hd7 Hm7] & records2 & saved2 & He2 & Hf7 & Hall2
                        & Hsorted2 & Hrange2).
  cbn [fst snd] in Hn2, He2, Hc7, Hf7, Hd7, Hm7, Hall2, Hrange2.
  change (Z.of_nat (length (schedule_of AcknowledgmentLetter))) with 20 in Hn2.
  lazymatch goal with
  | |- context [mbind _ (print ?line) w7] =>
      pose proof (print_kept line w7) as [Hf8 Hc8]; pose proof (print_rng line w7) as Hr8
  end.
  run_bind u8 w8 H8. cbn [snd] in Hf8, Hc8, Hr8. clear H8.
  pose proof (print_kept "Generating bank statements..." w8) as [Hf9 Hc9].
  pose proof (print_rng "Generating bank statements..." w8) as Hr9.
  run_bind u9 w9 H9. cbn [snd] in Hf9, Hc9, Hr9. clear H9.
  (* bank statements *)
  lazymatch goal with
  | |- context [mbind _ ?m w9] =>
      pose proof (documents_loop_drawn QS BankStatement
        (fun i quality => generate_bank_statement QS (cyclic BANKS i) quality)
        entries2 w9 (statement_drawn QS)
        : documents_drawn QS entries2 w9 (schedule_of BankStatement)
            (m w9).1 (m w9).2) as Hloop3
  end.
  run_bind st3 w10 H10. clear H10. destruct st3 as [statement_count entries3].
  destruct Hloop3 as (Hn3 & Hc10 & [Hd10 Hm10] & records3 & saved3 & He3 & Hf10 & Hall3
                        & Hsorted3 & Hrange3).
  cbn [fst snd] in Hn3, He3, Hc10, Hf10, Hd10, Hm10, Hall3, Hrange3.
  change (Z.of_nat (length (schedule_of BankStatement))) with 15 in Hn3.
  lazymatch goal with
  | |- context [mbind _ (print ?line) w10] => pose proof (print_kept line w10) as [Hf11 Hc11]
  end.
  run_bind u11 w11 H11. cbn [snd] in Hf11, Hc11. clear H11.
  (* manifest *)
  run_bind generatedAt w12 H12. unfold utcnow in H12. injection H12 as <- <-.
  rewrite !bind_run. unfold write_file, print at 1 2. cbn [fst snd files].
  assert (rng w3 = rng w) as Hw3 by congruence.
  assert (rng w6 = rng w4) as Hw6 by congruence.
  assert (rng w9 = rng w7) as Hw9 by congruence.
  rewrite Hw3 in Hall1, Hrange1, Hd4, Hm4.
  rewrite Hw6 in Hall2, Hrange2, Hd7, Hm7.
  rewrite Hw9 in Hall3, Hrange3, Hd10, Hm10.
  rewrite Hd4 in Hall2, Hd7. rewrite Hd7 in Hall3.
  exists (records1 ++ records2 ++ records3)%list, (saved1 ++ saved2 ++ saved3)%list.
  split; [|split; [|split]].
  - rewrite Hf11, Hf10, Hf9, Hf8, Hf7, Hf6, Hf5, Hf4, Hf3, Hf2, Hf1.
    rewrite Hc11, Hc10, Hc9, Hc8, Hc7, Hc6, Hc5, Hc4, Hc3, Hc2, Hc1.
    rewrite He3, He2, He1, Hn1, Hn2, Hn3. cbn [app].
    rewrite !fmap_app, <- !app_assoc. reflexivity.
  - unfold schedule. repeat apply Forall3_app; assumption.
  - rewrite !fmap_app. rewrite Forall_forall in Hrange1, Hrange2, Hrange3.
    apply StronglySorted_app_2; [|exact Hsorted1|].
    + intros x1 x2 Hx1 [Hx2 | Hx2]%elem_of_app.
      * specialize (Hrange1 x1 Hx1). specialize (Hrange2 x2 Hx2). lia.
      * specialize (Hrange1 x1 Hx1). specialize (Hrange3 x2 Hx2). lia.
    + apply StronglySorted_app_2; [|exact Hsorted2|exact Hsorted3].
      intros x1 x2 Hx1 Hx2.
      specialize (Hrange2 x1 Hx1). specialize (Hrange3 x2 Hx2). lia.
  - rewrite !fmap_app. repeat apply Forall_app_2.
    + eapply Forall_impl; [exact Hrange1|]. intros c Hc'. cbv beta in Hc'. lia.
    + eapply Forall_impl; [exact Hrange2|]. intros c Hc'. cbv beta in Hc'. lia.
    + eapply Forall_impl; [exact Hrange3|]. intros c Hc'. cbv beta in Hc'. lia.
Qed.

(** A run of the script: the rotation of the edge preset reads the first
    draw, the renderers the draws after it. *)
Lemma script_drawn w :
  ∃ records (saved : list ((string * file) * N)),
    files (script w).2 =
      (files w ++ saved.*1
         ++ [(MANIFEST_PATH, JsonText (manifest_json (utcnow_isoformat w) records))])%list
    ∧ Forall3 (document_drawn (load_QUALITY_SETTINGS w).1 (Random.draws (rng w)))
        schedule records saved
    ∧ StronglySorted N.lt saved.*2
    ∧ Forall (fun position => (Random.cursor (rng w) < position)%N) saved.*2.
Proof.
  rewrite script_run.
  destruct (main_drawn (load_QUALITY_SETTINGS w).1 (load_QUALITY_SETTINGS w).2)
    as (records & saved & Hfiles & Hall & Hsorted & Hrange).
  destruct (load_QUALITY_SETTINGS_only_rng w) as (_ & Hf & Hc & _).
  assert (rng (load_QUALITY_SETTINGS w).2
          = Random.mk (Random.draws (rng w)) (N.succ (Random.cursor (rng w)))) as Hrng.
  { unfold load_QUALITY_SETTINGS. rewrite bind_run, ret_run. cbn [snd].
    by rewrite rand_rng, randint_state. }
  rewrite Hrng in Hall, Hrange. cbn [Random.draws Random.cursor] in Hall, Hrange.
  exists records, saved. rewrite Hfiles, Hf, Hc.
  split; [reflexivity|]. split; [exact Hall|]. split; [exact Hsorted|].
  eapply Forall_impl; [exact Hrange|]. intros c Hc'. cbv beta in Hc'. lia.
Qed.

(** ** The presets, applied exactly *)

Lemma sign_at_parity draws position :
  sign_at draws position = (if draws position mod 2 =? 0 then -1 else 1).
Proof.
  unfold sign_at, Random.choice, Random.randbelow, Random.next.
  cbn [Random.draws Random.cursor fst length].
  change (Z.of_nat 2) with 2.
  pose proof (Z.mod_pos_bound (draws position) 2 ltac:(lia)) as Hmod.
  destruct (Z.eqb_spec (draws position mod 2) 0) as [-> | Hodd]; [reflexivity|].
  replace (draws position mod 2) with 1 by lia. reflexivity.
Qed.

(** C4: the four quality labels are fixed presets -- high: no blur, no
    noise, no rotation; medium: blur 0.5, noise 10; low: blur 1.5, noise 25;
    edge: blur 0.8, noise 15 and a rotation between 5 and 15 degrees -- and
    [apply_quality] degrades an image by exactly the blur, the noise and the
    rotation of the preset of its label (nothing at all for high).  Exactly:
    the result is the image blurred with the preset's radius; then, when the
    preset has noise, with the pixels [noise_writes] yields for the preset's
    magnitude written on it, each the pixel of the blurred image plus one
    [randint(-noise, noise)] on its three channels, clamped, for the pixels
    of the scan whose [random()] is below 0.1; then, when the preset has a
    rotation, rotated by that many degrees one way or the other, as
    [random.choice([-1, 1])] says.  Nothing but the random source changes. *)
Theorem C4_quality_presets w0 :
  let QUALITY_SETTINGS := (load_QUALITY_SETTINGS w0).1 in
  dom QUALITY_SETTINGS = ({["high"; "medium"; "low"; "edge"]} : gset string)
  ∧ QUALITY_SETTINGS !! "high" = Some (mkSetting 0 0 0)
  ∧ QUALITY_SETTINGS !! "medium" = Some (mkSetting 0.5 10 0)
  ∧ QUALITY_SETTINGS !! "low" = Some (mkSetting 1.5 25 0)
  ∧ (∃ edge_rotation,
       5 ≤ edge_rotation ≤ 15
       ∧ QUALITY_SETTINGS !! "edge" = Some (mkSetting 0.8 15 edge_rotation))
  ∧ (∀ img w, apply_quality QUALITY_SETTINGS img "high" w = (img, w))
  ∧ (∀ quality img w,
       degraded (default (mkSetting 0 0 0) (QUALITY_SETTINGS !! quality)) img
         (apply_quality QUALITY_SETTINGS img quality w).1)
  ∧ (∀ quality img w,
       let s := default (mkSetting 0 0 0) (QUALITY_SETTINGS !! quality) in
       let blurred := if (0 <? blur s)%float then GaussianBlur img (blur s) else img in
       let noise_run :=
         if 0 <? noise s
         then noise_writes (noise s) blurred (scan (size img)) (rng w)
         else ([], rng w) in
       let noised := put_pixels blurred noise_run.1 in
       let rotation_run := Random.choice (-1) [1] noise_run.2 in
       apply_quality QUALITY_SETTINGS img quality w =
         (if 0 <? rotation s
          then Rotate noised (rotation_run.1 * rotation s) (255, 255, 255) true
          else noised,
          mkWorld (if 0 <? rotation s then rotation_run.2 else noise_run.2)
            (dirs w) (files w) (utcnow_isoformat w) (stdout w))).
Proof.
  destruct (load_QUALITY_SETTINGS_table w0) as (r & Hr & Htable).
  cbv zeta. rewrite Htable.
  split; [rewrite !dom_insert_L, dom_empty_L; set_solver|].
  split; [done|]. split; [done|]. split; [done|].
  split; [by exists r|].
  split; [intros img w; by apply apply_quality_unchanged|].
  assert (∀ quality,
            default (mkSetting 0 0 0) ((load_QUALITY_SETTINGS w0).1 !! quality)
            = preset (load_QUALITY_SETTINGS w0).1 quality) as Hpreset.
  { intros quality. unfold preset. by rewrite Htable. }
  rewrite <- Htable. split.
  - intros quality img w. rewrite Hpreset. apply apply_quality_spec.
  - intros quality img w. rewrite Hpreset. exact (apply_quality_run _ img quality w).
Qed.

(** C7: the rotation of the edge preset is drawn once, when the module is
    loaded: it is [randint(5, 15)] of the first draw of the run.  With that
    one table, [apply_quality] rotates an edge image by that magnitude times
    a sign it draws itself, with [random.choice([-1, 1])], after the draws
    of its noise: minus for an even draw, plus for an odd one.  So in a run
    each of the three edge-quality images saved ends with a rotation by the
    same magnitude, and its sign is read at a position of the draw sequence
    of its own, after the draw of the magnitude: the positions of the
    documents increase strictly. *)
Theorem C7_edge_rotation_fixed_per_run w :
  ∃ magnitude,
    5 ≤ magnitude ≤ 15
    ∧ magnitude = 5 + Random.draws (rng w) (Random.cursor (rng w)) mod 11
    ∧ (load_QUALITY_SETTINGS w).1 !! "edge" = Some (mkSetting 0.8 15 magnitude)
    ∧ (∀ img w',
         let blurred := GaussianBlur img 0.8 in
         let noise_run := noise_writes 15 blurred (scan (size img)) (rng w') in
         let own_draw := noise_run.2 in
         apply_quality (load_QUALITY_SETTINGS w).1 img "edge" w' =
           (Rotate (put_pixels blurred noise_run.1)
              (sign_at (Random.draws own_draw) (Random.cursor own_draw) * magnitude)
              (255, 255, 255) true,
            mkWorld (Random.mk (Random.draws own_draw) (N.succ (Random.cursor own_draw)))
              (dirs w') (files w') (utcnow_isoformat w') (stdout w')))
    ∧ (∀ draws position,
         sign_at draws position = (if draws position mod 2 =? 0 then -1 else 1))
    ∧ List.filter (fun item : scheduled => String.eqb item.2 "edge") schedule
      = [(Receipt, 27, "edge"); (Receipt, 28, "edge"); (Receipt, 29, "edge")]
    ∧ ∃ records (saved : list ((string * file) * N)),
        files (script w).2 =
          (files w ++ saved.*1
             ++ [(MANIFEST_PATH,
                  JsonText (manifest_json (utcnow_isoformat w) records))])%list
        ∧ Forall3 (edge_rotated_at magnitude (Random.draws (rng w)))
            schedule records saved
        ∧ StronglySorted N.lt saved.*2
        ∧ Forall (fun position => (Random.cursor (rng w) < position)%N) saved.*2.
Proof.
  destruct (load_QUALITY_SETTINGS_table w) as (magnitude & Hrange & Htable).
  assert (preset (load_QUALITY_SETTINGS w).1 "edge" = mkSetting 0.8 15 magnitude)
    as Hedge by (by rewrite Htable).
  assert (magnitude = 5 + Random.draws (rng w) (Random.cursor (rng w)) mod 11) as Hdraw.
  { assert ((load_QUALITY_SETTINGS w).1 !! "edge"
            = Some (mkSetting 0.8 15 (Random.randint 5 15 (rng w)).1)) as Hload.
    { unfold load_QUALITY_SETTINGS. rewrite bind_run, ret_run. cbn [fst].
      rewrite rand_fst. by rewrite lookup_insert_eq. }
    rewrite Htable in Hload at 1. rewrite lookup_insert_eq in Hload.
    injection Hload as ->. reflexivity. }
  exists magnitude. split; [exact Hrange|]. split; [exact Hdraw|].
  split; [by rewrite Htable|]. split; [|split; [exact sign_at_parity|split]].
  - intros img w'. cbv zeta.
    rewrite apply_quality_run. cbv zeta. rewrite Hedge. cbn [blur noise rotation].
    change (0 <? 0.8)%float with true. change (0 <? 15) with true. cbv iota.
    destruct (Z.ltb_spec 0 magnitude) as [_|]; [|lia].
    rewrite choice_state. unfold sign_at, with_rng.
    by destruct (noise_writes 15 (GaussianBlur img 0.8) (scan (size img)) (rng w')).2.
  - reflexivity.
  - destruct (script_drawn w) as (records & saved & Hfiles & Hall & Hsorted & Hafter).
    exists records, saved. split; [exact Hfiles|].
    split; [|split; [exact Hsorted | exact Hafter]].
    eapply Forall3_impl; [exact Hall|].
    intros item record file [Hok Hrotated]. unfold edge_rotated_at.
    destruct (String.eqb_spec item.2 "edge") as [Hq|_]; [|exact I].
    destruct (document_ok_describes _ _ _ _ Hok) as (_ & _ & _ & Hquality).
    rewrite Hq in Hrotated, Hquality. rewrite Hedge in Hrotated. cbn [rotation] in Hrotated.
    destruct (Hrotated ltac:(lia)) as (img & Hsaved & Hlast).
    exists img. split; [exact Hsaved|]. split; [exact Hquality | exact Hlast].
Qed.

(** X2: what [apply_quality] costs in random draws.  It leaves the
    sequence of draws alone and advances the cursor by nothing for a preset
    without noise and rotation, by one draw per pixel of the image plus one
    per pixel it wrote on the image it returns (each pixel at most once)
    when the preset has noise, and by one more when it has a rotation. *)
Theorem X2_draws_consumed_by_apply_quality QS img quality w :
  let s := preset QS quality in
  let blurred := if (0 <? blur s)%float then GaussianBlur img (blur s) else img in
  ∃ (writes : list (point * pixel)) (sign : Z),
    (apply_quality QS img quality w).1 =
      (if 0 <? rotation s
       then Rotate (put_pixels blurred writes) (sign * rotation s) (255, 255, 255) true
       else put_pixels blurred writes)
    ∧ NoDup writes.*1
    ∧ (length writes ≤ Z.to_nat (width img) * Z.to_nat (height img))%nat
    ∧ (noise s ≤ 0 → writes = [])
    ∧ Random.draws (rng (apply_quality QS img quality w).2) = Random.draws (rng w)
    ∧ Random.cursor (rng (apply_quality QS img quality w).2) =
        (Random.cursor (rng w)
           + (if (0 <? noise s)%Z
              then N.of_nat (Z.to_nat (width img) * Z.to_nat (height img))
                   + N.of_nat (length writes)
              else 0)
           + (if (0 <? rotation s)%Z then 1 else 0))%N.
Proof.
  destruct (apply_quality_exact QS img quality w)
    as (writes & sign & Hresult & _ & Hsub & _ & Hnone & Hdraws & Hcursor).
  exists writes, sign. split; [exact Hresult|].
  split; [eapply sublist_NoDup; [apply scan_NoDup | exact Hsub]|].
  pose proof (sublist_length _ _ Hsub) as Hlength.
  rewrite length_fmap, scan_length in Hlength. rewrite scan_length in Hcursor.
  split; [exact Hlength|]. split; [exact Hnone|].
  split; [exact Hdraws | exact Hcursor].
Qed.

(** ** The rows of a statement, as the page shows them *)

Lemma purchase_not_donation desc :
  desc ∈ ["GROCERY STORE"; "GAS STATION"; "RESTAURANT"; "ONLINE PURCHASE"] →
  Str.take 35 desc = desc ∧ String.prefix "DONATION " desc = false.
Proof.
  intros Hdesc.
  repeat (apply elem_of_cons in Hdesc as [-> | Hdesc]; [by split|]).
  by apply elem_of_nil in Hdesc.
Qed.

Lemma donation_is_donation name :
  Str.take 35 ("DONATION " +:+ Str.upper (Str.take 20 name))
    = "DONATION " +:+ Str.upper (Str.take 20 name)
  ∧ String.prefix "DONATION " ("DONATION " +:+ Str.upper (Str.take 20 name)) = true.
Proof.
  split.
  - apply take_short. pose proof (donation_description_length name). lia.
  - cbn. by destruct (Str.upper (Str.take 20 name)).
Qed.

(** The rows of a statement show their descriptions in full, and a row is
    charitable exactly when its description begins with DONATION. *)
Lemma rows_on_the_page regular orgs donations :
  Forall (regular_row 0) regular → Forall2 donation_row orgs donations →
  Forall (fun t => Str.take 35 (txn_desc t) = txn_desc t
                   ∧ txn_charitable t = String.prefix "DONATION " (txn_desc t))
    (regular ++ donations).
Proof.
  intros Hregular Hdonations. apply Forall_app. split.
  - eapply Forall_impl; [exact Hregular|]. intros t (-> & _ & Hdesc).
    destruct (purchase_not_donation _ Hdesc) as [Htake Hprefix]. by rewrite Hprefix.
  - eapply Forall2_Forall_r; [exact Hdonations|]. apply Forall_forall.
    intros org _ t (-> & _ & -> & _).
    destruct (donation_is_donation (org_name org)) as [Htake Hprefix].
    by rewrite Hprefix.
Qed.

Lemma row_texts_in_full rows :
  Forall (fun t => Str.take 35 (txn_desc t) = txn_desc t) rows →
  map row_texts rows =
    map (fun t => [ Datetime.strftime_m_d (txn_date t);
                    txn_desc t;
                    "$" +:+ Float.format_comma_2f (txn_amount t);
                    "$" +:+ Float.format_comma_2f (txn_balance t) ]) rows.
Proof.
  induction 1 as [|t rows Ht _ IH]; [done|].
  cbn [map]. rewrite IH. unfold row_texts. by rewrite Ht.
Qed.

(** X5: the rows drawn on a bank statement are in the order of their
    generation, the everyday purchases first and the donations after them:
    three to five rows whose description is one of the four purchases, then
    two or three rows whose description begins with DONATION.  Their dates
    increase strictly from row to row, so the sort by date changes nothing.
    The first row is dated with the first day of the statement period, no
    row is dated more than 35 days after it, and all rows are on the
    page. *)
Theorem X5_statement_rows_in_date_order QS bank quality index entries w :
  ∃ n start_date regular donations canvas w1,
    let filename := document_filename "bank_statement" (bank_short bank) quality index in
    let rows := (regular ++ donations)%list in
    rendered QS quality (path_join (path_join OUTPUT_DIR "bank_statements") filename)
      canvas w w1 (generate_bank_statement QS bank quality index entries w).2
    ∧ texts canvas =
        ([ bank_name bank; "Account Statement";
           "Account: " +:+ "***" +:+ Str.of_Z n; "Statement Period:";
           "Primary Checking";
           Datetime.strftime_m_d_Y start_date +:+ " - "
             +:+ Datetime.strftime_m_d_Y (Datetime.add_days start_date 30);
           "Date"; "Description"; "Amount"; "Balance" ]
         ++ concat (map (fun t => [ Datetime.strftime_m_d (txn_date t);
                                    txn_desc t;
                                    "$" +:+ Float.format_comma_2f (txn_amount t);
                                    "$" +:+ Float.format_comma_2f (txn_balance t) ])
                      rows)
         ++ [ "Page 1 of 1" ])%list
    ∧ (3 ≤ length regular ≤ 5)%nat
    ∧ (2 ≤ length donations ≤ 3)%nat
    ∧ Forall (fun t => txn_charitable t = false
                       ∧ txn_desc t ∈ ["GROCERY STORE"; "GAS STATION"; "RESTAURANT";
                                       "ONLINE PURCHASE"]) regular
    ∧ Forall (fun t => txn_charitable t = true
                       ∧ String.prefix "DONATION " (txn_desc t) = true) donations
    ∧ StronglySorted Z.lt (ordinal_of <$> rows)
    ∧ (txn_date <$> head rows) = Some start_date
    ∧ Forall (fun t => Datetime.toordinal start_date ≤ ordinal_of t
                       ≤ Datetime.toordinal start_date + 35) rows.
Proof.
  destruct (generate_bank_statement_rows QS bank quality index entries w)
    as (n & start_date & regular & orgs & donations & canvas & w1 & _ & Hrendered & _ & _
        & Hregular & Hdonations & Hplain & _ & _ & _ & Hgood & Hsorted & Hwithin & _
        & Hhead & Htexts).
  exists n, start_date, regular, donations, canvas, w1. cbv zeta.
  pose proof (rows_on_the_page _ _ _ Hplain Hgood) as Hpage.
  split; [exact Hrendered|].
  split.
  { rewrite Htexts, row_texts_in_full; [reflexivity|].
    eapply Forall_impl; [exact Hpage|]. by intros t [Htake _]. }
  split; [exact Hregular|]. split; [exact Hdonations|].
  split; [eapply Forall_impl; [exact Hplain|]; by intros t (? & _ & ?)|].
  split.
  { eapply Forall2_Forall_r; [exact Hgood|]. apply Forall_forall.
    intros org _ t (Hflag & _ & -> & _). split; [exact Hflag|].
    apply donation_is_donation. }
  split; [exact Hsorted|]. split; [exact Hhead | exact Hwithin].
Qed.

(** X6: the ground truth of a bank statement lists two or three charitable
    transactions, one for each organization of a sample of the catalog
    drawn without replacement: the organizations are pairwise different,
    and the entry of an organization carries its name, the absolute amount
    and the date of its row.  These rows are the last rows of the page,
    after the purchases, and each reads DONATION followed by the first
    twenty characters of the name in upper case.  Every donation is dated
    at least three days after the first day of the statement period. *)
Theorem X6_statement_donations_distinct QS bank quality index entries w :
  ∃ n start_date regular orgs donations canvas w1,
    let filename := document_filename "bank_statement" (bank_short bank) quality index in
    (generate_bank_statement QS bank quality index entries w).1 =
      (filename,
       (entries ++ [manifest_record ("bank_statements/" +:+ filename)
                      "bank_statement" quality [
          ("bank_name", JString (bank_name bank));
          ("account_number", JString ("***" +:+ Str.of_Z n));
          ("statement_period_start", JString (Datetime.strftime_Y_m_d start_date));
          ("statement_period_end",
             JString (Datetime.strftime_Y_m_d (Datetime.add_days start_date 30)));
          ("charitable_transactions", JList (charitable_entry <$> donations))
        ]])%list)
    ∧ rendered QS quality (path_join (path_join OUTPUT_DIR "bank_statements") filename)
        canvas w w1 (generate_bank_statement QS bank quality index entries w).2
    ∧ texts canvas =
        ([ bank_name bank; "Account Statement";
           "Account: " +:+ "***" +:+ Str.of_Z n; "Statement Period:";
           "Primary Checking";
           Datetime.strftime_m_d_Y start_date +:+ " - "
             +:+ Datetime.strftime_m_d_Y (Datetime.add_days start_date 30);
           "Date"; "Description"; "Amount"; "Balance" ]
         ++ concat (map (fun t => [ Datetime.strftime_m_d (txn_date t);
                                    txn_desc t;
                                    "$" +:+ Float.format_comma_2f (txn_amount t);
                                    "$" +:+ Float.format_comma_2f (txn_balance t) ])
                      (regular ++ donations))
         ++ [ "Page 1 of 1" ])%list
    ∧ Forall (fun t => txn_desc t ∈ ["GROCERY STORE"; "GAS STATION"; "RESTAURANT";
                                     "ONLINE PURCHASE"]) regular
    ∧ (2 ≤ length donations ≤ 3)%nat
    ∧ NoDup (org_name <$> orgs)
    ∧ orgs ⊆ ORGANIZATIONS
    ∧ Forall2 (fun org t =>
                 charitable_entry t =
                   JDict [ ("organization", JString (org_name org));
                           ("amount", JFloat (abs (txn_amount t)));
                           ("date", JString (Datetime.strftime_Y_m_d (txn_date t))) ]
                 ∧ txn_desc t = "DONATION " +:+ Str.upper (Str.take 20 (org_name org)))
        orgs donations
    ∧ Forall (fun t => Datetime.toordinal start_date + 3 ≤ ordinal_of t) donations.
Proof.
  destruct (generate_bank_statement_rows QS bank quality index entries w)
    as (n & start_date & regular & orgs & donations & canvas & w1 & Hresult & Hrendered
        & _ & _ & Hregular & Hdonations & Hplain & _ & Hdistinct & Hcatalog & Hgood & _
        & _ & Hafter & _ & Htexts).
  exists n, start_date, regular, orgs, donations, canvas, w1. cbv zeta.
  pose proof (rows_on_the_page _ _ _ Hplain Hgood) as Hpage.
  split; [exact Hresult|]. split; [exact Hrendered|].
  split.
  { rewrite Htexts, row_texts_in_full; [reflexivity|].
    eapply Forall_impl; [exact Hpage|]. by intros t [Htake _]. }
  split; [eapply Forall_impl; [exact Hplain|]; by intros t (_ & _ & ?)|].
  split; [exact Hdonations|].
  split; [|split; [exact Hcatalog|split]].
  - apply (NoDup_fmap_2_strong org_name); [|exact Hdistinct].
    intros org1 org2 H1%Hcatalog H2%Hcatalog.
    revert org1 org2 H1 H2. apply organization_names_injective.
  - eapply Forall2_impl; [exact Hgood|]. intros org t (_ & Horg & Hdesc & _).
    split; [|exact Hdesc]. unfold charitable_entry. by rewrite Horg.
  - eapply Forall_impl; [exact Hafter|]. intros t Ht. cbv beta in Ht. lia.
Qed.

(** X8: the balance column of a bank statement is a running balance.  The
    opening balance is [random.uniform(5000, 15000)] of the third draw of
    the call, after the draws of the account number and of the first day of
    the period; the balance shown in a row is the balance of the row above
    it (the opening balance for the first row) plus the amount of the row,
    in the order in which the rows are drawn. *)
Theorem X8_statement_running_balance QS bank quality index entries w :
  ∃ header rows canvas w1,
    let filename := document_filename "bank_statement" (bank_short bank) quality index in
    let opening :=
      (Random.uniform 5000 15000
         (Random.mk (Random.draws (rng w)) (Random.cursor (rng w) + 2))).1 in
    rendered QS quality (path_join (path_join OUTPUT_DIR "bank_statements") filename)
      canvas w w1 (generate_bank_statement QS bank quality index entries w).2
    ∧ texts canvas = (header ++ concat (map row_texts rows) ++ [ "Page 1 of 1" ])%list
    ∧ length header = 10%nat
    ∧ (5 ≤ length rows ≤ 8)%nat
    ∧ running_balance opening rows.
Proof.
  destruct (generate_bank_statement_rows QS bank quality index entries w)
    as (n & start_date & regular & orgs & donations & canvas & w1 & _ & Hrendered & _ & _
        & Hregular & Hdonations & _ & Hrunning & _ & _ & _ & _ & _ & _ & _ & Htexts).
  eexists _, (regular ++ donations)%list, canvas, w1. cbv zeta.
  split; [exact Hrendered|]. split; [exact Htexts|]. split; [reflexivity|].
  split; [rewrite length_app; lia | exact Hrunning].
Qed.

(** ** The renderers, with the draws they read *)

Lemma random_date_run w :
  random_date 2025 w =
    (Datetime.add_days (Datetime.mk 2025 1 1)
       (Random.draws (rng w) (Random.cursor (rng w)) mod 394),
     with_rng w (Random.mk (Random.draws (rng w)) (N.succ (Random.cursor (rng w))))).
Proof.
  unfold random_date. cbv zeta. rewrite bind_run, rand_run, ret_run.
  change (Datetime.diff_days (Datetime.mk 2026 1 29) (Datetime.mk 2025 1 1)) with 393.
  cbn [fst snd]. rewrite randint_state. f_equal.
Qed.

Lemma random_amount_run a b w :
  random_amount a b w =
    (Float.round2 (Random.uniform a b (rng w)).1,
     with_rng w (Random.mk (Random.draws (rng w)) (N.succ (Random.cursor (rng w))))).
Proof.
  unfold random_amount. rewrite bind_run, rand_run, ret_run. cbn [fst snd].
  by rewrite uniform_state.
Qed.

Lemma generate_acknowledgment_letter_draws QS org quality index entries w :
  ∃ date amount k canvas w1,
    let filename := document_filename "acknowledgment" (org_short org) quality index in
    let donation_date := Datetime.add_days date (- k) in
    (generate_acknowledgment_letter QS org quality index entries w).1 =
      (filename,
       (entries ++ [manifest_record ("acknowledgment_letters/" +:+ filename)
                      "acknowledgment_letter" quality [
          ("organization_name", JString (org_name org));
          ("ein", JString (org_ein org));
          ("amount", JFloat amount);
          ("date", JString (Datetime.strftime_Y_m_d donation_date));
          ("donor_name", JString "Test Donor")
        ]])%list)
    ∧ rendered QS quality
        (path_join (path_join OUTPUT_DIR "acknowledgment_letters") filename)
        canvas w w1 (generate_acknowledgment_letter QS org quality index entries w).2
    ∧ sampled_date date
    ∧ 1 ≤ k ≤ 14
    ∧ texts canvas =
        ([ org_name org; "123 Charity Lane, Nonprofit City, ST 00000";
           "Tax ID: " +:+ org_ein org;
           Datetime.strftime_B_d_Y date;
           "Test Donor"; "123 Test Street"; "Test City, ST 12345";
           "Dear Test Donor," ]
         ++ textwrap_wrap (letter_body amount donation_date) 70
         ++ textwrap_wrap letter_tax_text 70
         ++ [ "Donation Details:";
              "Amount: $" +:+ Float.format_comma_2f amount;
              "Date Received: " +:+ Datetime.strftime_Y_m_d donation_date;
              "Type: Cash/Check"; "With gratitude,"; "Executive Director";
              org_name org ])%list
    ∧ date = (random_date 2025 w).1
    ∧ amount = (random_amount 25 5000 (random_date 2025 w).2).1
    ∧ k = (Random.randint 1 14
             (rng (random_amount 25 5000 (random_date 2025 w).2).2)).1.
Proof.
  unfold generate_acknowledgment_letter. cbv beta iota zeta.
  pose proof (pure_random_random_date 2025 w) as Hw1.
  pose proof (random_date_sampled w) as Hsampled.
  run_bind date w1 Hdate.
  pose proof (pure_random_random_amount 25 5000 w1) as Hw2.
  run_bind amount w2 Hamount.
  pose proof (pure_random_rand (Random.randint 1 14) w2) as Hw3.
  pose proof (rand_fst (Random.randint 1 14) w2) as Hk.
  pose proof (randint_range 1 14 (rng w2) ltac:(lia)) as Hrange.
  run_bind k w3 Hk3. cbn [fst snd] in Hw1, Hw2, Hw3, Hk, Hsampled.
  rewrite <- Hk in Hrange.
  match goal with
  | |- context [draw_lines ?x ?s ?c ?f ?l ?i ?y] =>
      pose proof (texts_draw_lines x s c f l i y) as Htexts;
      pose proof (drawn_only_draw_lines x s c f l i y) as Hdrawn;
      destruct (draw_lines x s c f l i y) as [img y'] eqn:Hlines
  end.
  match goal with
  | |- context [draw_lines ?x ?s ?c ?f ?l ?i ?y] =>
      pose proof (texts_draw_lines x s c f l i y) as Htexts2;
      pose proof (drawn_only_draw_lines x s c f l i y) as Hdrawn2;
      destruct (draw_lines x s c f l i y) as [img2 y2] eqn:Hlines2
  end.
  cbn [fst snd drawn_only] in Htexts, Hdrawn, Htexts2, Hdrawn2.
  rewrite bind_run, bind_run, ret_run. cbn [fst snd].
  eexists date, amount, k, _, w3.
  split; [reflexivity|].
  split; [|split; [exact Hsampled|split; [exact Hrange|]]].
  - apply rendered_world.
    + eapply only_rng_trans; [|exact Hw3]. eapply only_rng_trans; [exact Hw1 | exact Hw2].
    + simpl. rewrite Hdrawn2. exact Hdrawn.
  - split.
    { rewrite !texts_Draw, Htexts2, Htexts, !texts_Draw. cbn [app].
      unfold texts at 1. cbn [ops history omap list_omap].
      rewrite <- !app_assoc. reflexivity. }
    cbn [fst snd]. split; [reflexivity|]. split; [reflexivity|].
    first [exact Hk | symmetry; exact Hk].
Qed.

Lemma generate_receipt_draws QS org quality index entries w :
  ∃ date amount n canvas w1,
    let filename := document_filename "receipt" (org_short org) quality index in
    (generate_receipt QS org quality index entries w).1 =
      (filename,
       (entries ++ [manifest_record ("receipts/" +:+ filename) "receipt" quality [
          ("organization_name", JString (org_name org));
          ("ein", JString (org_ein org));
          ("amount", JFloat amount);
          ("date", JString (Datetime.strftime_Y_m_d date));
          ("donor_name", JString "Test Donor");
          ("receipt_number", JString (receipt_number date n))
        ]])%list)
    ∧ rendered QS quality (path_join (path_join OUTPUT_DIR "receipts") filename)
        canvas w w1 (generate_receipt QS org quality index entries w).2
    ∧ 10000 ≤ n ≤ 99999
    ∧ sampled_date date
    ∧ texts canvas =
        ([ org_name org; "EIN: " +:+ org_ein org; "DONATION RECEIPT";
           "Receipt Number: " +:+ receipt_number date n;
           "Date: " +:+ Datetime.strftime_B_d_Y date;
           "Received From:"; "Test Donor"; "123 Test Street"; "Test City, ST 12345";
           "DONATION AMOUNT"; "$" +:+ Float.format_comma_2f amount ]
         ++ textwrap_wrap receipt_tax_text 60
         ++ [ "Authorized Signature"; "Thank you for your generous donation!" ])%list
    ∧ date = (random_date 2025 w).1
    ∧ amount = (random_amount 25 5000 (random_date 2025 w).2).1
    ∧ n = (Random.randint 10000 99999
             (rng (random_amount 25 5000 (random_date 2025 w).2).2)).1.
Proof.
  unfold generate_receipt. cbv beta iota zeta.
  pose proof (pure_random_random_date 2025 w) as Hw1.
  pose proof (random_date_sampled w) as Hsampled.
  run_bind date w1 Hdate. cbn [fst] in Hsampled.
  pose proof (pure_random_random_amount 25 5000 w1) as Hw2.
  run_bind amount w2 Hamount.
  pose proof (pure_random_rand (Random.randint 10000 99999) w2) as Hw3.
  pose proof (rand_fst (Random.randint 10000 99999) w2) as Hn.
  pose proof (randint_range 10000 99999 (rng w2) ltac:(lia)) as Hrange.
  run_bind n w3 Hn3. cbn [fst snd] in Hw1, Hw2, Hw3, Hn. rewrite <- Hn in Hrange.
  match goal with
  | |- context [draw_lines ?x ?s ?c ?f ?l ?i ?y] =>
      pose proof (texts_draw_lines x s c f l i y) as Htexts;
      pose proof (drawn_only_draw_lines x s c f l i y) as Hdrawn;
      destruct (draw_lines x s c f l i y) as [img y'] eqn:Hlines
  end.
  cbn [fst snd] in Htexts, Hdrawn.
  rewrite bind_run, bind_run, ret_run. cbn [fst snd].
  eexists date, amount, n, _, w3.
  split; [reflexivity|]. split; [|split; [exact Hrange|split; [exact Hsampled|]]].
  - apply rendered_world.
    + eapply only_rng_trans; [|exact Hw3]. eapply only_rng_trans; [exact Hw1 | exact Hw2].
    + simpl. exact Hdrawn.
  - split.
    { rewrite !texts_Draw, Htexts, !texts_Draw. cbn [app].
      unfold texts at 1. cbn [ops history omap list_omap].
      rewrite <- !app_assoc. reflexivity. }
    cbn [fst snd]. split; [reflexivity|]. split; [reflexivity|].
    first [exact Hn | symmetry; exact Hn].
Qed.

(** X12: the date of an acknowledgment letter's ground truth is the day the
    donation was received, 1 to 14 days before the date in the letterhead.
    The letterhead date is 2025-01-01 plus the first draw of the call
    modulo 394 days, the distance one plus the third draw modulo 14.  So
    the letterhead date lies between 2025-01-01 and 2026-01-29 and the
    donation date between 2024-12-18 and 2026-01-28; it falls in 2024, the
    year before the first year of [random_date], exactly when the first
    draw modulo 394 is below the distance.  A run whose draws are all 0
    writes the ground-truth date 2024-12-31. *)
Theorem X12_donation_received_before_the_letter QS org quality index entries w :
  let days := Random.draws (rng w) (Random.cursor (rng w)) mod 394 in
  let distance := 1 + Random.draws (rng w) (Random.cursor (rng w) + 2)%N mod 14 in
  let filename := document_filename "acknowledgment" (org_short org) quality index in
  (∃ date donation_date amount canvas w1,
     (generate_acknowledgment_letter QS org quality index entries w).1 =
       (filename,
        (entries ++ [manifest_record ("acknowledgment_letters/" +:+ filename)
                       "acknowledgment_letter" quality [
           ("organization_name", JString (org_name org));
           ("ein", JString (org_ein org));
           ("amount", JFloat amount);
           ("date", JString (Datetime.strftime_Y_m_d donation_date));
           ("donor_name", JString "Test Donor")
         ]])%list)
     ∧ rendered QS quality
         (path_join (path_join OUTPUT_DIR "acknowledgment_letters") filename)
         canvas w w1 (generate_acknowledgment_letter QS org quality index entries w).2
     ∧ texts canvas =
         ([ org_name org; "123 Charity Lane, Nonprofit City, ST 00000";
            "Tax ID: " +:+ org_ein org;
            Datetime.strftime_B_d_Y date;
            "Test Donor"; "123 Test Street"; "Test City, ST 12345";
            "Dear Test Donor," ]
          ++ textwrap_wrap (letter_body amount donation_date) 70
          ++ textwrap_wrap letter_tax_text 70
          ++ [ "Donation Details:";
               "Amount: $" +:+ Float.format_comma_2f amount;
               "Date Received: " +:+ Datetime.strftime_Y_m_d donation_date;
               "Type: Cash/Check"; "With gratitude,"; "Executive Director";
               org_name org ])%list
     ∧ date = Datetime.add_days (Datetime.mk 2025 1 1) days
     ∧ donation_date = Datetime.add_days (Datetime.mk 2025 1 1) (days - distance)
     ∧ Datetime.toordinal date = Datetime.toordinal (Datetime.mk 2025 1 1) + days
     ∧ Datetime.toordinal donation_date = Datetime.toordinal date - distance
     ∧ 0 ≤ days ≤ 393
     ∧ 1 ≤ distance ≤ 14
     ∧ Datetime.toordinal (Datetime.mk 2024 12 18) ≤ Datetime.toordinal donation_date
         ≤ Datetime.toordinal (Datetime.mk 2026 1 28)
     ∧ (Datetime.year donation_date = 2024 ↔ days < distance)
     ∧ String.length (Datetime.strftime_Y_m_d donation_date) = 10%nat)
  ∧ ∃ w0 amount,
      (generate_acknowledgment_letter QS org quality index entries w0).1.2 =
        (entries ++ [manifest_record ("acknowledgment_letters/" +:+ filename)
                       "acknowledgment_letter" quality [
           ("organization_name", JString (org_name org));
           ("ein", JString (org_ein org));
           ("amount", JFloat amount);
           ("date", JString "2024-12-31");
           ("donor_name", JString "Test Donor")
         ]])%list.
Proof.
  cbv zeta. split.
  - destruct (generate_acknowledgment_letter_draws QS org quality index entries w)
      as (date & amount & k & canvas & w1 & Hres & Hrendered & Hsampled & Hk & Htexts
          & Hdate & _ & Hdistance).
    rewrite random_date_run in Hdate. cbn [fst] in Hdate.
    rewrite random_amount_run, random_date_run in Hdistance.
    cbn [fst snd rng with_rng Random.draws Random.cursor] in Hdistance.
    unfold Random.randint, Random.randbelow, Random.next in Hdistance.
    cbn [fst snd Random.draws Random.cursor] in Hdistance.
    change (14 - 1 + 1) with 14 in Hdistance.
    replace (N.succ (N.succ (Random.cursor (rng w))))
      with (Random.cursor (rng w) + 2)%N in Hdistance by lia.
    set (days := Random.draws (rng w) (Random.cursor (rng w)) mod 394) in *.
    set (distance := 1 + Random.draws (rng w) (Random.cursor (rng w) + 2)%N mod 14) in *.
    assert (0 ≤ days ≤ 393) as Hdays
      by (subst days; pose proof (Z.mod_pos_bound
            (Random.draws (rng w) (Random.cursor (rng w))) 394 ltac:(lia)); lia).
    subst k.
    pose proof (sampled_date_shift _ (- distance) Hsampled ltac:(lia)) as Hshift.
    assert (Datetime.toordinal date = 739252 + days) as Hordinal.
    { rewrite Hdate. unfold Datetime.add_days.
      change (Datetime.toordinal (Datetime.mk 2025 1 1)) with 739252.
      rewrite ordinal_roundtrip; lia. }
    assert (Datetime.add_days date (- distance)
            = Datetime.add_days (Datetime.mk 2025 1 1) (days - distance)) as Hdonation.
    { unfold Datetime.add_days at 1. rewrite Hordinal. unfold Datetime.add_days.
      change (Datetime.toordinal (Datetime.mk 2025 1 1)) with 739252. f_equal. lia. }
    exists date, (Datetime.add_days date (- distance)), amount, canvas, w1.
    split; [exact Hres|]. split; [exact Hrendered|]. split; [exact Htexts|].
    split; [exact Hdate|]. split; [exact Hdonation|].
    change (Datetime.toordinal (Datetime.mk 2025 1 1)) with 739252.
    change (Datetime.toordinal (Datetime.mk 2024 12 18)) with 739238.
    change (Datetime.toordinal (Datetime.mk 2026 1 28)) with 739644.
    split; [exact Hordinal|]. split; [lia|]. split; [exact Hdays|].
    split; [exact Hk|]. split; [lia|].
    rewrite Hdonation.
    destruct (dates_around_the_sample (days - distance) ltac:(lia))
      as (Hiso & _ & _ & Hyear).
    cbv zeta in Hiso, Hyear. split; [|exact Hiso].
    rewrite Hyear.
    destruct (Z.ltb_spec (days - distance) 0), (Z.ltb_spec (days - distance) 365); lia.
  - set (w0 := mkWorld (Random.start (fun _ => 0)) [] [] "" []).
    destruct (generate_acknowledgment_letter_draws QS org quality index entries w0)
      as (date & amount & k & canvas & w1 & Hres & _ & _ & _ & _ & Hdate & _ & Hk).
    exists w0, amount. cbv zeta in Hres. rewrite Hres. cbn [snd].
    assert (Datetime.strftime_Y_m_d (Datetime.add_days date (- k)) = "2024-12-31") as ->;
      [|reflexivity].
    rewrite Hdate, Hk, random_amount_run, random_date_run. subst w0.
    vm_compute. reflexivity.
Qed.

(** ** Binary64 arithmetic, on the integers *)

Lemma digits2_pos_spec p :
  2 ^ (Z.pos (digits2_pos p) - 1) ≤ Z.pos p < 2 ^ Z.pos (digits2_pos p).
Proof.
  induction p as [p IH|p IH|]; cbn [digits2_pos]; [| |by vm_compute].
  all: rewrite Pos2Z.inj_succ.
  all: replace (Z.succ (Z.pos (digits2_pos p)) - 1)
         with (Z.succ (Z.pos (digits2_pos p) - 1)) by lia.
  all: rewrite !Z.pow_succ_r by lia; lia.
Qed.

Lemma digits2_pos_unique p k :
  2 ^ (k - 1) ≤ Z.pos p < 2 ^ k → Z.pos (digits2_pos p) = k.
Proof.
  intros [Hlow Hhigh]. pose proof (digits2_pos_spec p) as [Hl Hh].
  destruct (Z.lt_trichotomy (Z.pos (digits2_pos p)) k) as [Hlt | [Heq | Hgt]];
    [|exact Heq|].
  - assert (2 ^ Z.pos (digits2_pos p) ≤ 2 ^ (k - 1)) by (apply Z.pow_le_mono_r; lia). lia.
  - destruct (Z.le_gt_cases 0 k) as [Hk|Hk].
    + assert (2 ^ k ≤ 2 ^ (Z.pos (digits2_pos p) - 1)) by (apply Z.pow_le_mono_r; lia). lia.
    + rewrite (Z.pow_neg_r 2 k) in Hhigh by lia. lia.
Qed.

Lemma shr_1_m mrs : 0 ≤ shr_m mrs → shr_m (shr_1 mrs) = shr_m mrs / 2.
Proof.
  destruct mrs as [[|[p|p|]|p] r s]; cbn [shr_1 shr_m]; intros Hm; try lia.
  - reflexivity.
  - rewrite Pos2Z.inj_xI. apply Z.div_unique with 1; lia.
  - rewrite Pos2Z.inj_xO. apply Z.div_unique with 0; lia.
  - reflexivity.
Qed.

Lemma iter_shr_1_m p mrs :
  0 ≤ shr_m mrs → shr_m (SpecFloat.iter_pos shr_1 p mrs) = shr_m mrs / 2 ^ Z.pos p.
Proof.
  revert mrs. induction p as [p IH|p IH|]; intros mrs Hm; cbn [SpecFloat.iter_pos].
  - assert (0 ≤ shr_m (shr_1 mrs)) as H1 by (rewrite shr_1_m by lia; apply Z.div_pos; lia).
    assert (0 < 2 ^ Z.pos p) as Hpow by (apply Z.pow_pos_nonneg; lia).
    assert (0 ≤ shr_m (SpecFloat.iter_pos shr_1 p (shr_1 mrs))) as H2
      by (rewrite IH by lia; apply Z.div_pos; lia).
    rewrite IH, IH, shr_1_m by lia.
    rewrite !Z.div_div by lia. f_equal.
    replace (Z.pos p~1) with (1 + Z.pos p + Z.pos p) by lia.
    rewrite !Z.pow_add_r by lia. change (2 ^ 1) with 2. lia.
  - assert (0 < 2 ^ Z.pos p) as Hpow by (apply Z.pow_pos_nonneg; lia).
    assert (0 ≤ shr_m (SpecFloat.iter_pos shr_1 p mrs)) as H2
      by (rewrite IH by lia; apply Z.div_pos; lia).
    rewrite IH, IH by lia.
    rewrite !Z.div_div by lia. f_equal.
    replace (Z.pos p~0) with (Z.pos p + Z.pos p) by lia.
    rewrite !Z.pow_add_r by lia. lia.
  - rewrite shr_1_m by lia. reflexivity.
Qed.

Lemma shr_record_of_loc_m m l : shr_m (shr_record_of_loc m l) = m.
Proof. by destruct l as [|[]]. Qed.

Lemma round_nearest_even_bounds m l : m ≤ round_nearest_even m l ≤ m + 1.
Proof. destruct l as [|[]]; cbn; try destruct (Z.even m); lia. Qed.

(** One shift to the exponent of the format: the mantissa loses
    [fexp (digits m + e) - e] bits when that is positive. *)
Lemma shr_fexp_m m e l :
  0 ≤ m →
  let p := Z.max 0 (fexp prec emax (Zdigits2 m + e) - e) in
  shr_m (shr_fexp prec emax m e l).1 = m / 2 ^ p
  ∧ (shr_fexp prec emax m e l).2 = e + p.
Proof.
  intros Hm. cbv zeta. unfold shr_fexp, shr.
  destruct (fexp prec emax (Zdigits2 m + e) - e) as [|p|p] eqn:Hp; cbn [fst snd].
  - rewrite shr_record_of_loc_m. change (2 ^ Z.max 0 0) with 1. rewrite Z.div_1_r. lia.
  - rewrite iter_shr_1_m, shr_record_of_loc_m by (by rewrite shr_record_of_loc_m).
    rewrite Z.max_r by lia. done.
  - rewrite shr_record_of_loc_m, Z.max_l by lia.
    change (2 ^ 0) with 1. rewrite Z.div_1_r. lia.
Qed.

(** [binary_round_aux] on the integers: shift, round up by at most one,
    shift again. *)
Lemma binary_round_aux_cases mx ex lx :
  0 ≤ mx →
  ∃ r,
    let p1 := Z.max 0 (fexp prec emax (Zdigits2 mx + ex) - ex) in
    let p2 := Z.max 0 (fexp prec emax (Zdigits2 r + (ex + p1)) - (ex + p1)) in
    mx / 2 ^ p1 ≤ r ≤ mx / 2 ^ p1 + 1
    ∧ ∀ sx,
        binary_round_aux prec emax sx mx ex lx =
          match r / 2 ^ p2 with
          | Z0 => S754_zero sx
          | Z.pos m =>
              if ex + p1 + p2 <=? emax - prec then S754_finite sx m (ex + p1 + p2)
              else S754_infinity sx
          | Z.neg _ => S754_nan
          end.
Proof.
  intros Hm.
  destruct (shr_fexp_m mx ex lx Hm) as [Hm1 He1]. cbv zeta in Hm1, He1.
  destruct (shr_fexp prec emax mx ex lx) as [mrs1 e1] eqn:Hshift1.
  cbn [fst snd] in Hm1, He1.
  set (r := round_nearest_even (shr_m mrs1) (loc_of_shr_record mrs1)).
  pose proof (round_nearest_even_bounds (shr_m mrs1) (loc_of_shr_record mrs1)) as Hr.
  fold r in Hr. rewrite Hm1 in Hr.
  assert (0 ≤ r) as Hr0.
  { assert (0 ≤ mx / 2 ^ Z.max 0 (fexp prec emax (Zdigits2 mx + ex) - ex)); [|lia].
    apply Z.div_pos; [lia|]. apply Z.pow_pos_nonneg; lia. }
  destruct (shr_fexp_m r e1 loc_Exact Hr0) as [Hm2 He2]. cbv zeta in Hm2, He2.
  destruct (shr_fexp prec emax r e1 loc_Exact) as [mrs2 e2] eqn:Hshift2.
  cbn [fst snd] in Hm2, He2.
  exists r. cbv zeta. split; [exact Hr|]. intros sx.
  unfold binary_round_aux. rewrite Hshift1. fold r. rewrite Hshift2.
  rewrite Hm2, He2, He1. rewrite <- !Z.add_assoc. done.
Qed.

Lemma div_eucl_div_mod a b : Z.div_eucl a b = (a / b, a mod b).
Proof. unfold Z.div, Z.modulo. by destruct (Z.div_eucl a b). Qed.

Lemma fexp_normal k : -1021 ≤ k → fexp prec emax k = k - 53.
Proof. intros Hk. unfold fexp, SpecFloat.emin, prec, emax. lia. Qed.

(** The quotient and the exponent [SFdiv] starts from when it divides a
    number of cents by 100: a quotient of 53 or 54 bits. *)
Lemma cents_division_core p :
  Z.pos p < 2 ^ 40 →
  let d := Z.pos (digits2_pos p) in
  let scaled := Z.pos p * 2 ^ (60 - d) in
  SFdiv_core_binary prec emax (Z.pos p) 0 100 0
    = (scaled / 100, d - 60, new_location 100 (scaled mod 100))
  ∧ 1 ≤ d ≤ 40
  ∧ 2 ^ 59 ≤ scaled < 2 ^ 60.
Proof.
  intros Hp. cbv zeta. set (d := Z.pos (digits2_pos p)).
  pose proof (digits2_pos_spec p) as [Hl Hh]. fold d in Hl, Hh.
  assert (1 ≤ d ≤ 40) as Hd.
  { split; [lia|]. destruct (Z.le_gt_cases d 40) as [|Hgt]; [done|].
    assert (2 ^ 40 ≤ 2 ^ (d - 1)) by (apply Z.pow_le_mono_r; lia). lia. }
  assert (0 < 2 ^ (60 - d)) as Hpow by (apply Z.pow_pos_nonneg; lia).
  split; [|split; [exact Hd|]].
  - unfold SFdiv_core_binary. cbv zeta.
    change (Zdigits2 (Z.pos p)) with d. change (Zdigits2 100) with 7.
    rewrite fexp_normal by lia.
    replace (Z.min (d + 0 - (7 + 0) - 53) (0 - 0)) with (d - 60) by lia.
    replace (0 - 0 - (d - 60)) with (60 - d) by lia.
    destruct (60 - d) as [|k|k] eqn:Hk; try lia.
    rewrite Z.shiftl_mul_pow2, div_eucl_div_mod by lia. done.
  - replace (2 ^ 59) with (2 ^ (d - 1) * 2 ^ (60 - d))
      by (rewrite <- Z.pow_add_r by lia; f_equal; lia).
    replace (2 ^ 60) with (2 ^ d * 2 ^ (60 - d))
      by (rewrite <- Z.pow_add_r by lia; f_equal; lia).
    split; [apply Z.mul_le_mono_nonneg_r; lia | apply Z.mul_lt_mono_pos_r; lia].
Qed.

Lemma Zdigits2_unique m k : 2 ^ (k - 1) ≤ m < 2 ^ k → 0 < m → Zdigits2 m = k.
Proof.
  intros Hm Hpos. destruct m as [|p|p]; try lia. by apply digits2_pos_unique.
Qed.

Lemma Zdigits2_53 m : 4503599627370496 ≤ m < 9007199254740992 → Zdigits2 m = 53.
Proof.
  intros Hm. apply Zdigits2_unique; [|lia].
  change (2 ^ (53 - 1)) with 4503599627370496. change (2 ^ 53) with 9007199254740992.
  exact Hm.
Qed.

Lemma Zdigits2_54 m : 9007199254740992 ≤ m < 18014398509481984 → Zdigits2 m = 54.
Proof.
  intros Hm. apply Zdigits2_unique; [|lia].
  change (2 ^ (54 - 1)) with 9007199254740992. change (2 ^ 54) with 18014398509481984.
  exact Hm.
Qed.

(** A mantissa of 53 bits, or the 54-bit [2^53], at the exponent of the
    format. *)
Lemma shift_to_53_bits r e :
  4503599627370496 ≤ r ≤ 9007199254740992 → -1074 ≤ e →
  ∃ m j,
    r / 2 ^ Z.max 0 (fexp prec emax (Zdigits2 r + e) - e) = Z.pos m
    ∧ Z.max 0 (fexp prec emax (Zdigits2 r + e) - e) = j
    ∧ Z.pos (digits2_pos m) = 53
    ∧ 0 ≤ j ≤ 1
    ∧ Z.pos m * 2 ^ j = r.
Proof.
  intros Hr He.
  destruct (Z.eq_dec r 9007199254740992) as [->|Hne].
  - exists 4503599627370496%positive, 1.
    change (Zdigits2 9007199254740992) with 54.
    rewrite fexp_normal by lia.
    replace (Z.max 0 (54 + e - 53 - e)) with 1 by lia.
    split; [reflexivity|]. split; [reflexivity|]. split; [reflexivity|].
    split; [lia | reflexivity].
  - rewrite (Zdigits2_53 r) by lia.
    rewrite fexp_normal by lia.
    replace (Z.max 0 (53 + e - 53 - e)) with 0 by lia.
    change (2 ^ 0) with 1. rewrite Z.div_1_r.
    destruct r as [|m|m]; try lia. exists m, 0.
    split; [done|]. split; [done|].
    split; [|lia].
    change (Z.pos (digits2_pos m)) with (Zdigits2 (Z.pos m)). apply Zdigits2_53. lia.
Qed.

(** Rounding a mantissa of 53 or 54 bits: the result is a normal number at
    most two units of the mantissa away. *)
Lemma binary_round_aux_near mx ex lx :
  4503599627370496 ≤ mx < 18014398509481984 → -1074 ≤ ex ≤ 900 →
  ∃ m j,
    (∀ sx, binary_round_aux prec emax sx mx ex lx = S754_finite sx m (ex + j))
    ∧ Z.pos (digits2_pos m) = 53
    ∧ 0 ≤ j ≤ 2
    ∧ mx - 1 ≤ Z.pos m * 2 ^ j ≤ mx + 2.
Proof.
  intros Hmx Hex.
  destruct (binary_round_aux_cases mx ex lx ltac:(lia)) as (r & Hr & Hround).
  cbv zeta in Hr, Hround.
  assert (∃ p1, Z.max 0 (fexp prec emax (Zdigits2 mx + ex) - ex) = p1
                ∧ 0 ≤ p1 ≤ 1
                ∧ 4503599627370496 ≤ mx / 2 ^ p1 < 9007199254740992
                ∧ mx - 1 ≤ mx / 2 ^ p1 * 2 ^ p1 ≤ mx) as (p1 & Hp1 & Hp1' & Hhalf & Hback).
  { destruct (Z.lt_ge_cases mx 9007199254740992) as [Hlt|Hge].
    - exists 0. rewrite (Zdigits2_53 mx) by lia.
      rewrite fexp_normal by lia. change (2 ^ 0) with 1. rewrite Z.div_1_r. lia.
    - exists 1. rewrite (Zdigits2_54 mx) by lia.
      rewrite fexp_normal by lia. change (2 ^ 1) with 2.
      split; [lia|]. split; [lia|]. Z.div_mod_to_equations. lia. }
  rewrite Hp1 in Hr, Hround.
  destruct (shift_to_53_bits r (ex + p1) ltac:(lia) ltac:(lia))
    as (m & j & Hm & Hj & Hdigits & Hj' & Hmj).
  rewrite Hm, Hj in Hround.
  exists m, (p1 + j). split; [|split; [exact Hdigits|split; [lia|]]].
  - intros sx. rewrite Hround.
    replace (ex + p1 + j <=? emax - prec) with true
      by (symmetry; apply Z.leb_le; unfold emax, prec; lia).
    f_equal. lia.
  - replace (Z.pos m * 2 ^ (p1 + j)) with (r * 2 ^ p1)
      by (rewrite <- Hmj, Z.pow_add_r by lia; lia).
    assert (p1 = 0 ∨ p1 = 1) as [-> | ->] by lia.
    + change (2 ^ 0) with 1 in *. rewrite Z.div_1_r in Hr. lia.
    + change (2 ^ 1) with 2 in *. lia.
Qed.

(** Dividing a number of cents by 100: the quotient is a normal number
    Float.within two units of the last place of the exact quotient, whatever the
    sign. *)
Lemma cents_division p :
  Z.pos p < 2 ^ 40 →
  ∃ m e,
    (∀ s, SFdiv prec emax (S754_finite s p 0) (S754_finite false 100 0)
          = S754_finite s m e)
    ∧ Z.pos (digits2_pos m) = 53
    ∧ -59 ≤ e ≤ -18
    ∧ -200 ≤ 100 * Z.pos m - Z.pos p * 2 ^ (- e) ≤ 200.
Proof.
  intros Hp. destruct (cents_division_core p Hp) as (Hcore & Hd & Hscaled).
  cbv zeta in Hcore, Hd, Hscaled.
  set (d := Z.pos (digits2_pos p)) in *.
  change (2 ^ 59) with 576460752303423488 in Hscaled.
  change (2 ^ 60) with 1152921504606846976 in Hscaled.
  destruct (binary_round_aux_near (Z.pos p * 2 ^ (60 - d) / 100) (d - 60)
              (new_location 100 ((Z.pos p * 2 ^ (60 - d)) mod 100)))
    as (m & j & Hround & Hdigits & Hj & Hnear);
    [Z.div_mod_to_equations; lia | lia |].
  exists m, (d - 60 + j).
  split; [|split; [exact Hdigits|split; [lia|]]].
  - intros s. unfold SFdiv. rewrite Hcore, xorb_false_r. apply Hround.
  - replace (- (d - 60 + j)) with (60 - d - j) by lia.
    assert (2 ^ (60 - d) = 2 ^ (60 - d - j) * 2 ^ j) as Hsplit
      by (rewrite <- Z.pow_add_r by lia; f_equal; lia).
    rewrite Hsplit in Hnear, Hscaled.
    rewrite Z.mul_assoc in Hnear, Hscaled.
    set (X := Z.pos p * 2 ^ (60 - d - j)) in *.
    assert (j = 0 ∨ j = 1 ∨ j = 2) as [-> | [-> | ->]] by lia.
    + change (2 ^ 0) with 1 in *. Z.div_mod_to_equations. lia.
    + change (2 ^ 1) with 2 in *. Z.div_mod_to_equations. lia.
    + change (2 ^ 2) with 4 in *. Z.div_mod_to_equations. lia.
Qed.

Lemma round_half_even_near M n e :
  e < 0 → 400 < 2 ^ (- e) → -200 ≤ M - n * 2 ^ (- e) ≤ 200 →
  Float.round_half_even M e = n.
Proof.
  intros He Hden Hnear. unfold Float.round_half_even.
  destruct (Z.leb_spec 0 e) as [|_]; [lia|]. cbv zeta.
  set (D := 2 ^ (- e)) in *.
  destruct (Z.le_gt_cases 0 (M - n * D)) as [Hup|Hdown].
  - rewrite <- (Z.div_unique M D n (M - n * D)) by lia.
    rewrite <- (Z.mod_unique M D n (M - n * D)) by lia.
    destruct (Z.ltb_spec (2 * (M - n * D)) D); [done|lia].
  - rewrite <- (Z.div_unique M D (n - 1) (M - n * D + D)) by lia.
    rewrite <- (Z.mod_unique M D (n - 1) (M - n * D + D)) by lia.
    destruct (Z.ltb_spec (2 * (M - n * D + D)) D); [lia|].
    destruct (Z.ltb_spec D (2 * (M - n * D + D))); lia.
Qed.

Lemma round_half_even_nonneg M e : 0 ≤ M → 0 ≤ Float.round_half_even M e.
Proof.
  intros HM. unfold Float.round_half_even.
  destruct (Z.leb_spec 0 e) as [He|He]; [apply Z.mul_nonneg_nonneg; [lia|]; lia|].
  cbv zeta. assert (0 < 2 ^ (- e)) by (apply Z.pow_pos_nonneg; lia).
  assert (0 ≤ M / 2 ^ (- e)) by (apply Z.div_pos; lia).
  repeat case_match; lia.
Qed.

(** The double of a decimal with two places reads as that decimal again
    ([repr] and [format] agree): the round trip behind [round(x, 2)]. *)
Lemma hundredths_of_hundredths s n :
  0 ≤ n < 2 ^ 40 → Float.hundredths (Float.of_hundredths s n) = Some (s, n).
Proof.
  intros Hn. destruct n as [|p|p]; [by destruct s | | lia].
  unfold Float.of_hundredths, Float.hundredths.
  destruct (cents_division p ltac:(lia)) as (m & e & Hdiv & Hdigits & He & Hnear).
  rewrite Hdiv, Prim2SF_SF2Prim.
  - f_equal. f_equal. apply round_half_even_near; [lia| |lia].
    assert (2 ^ 18 ≤ 2 ^ (- e)) by (apply Z.pow_le_mono_r; lia).
    change (2 ^ 18) with 262144 in *. lia.
  - cbn [valid_binary]. unfold bounded, canonical_mantissa.
    rewrite Hdigits, fexp_normal by lia. apply andb_true_intro.
    split; [apply Z.eqb_eq; lia | apply Z.leb_le; unfold emax, prec; lia].
Qed.

Lemma round2_of_hundredths x s n :
  Float.hundredths x = Some (s, n) → Float.round2 x = Float.of_hundredths s n.
Proof.
  intros Hx. unfold Float.round2, Float.of_hundredths. rewrite Hx.
  destruct n as [|p|p]; try reflexivity.
  unfold Float.hundredths in Hx.
  destruct (Prim2SF x) as [| | |sx m e]; try discriminate.
  injection Hx as _ Hx.
  pose proof (round_half_even_nonneg (Z.pos m * 100) e ltac:(lia)). lia.
Qed.

(** *** Magnitudes: the number of bits of a mantissa plus its exponent *)

Lemma Zdigits2_bound m : 0 ≤ m → m < 2 ^ Zdigits2 m.
Proof.
  intros Hm. destruct m as [|p|p]; [done| |lia]. apply digits2_pos_spec.
Qed.

Lemma Zdigits2_nonneg m : 0 ≤ Zdigits2 m.
Proof. destruct m; cbn; lia. Qed.

Lemma Zdigits2_le m k : 0 ≤ m < 2 ^ k → 0 ≤ k → Zdigits2 m ≤ k.
Proof.
  intros [Hm Hk] Hk0. destruct m as [|p|p]; [done| |lia]. cbn [Zdigits2].
  pose proof (digits2_pos_spec p) as [Hl _].
  destruct (Z.le_gt_cases (Z.pos (digits2_pos p)) k) as [|Hgt]; [done|].
  assert (2 ^ k ≤ 2 ^ (Z.pos (digits2_pos p) - 1)) by (apply Z.pow_le_mono_r; lia). lia.
Qed.

Lemma Zdigits2_div m p :
  0 ≤ m → 0 ≤ p → Zdigits2 (m / 2 ^ p) ≤ Z.max (Zdigits2 m - p) 0.
Proof.
  intros Hm Hp. pose proof (Zdigits2_bound m Hm) as Hbound.
  pose proof (Zdigits2_nonneg m) as Hd.
  assert (0 < 2 ^ p) as Hpow by (apply Z.pow_pos_nonneg; lia).
  destruct (Z.le_gt_cases p (Zdigits2 m)) as [Hle|Hgt].
  - rewrite Z.max_l by lia. apply Zdigits2_le; [|lia].
    split; [apply Z.div_pos; lia|]. apply Z.div_lt_upper_bound; [lia|].
    rewrite <- Z.pow_add_r by lia. by replace (p + (Zdigits2 m - p)) with (Zdigits2 m) by lia.
  - rewrite Z.div_small; [cbn; lia|]. split; [lia|].
    assert (2 ^ Zdigits2 m ≤ 2 ^ p) by (apply Z.pow_le_mono_r; lia). lia.
Qed.

Lemma Zdigits2_succ a r : 0 ≤ a → 0 ≤ r ≤ a + 1 → Zdigits2 r ≤ Zdigits2 a + 1.
Proof.
  intros Ha Hr. pose proof (Zdigits2_bound a Ha) as Hbound.
  pose proof (Zdigits2_nonneg a) as Hd.
  apply Zdigits2_le; [|lia]. rewrite Z.pow_add_r by lia. change (2 ^ 1) with 2. lia.
Qed.

Lemma Zdigits2_mul a b :
  Z.pos (digits2_pos (a * b)) ≤ Z.pos (digits2_pos a) + Z.pos (digits2_pos b).
Proof.
  pose proof (digits2_pos_spec a) as [_ Ha]. pose proof (digits2_pos_spec b) as [_ Hb].
  apply (Zdigits2_le (Z.pos (a * b))); [|lia].
  rewrite Z.pow_add_r, Pos2Z.inj_mul by lia. split; [lia|].
  apply Z.mul_lt_mono_nonneg; lia.
Qed.

Lemma Zdigits2_add a b k :
  0 ≤ a → 0 ≤ b → Zdigits2 a ≤ k → Zdigits2 b ≤ k → Zdigits2 (a + b) ≤ k + 1.
Proof.
  intros Ha Hb Hka Hkb.
  pose proof (Zdigits2_bound a Ha). pose proof (Zdigits2_bound b Hb).
  pose proof (Zdigits2_nonneg a).
  assert (2 ^ Zdigits2 a ≤ 2 ^ k) by (apply Z.pow_le_mono_r; lia).
  assert (2 ^ Zdigits2 b ≤ 2 ^ k) by (apply Z.pow_le_mono_r; lia).
  apply Zdigits2_le; [|lia]. rewrite Z.pow_add_r by lia. change (2 ^ 1) with 2. lia.
Qed.

Lemma digits2_pos_shift m d :
  Z.pos (digits2_pos (Pos.iter xO m d)) = Z.pos (digits2_pos m) + Z.pos d.
Proof.
  induction d as [|d IH] using Pos.peano_ind.
  - cbn [Pos.iter digits2_pos]. lia.
  - rewrite Pos.iter_succ. cbn [digits2_pos]. lia.
Qed.

Lemma within_le K K' f : Float.within K f → K ≤ K' → Float.within K' f.
Proof. destruct f as [| | |s m e]; cbn; [done..|]. intros [? ?] ?. split; [done|lia]. Qed.

Lemma binary_round_aux_within K mx ex lx :
  0 ≤ mx → Zdigits2 mx + ex ≤ K → ex < K → -1074 ≤ K ≤ 900 →
  Float.within (K + 1) (binary_round_aux prec emax false mx ex lx).
Proof.
  intros Hmx Hmag Hex HK.
  destruct (binary_round_aux_cases mx ex lx Hmx) as (r & Hr & Hround).
  cbv zeta in Hr, Hround. rewrite Hround. clear Hround.
  set (p1 := Z.max 0 (fexp prec emax (Zdigits2 mx + ex) - ex)) in *.
  set (p2 := Z.max 0 (fexp prec emax (Zdigits2 r + (ex + p1)) - (ex + p1))).
  pose proof (Zdigits2_nonneg mx) as Hd0.
  assert (0 ≤ p1) as Hp1 by (subst p1; lia).
  assert (0 ≤ p2) as Hp2 by (subst p2; lia).
  pose proof (Zdigits2_div mx p1 Hmx Hp1) as Hda.
  assert (0 ≤ mx / 2 ^ p1) as Ha
    by (apply Z.div_pos; [lia|]; apply Z.pow_pos_nonneg; lia).
  pose proof (Zdigits2_succ (mx / 2 ^ p1) r Ha ltac:(lia)) as Hdr.
  pose proof (Zdigits2_div r p2 ltac:(lia) Hp2) as Hdm.
  assert (ex + p1 ≤ K) as He1
    by (subst p1; unfold fexp, SpecFloat.emin, prec, emax; lia).
  destruct (r / 2 ^ p2) as [|m|m] eqn:Hm.
  - done.
  - cbn [Zdigits2] in Hdm.
    assert (ex + p1 + p2 ≤ emax - prec) as He2.
    { subst p2. unfold fexp, SpecFloat.emin, prec, emax in *. lia. }
    destruct (Z.leb_spec (ex + p1 + p2) (emax - prec)) as [_|]; [|lia].
    split; [done|]. lia.
  - assert (0 ≤ r / 2 ^ p2); [|lia].
    apply Z.div_pos; [lia|]. apply Z.pow_pos_nonneg; lia.
Qed.

Lemma shl_align_magnitude mx ex ex' :
  Z.pos (digits2_pos (shl_align mx ex ex').1) + (shl_align mx ex ex').2
    = Z.pos (digits2_pos mx) + ex
  ∧ (shl_align mx ex ex').2 ≤ ex.
Proof.
  unfold shl_align. destruct (ex' - ex) as [|d|d] eqn:Hd; cbn [fst snd]; [lia..|].
  rewrite digits2_pos_shift. lia.
Qed.

Lemma binary_round_within K mx ex :
  Z.pos (digits2_pos mx) + ex ≤ K → -1074 ≤ K ≤ 900 →
  Float.within (K + 1) (binary_round prec emax false mx ex).
Proof.
  intros Hmag HK. unfold binary_round.
  destruct (shl_align_magnitude mx ex (fexp prec emax (Z.pos (digits2_pos mx) + ex)))
    as [Hsame Hle].
  destruct (shl_align mx ex (fexp prec emax (Z.pos (digits2_pos mx) + ex))) as [mz ez].
  cbn [fst snd] in Hsame, Hle.
  apply binary_round_aux_within; cbn [Zdigits2]; lia.
Qed.

Lemma shl_align_exponent mx ex ex' : ex' ≤ ex → (shl_align mx ex ex').2 = ex'.
Proof.
  intros Hle. unfold shl_align. destruct (ex' - ex) as [|d|d] eqn:Hd; cbn [snd]; lia.
Qed.

Lemma of_uint63_within r :
  0 ≤ r < 2 ^ 53 → Float.within 54 (Prim2SF (of_uint63 (Uint63.of_Z r))).
Proof.
  intros Hr. rewrite of_uint63_spec, Uint63.of_Z_spec.
  change (2 ^ 53) with 9007199254740992 in Hr.
  rewrite Z.mod_small by (change wB with 9223372036854775808; lia).
  destruct r as [|p|p]; [done| |lia]. cbn [binary_normalize].
  apply (binary_round_within 53); [|lia].
  pose proof (Zdigits2_le (Z.pos p) 53 ltac:(change (2 ^ 53) with 9007199254740992; lia)
                ltac:(lia)) as Hd.
  cbn [Zdigits2] in Hd. lia.
Qed.

Lemma Zdigits2_shiftl m s : 0 ≤ m → 0 ≤ s → Zdigits2 (m * 2 ^ s) ≤ Zdigits2 m + s.
Proof.
  intros Hm Hs. pose proof (Zdigits2_bound m Hm). pose proof (Zdigits2_nonneg m).
  assert (0 < 2 ^ s) by (apply Z.pow_pos_nonneg; lia).
  apply Zdigits2_le; [|lia]. rewrite Z.pow_add_r by lia.
  split; [lia|]. apply Z.mul_lt_mono_pos_r; lia.
Qed.

(** Division by [2^53], the last step of [random.random()]. *)
Lemma div_2p53_within K x :
  Float.within K x → -1000 ≤ K ≤ 900 →
  Float.within (K - 52) (SFdiv prec emax x (S754_finite false 4503599627370496 1)).
Proof.
  intros Hx HK. destruct x as [s| | |s mx ex]; cbn [Float.within] in Hx; try done.
  - by subst s.
  - destruct Hx as [-> Hmag]. unfold SFdiv, SFdiv_core_binary. cbv zeta.
    change (Zdigits2 4503599627370496) with 53. cbn [Zdigits2 xorb].
    set (d1 := Z.pos (digits2_pos mx)) in *.
    set (e' := Z.min (fexp prec emax (d1 + ex - (53 + 1))) (ex - 1)).
    assert (e' ≤ ex - 1) as He' by (subst e'; lia).
    assert (e' ≤ Z.max (d1 + ex - 107) (-1074)) as He''
      by (subst e'; unfold fexp, SpecFloat.emin, prec, emax; lia).
    set (m' := match ex - 1 - e' with
               | 0 => Z.pos mx
               | Z.pos _ => Z.shiftl (Z.pos mx) (ex - 1 - e')
               | Z.neg _ => 0
               end).
    assert (0 ≤ m' ∧ Zdigits2 m' ≤ d1 + (ex - 1 - e')) as [Hm' Hdm'].
    { subst m'. destruct (ex - 1 - e') as [|k|k] eqn:Hk; [cbn; lia| |lia].
      rewrite Z.shiftl_mul_pow2 by lia. split; [lia|].
      apply (Zdigits2_shiftl (Z.pos mx)); lia. }
    rewrite div_eucl_div_mod.
    replace (K - 52) with (K - 53 + 1) by lia.
    pose proof (Zdigits2_div m' 52 Hm' ltac:(lia)) as Hq.
    change (2 ^ 52) with 4503599627370496 in Hq.
    apply binary_round_aux_within; [|lia..].
    apply Z.div_pos; lia.
Qed.

Lemma SFmul_within Kx Ky x y :
  Float.within Kx x → Float.within Ky y → -1074 ≤ Kx + Ky ≤ 900 →
  Float.within (Kx + Ky + 1) (SFmul prec emax x y).
Proof.
  intros Hx Hy HK.
  destruct x as [sx| | |sx mx ex], y as [sy| | |sy my ey]; cbn [Float.within] in Hx, Hy; try done.
  - by subst.
  - destruct Hy as [-> _]. by subst.
  - destruct Hx as [-> _]. by subst.
  - destruct Hx as [-> Hx], Hy as [-> Hy]. cbn [SFmul xorb].
    pose proof (Zdigits2_mul mx my).
    apply binary_round_aux_within; cbn [Zdigits2]; lia.
Qed.

Lemma SFadd_within K x y :
  Float.within K x → Float.within K y → -1074 ≤ K ≤ 800 →
  Float.within (K + 2) (SFadd prec emax x y).
Proof.
  intros Hx Hy HK.
  destruct x as [sx| | |sx mx ex], y as [sy| | |sy my ey]; cbn [Float.within] in Hx, Hy; try done.
  - by subst.
  - cbn [SFadd]. destruct Hy as [-> Hy]. split; [done|lia].
  - cbn [SFadd]. destruct Hx as [-> Hx]. split; [done|lia].
  - destruct Hx as [-> Hx], Hy as [-> Hy]. cbn [SFadd cond_Zopp].
    pose proof (shl_align_magnitude mx ex (Z.min ex ey)) as [Hmx _].
    pose proof (shl_align_magnitude my ey (Z.min ex ey)) as [Hmy _].
    rewrite shl_align_exponent in Hmx, Hmy by lia.
    set (mx' := (shl_align mx ex (Z.min ex ey)).1) in *.
    set (my' := (shl_align my ey (Z.min ex ey)).1) in *.
    change (Z.pos mx' + Z.pos my') with (Z.pos (mx' + my')). cbn [binary_normalize].
    replace (K + 2) with (K + 1 + 1) by lia.
    apply binary_round_within; [|lia].
    pose proof (Zdigits2_add (Z.pos mx') (Z.pos my') (K - Z.min ex ey)
                  ltac:(lia) ltac:(lia) ltac:(cbn [Zdigits2]; lia)
                  ltac:(cbn [Zdigits2]; lia)) as Hsum.
    change (Z.pos mx' + Z.pos my') with (Z.pos (mx' + my')) in Hsum.
    cbn [Zdigits2] in Hsum. lia.
Qed.

Lemma round_half_even_le M e :
  0 ≤ M → e < 0 → Float.round_half_even M e ≤ M / 2 ^ (- e) + 1.
Proof.
  intros HM He. unfold Float.round_half_even.
  destruct (Z.leb_spec 0 e); [lia|]. cbv zeta. repeat case_match; lia.
Qed.

(** A number below [2^32] shows fewer than [2^40] hundredths. *)
Lemma within_hundredths K x :
  Float.within K (Prim2SF x) → K ≤ 32 →
  ∃ n, Float.hundredths x = Some (false, n) ∧ 0 ≤ n < 2 ^ 40.
Proof.
  intros Hx HK. unfold Float.hundredths.
  destruct (Prim2SF x) as [s| | |s m e]; cbn [Float.within] in Hx; try done.
  - subst s. by exists 0.
  - destruct Hx as [-> Hmag]. eexists. split; [reflexivity|].
    pose proof (round_half_even_nonneg (Z.pos m * 100) e ltac:(lia)) as Hn.
    split; [exact Hn|].
    pose proof (digits2_pos_spec m) as [_ Hm].
    set (d := Z.pos (digits2_pos m)) in *.
    change (2 ^ 40) with 1099511627776.
    assert (2 ^ 32 = 4294967296) as H32 by reflexivity.
    destruct (Z.le_gt_cases 0 e) as [He|He].
    + unfold Float.round_half_even. destruct (Z.leb_spec 0 e); [|lia].
      assert (Z.pos m * 2 ^ e < 2 ^ d * 2 ^ e)
        by (apply Z.mul_lt_mono_pos_r; [apply Z.pow_pos_nonneg; lia | lia]).
      rewrite <- Z.pow_add_r in * by lia.
      assert (2 ^ (d + e) ≤ 2 ^ 32) by (apply Z.pow_le_mono_r; lia). lia.
    + pose proof (round_half_even_le (Z.pos m * 100) e ltac:(lia) He) as Hle.
      assert (0 < 2 ^ (- e)) as Hpow by (apply Z.pow_pos_nonneg; lia).
      assert (Z.pos m * 100 / 2 ^ (- e) < 429496729600); [|lia].
      apply Z.div_lt_upper_bound; [lia|].
      destruct (Z.le_gt_cases 0 (d + e)) as [Hde|Hde].
      * assert (2 ^ d = 2 ^ (- e) * 2 ^ (d + e)) as Hsplit
          by (rewrite <- Z.pow_add_r by lia; f_equal; lia).
        assert (2 ^ (d + e) ≤ 2 ^ 32) by (apply Z.pow_le_mono_r; lia).
        rewrite Hsplit in Hm. nia.
      * assert (2 ^ d ≤ 2 ^ (- e)) by (apply Z.pow_le_mono_r; lia). nia.
Qed.

(** [random.random()] is not negative and below 4 (in fact below 1). *)
Lemma random_within s : Float.within 2 (Prim2SF (Random.random s).1).
Proof.
  unfold Random.random, Random.randbelow, Random.next. cbn [fst].
  rewrite div_spec.
  change (Prim2SF 0x1p53) with (S754_finite false 4503599627370496 1).
  apply (div_2p53_within 54); [|lia].
  apply of_uint63_within. apply Z.mod_pos_bound. done.
Qed.

(** [random.uniform(a, b)] for numbers [a] and [b - a] that are not
    negative. *)
Lemma uniform_within K a b s :
  Float.within K (Prim2SF a) → Float.within (K - 3) (Prim2SF (b - a)) → -1000 ≤ K ≤ 800 →
  Float.within (K + 2) (Prim2SF (Random.uniform a b s).1).
Proof.
  intros Ha Hb HK. unfold Random.uniform.
  pose proof (random_within s) as Hu. destruct (Random.random s) as [u s'].
  cbn [fst] in Hu |- *. rewrite add_spec, mul_spec.
  apply SFadd_within; [exact Ha| |lia].
  replace K with (K - 3 + 2 + 1) at 1 by lia. apply SFmul_within; [exact Hb|exact Hu|lia].
Qed.

Lemma opp_hundredths a n :
  Float.hundredths a = Some (false, n) →
  Float.hundredths (- a) = Some (true, n) ∧ abs (- a) = a.
Proof.
  intros Ha. unfold Float.hundredths in *. split.
  - rewrite opp_spec. destruct (Prim2SF a) as [s| | |s m e]; try done.
    + injection Ha as -> <-. done.
    + injection Ha as -> <-. done.
  - apply Prim2SF_inj. rewrite abs_spec, opp_spec.
    destruct (Prim2SF a) as [s| | |s m e]; try done.
    + by injection Ha as -> _.
    + by injection Ha as -> _.
Qed.

(** [round(x, 2)] of a number below [2^32] that is not negative is the
    double of a decimal with two places, and is shown as that decimal. *)
Lemma round2_two_decimals K x :
  Float.within K (Prim2SF x) → K ≤ 32 →
  ∃ cents,
    Float.hundredths (Float.round2 x) = Some (false, cents)
    ∧ Float.round2 x = Float.of_hundredths false cents
    ∧ Float.hundredths x = Some (false, cents).
Proof.
  intros Hx HK. destruct (within_hundredths K x Hx HK) as (n & Hn & Hrange).
  exists n. rewrite (round2_of_hundredths x false n Hn).
  split; [by apply hundredths_of_hundredths|]. done.
Qed.

Lemma uniform_25_5000_within s : Float.within 18 (Prim2SF (Random.uniform 25 5000 s).1).
Proof. apply (uniform_within 16); [by vm_compute | by vm_compute | lia]. Qed.

Lemma uniform_50_500_within s : Float.within 18 (Prim2SF (Random.uniform 50 500 s).1).
Proof. apply (uniform_within 16); [by vm_compute | by vm_compute | lia]. Qed.

Lemma format_of_hundredths x negative cents :
  Float.hundredths x = Some (negative, cents) →
  Float.format_comma_2f x =
    (if negative then "-" else "")
      +:+ Str.group_thousands (Str.of_Z (cents / 100)) +:+ "."
      +:+ Str.zfill 2 (cents mod 100).
Proof. intros Hx. unfold Float.format_comma_2f. by rewrite Hx. Qed.

(** What [random_amount] returns is a decimal with two places: the page
    shows it digit for digit, and the float is the double of that decimal. *)
Lemma random_amount_two_decimals K a b w :
  (∀ s, Float.within K (Prim2SF (Random.uniform a b s).1)) → K ≤ 32 →
  ∃ cents,
    Float.hundredths (random_amount a b w).1 = Some (false, cents)
    ∧ (random_amount a b w).1 = Float.of_hundredths false cents.
Proof.
  intros Hwithin HK. rewrite random_amount_fst.
  destruct (round2_two_decimals K _ (Hwithin (rng w)) HK) as (cents & Hshown & Hfloat & _).
  by exists cents.
Qed.

Lemma donation_amount_two_decimals org t :
  donation_row org t →
  ∃ cents,
    Float.hundredths (txn_amount t) = Some (true, cents)
    ∧ abs (txn_amount t) = Float.of_hundredths false cents.
Proof.
  intros (_ & _ & _ & s & ->).
  destruct (round2_two_decimals 18 _ (uniform_50_500_within s) ltac:(lia))
    as (cents & Hshown & Hfloat & _).
  destruct (opp_hundredths _ _ Hshown) as [Hopp Habs].
  exists cents. split; [exact Hopp|]. by rewrite Habs.
Qed.

(** C1: every call of a renderer appends exactly one manifest record and
    saves one image, and the record's expectedFields are the values written
    on that image.  Receipt: organization name, EIN, amount, date, donor name
    and receipt number.  Acknowledgment letter: the amount and the
    donation-received date of the letter body, which lies 1 to 14 days before
    the letterhead date.  Bank statement: bank name, account number, statement
    period, and one charitable_transactions entry, with absolute amount and
    date, for exactly the charitable rows among the rows drawn: a row is
    charitable exactly when the description shown on the page begins with
    DONATION, and there are two or three of them.  An amount is a number of
    cents: the page shows it as the decimal with two places [cents / 100],
    and the float recorded is the double of that decimal -- for a donation
    row, which shows a negative amount, without the sign. *)
Theorem C1_expected_fields_match_rendering QS quality index entries w :
  (∀ org, ∃ date amount number cents img,
     let run := generate_receipt QS org quality index entries w in
     let filename := document_filename "receipt" (org_short org) quality index in
     run.1.2 =
       (entries ++ [manifest_record ("receipts/" +:+ filename) "receipt" quality [
          ("organization_name", JString (org_name org));
          ("ein", JString (org_ein org));
          ("amount", JFloat amount);
          ("date", JString (Datetime.strftime_Y_m_d date));
          ("donor_name", JString "Test Donor");
          ("receipt_number", JString number) ]])%list
     ∧ files run.2 =
         (files w ++ [(path_join (path_join OUTPUT_DIR "receipts") filename, Png img)])%list
     ∧ org_name org ∈ texts img
     ∧ "EIN: " +:+ org_ein org ∈ texts img
     ∧ "$" +:+ Float.format_comma_2f amount ∈ texts img
     ∧ "Date: " +:+ Datetime.strftime_B_d_Y date ∈ texts img
     ∧ "Test Donor" ∈ texts img
     ∧ "Receipt Number: " +:+ number ∈ texts img
     ∧ Float.format_comma_2f amount =
         Str.group_thousands (Str.of_Z (cents / 100)) +:+ "."
           +:+ Str.zfill 2 (cents mod 100)
     ∧ amount = Float.of_hundredths false cents)
  ∧ (∀ org, ∃ letter_date donation_date amount cents img,
       let run := generate_acknowledgment_letter QS org quality index entries w in
       let filename := document_filename "acknowledgment" (org_short org) quality index in
       run.1.2 =
         (entries ++ [manifest_record ("acknowledgment_letters/" +:+ filename)
                        "acknowledgment_letter" quality [
            ("organization_name", JString (org_name org));
            ("ein", JString (org_ein org));
            ("amount", JFloat amount);
            ("date", JString (Datetime.strftime_Y_m_d donation_date));
            ("donor_name", JString "Test Donor") ]])%list
       ∧ files run.2 =
           (files w ++ [(path_join (path_join OUTPUT_DIR "acknowledgment_letters")
                           filename, Png img)])%list
       ∧ "Amount: $" +:+ Float.format_comma_2f amount ∈ texts img
       ∧ "Date Received: " +:+ Datetime.strftime_Y_m_d donation_date ∈ texts img
       ∧ (∀ line, line ∈ textwrap_wrap (letter_body amount donation_date) 70 →
                  line ∈ texts img)
       ∧ Datetime.strftime_B_d_Y letter_date ∈ texts img
       ∧ Datetime.toordinal letter_date - 14 ≤ Datetime.toordinal donation_date
           ≤ Datetime.toordinal letter_date - 1
       ∧ Float.format_comma_2f amount =
           Str.group_thousands (Str.of_Z (cents / 100)) +:+ "."
             +:+ Str.zfill 2 (cents mod 100)
       ∧ amount = Float.of_hundredths false cents)
  ∧ (∀ bank, ∃ account start_date end_date rows img,
       let run := generate_bank_statement QS bank quality index entries w in
       let filename :=
         document_filename "bank_statement" (bank_short bank) quality index in
       run.1.2 =
         (entries ++ [manifest_record ("bank_statements/" +:+ filename)
                        "bank_statement" quality [
            ("bank_name", JString (bank_name bank));
            ("account_number", JString account);
            ("statement_period_start", JString (Datetime.strftime_Y_m_d start_date));
            ("statement_period_end", JString (Datetime.strftime_Y_m_d end_date));
            ("charitable_transactions", JList (charitable_entries rows)) ]])%list
       ∧ files run.2 =
           (files w ++ [(path_join (path_join OUTPUT_DIR "bank_statements") filename,
                         Png img)])%list
       ∧ texts img =
           ([ bank_name bank; "Account Statement"; "Account: " +:+ account;
              "Statement Period:"; "Primary Checking";
              Datetime.strftime_m_d_Y start_date +:+ " - "
                +:+ Datetime.strftime_m_d_Y end_date;
              "Date"; "Description"; "Amount"; "Balance" ]
            ++ concat (map row_texts rows)
            ++ [ "Page 1 of 1"; "SAMPLE - FOR TESTING ONLY" ])%list
       ∧ Forall (fun t => txn_charitable t
                          = String.prefix "DONATION " (Str.take 35 (txn_desc t))) rows
       ∧ (2 ≤ length (charitable_entries rows) ≤ 3)%nat
       ∧ Forall well_formed_txn rows
       ∧ Forall (fun t =>
                   txn_charitable t = true →
                   ∃ cents,
                     Float.format_comma_2f (txn_amount t) =
                       "-" +:+ Str.group_thousands (Str.of_Z (cents / 100)) +:+ "."
                         +:+ Str.zfill 2 (cents mod 100)
                     ∧ abs (txn_amount t) = Float.of_hundredths false cents) rows).
Proof.
  split; [|split].
  - intros org.
    destruct (generate_receipt_draws QS org quality index entries w)
      as (date & amount & n & canvas & w1 & Hres & Hrendered & _ & _ & Htexts & _
          & Hamount & _).
    destruct (rendered_texts _ _ _ _ _ _ _ Hrendered) as (img & Hfiles & Himg).
    destruct (random_amount_two_decimals 18 25 5000 (random_date 2025 w).2
                uniform_25_5000_within ltac:(lia)) as (cents & Hshown & Hfloat).
    rewrite <- Hamount in Hshown, Hfloat.
    exists date, amount, (receipt_number date n), cents, img. cbv zeta in Hres |- *.
    rewrite Hres, Hfiles, Himg, Htexts. cbn [fst snd].
    split; [done|]. split; [done|].
    split; [rewrite !elem_of_app, !elem_of_cons; tauto|].
    split; [rewrite !elem_of_app, !elem_of_cons; tauto|].
    split; [rewrite !elem_of_app, !elem_of_cons; tauto|].
    split; [rewrite !elem_of_app, !elem_of_cons; tauto|].
    split; [rewrite !elem_of_app, !elem_of_cons; tauto|].
    split; [rewrite !elem_of_app, !elem_of_cons; tauto|].
    split; [exact (format_of_hundredths _ _ _ Hshown) | exact Hfloat].
  - intros org.
    destruct (generate_acknowledgment_letter_draws QS org quality index entries w)
      as (date & amount & k & canvas & w1 & Hres & Hrendered & Hdate & Hk & Htexts & _
          & Hamount & _).
    destruct (rendered_texts _ _ _ _ _ _ _ Hrendered) as (img & Hfiles & Himg).
    destruct (random_amount_two_decimals 18 25 5000 (random_date 2025 w).2
                uniform_25_5000_within ltac:(lia)) as (cents & Hshown & Hfloat).
    rewrite <- Hamount in Hshown, Hfloat.
    exists date, (Datetime.add_days date (- k)), amount, cents, img.
    cbv zeta in Hres |- *.
    rewrite Hres, Hfiles, Himg, Htexts. cbn [fst snd].
    split; [done|]. split; [done|].
    split; [rewrite !elem_of_app, !elem_of_cons; tauto|].
    split; [rewrite !elem_of_app, !elem_of_cons; tauto|].
    split; [intros line Hline; rewrite !elem_of_app; tauto|].
    split; [rewrite !elem_of_app, !elem_of_cons; tauto|].
    split; [rewrite (sampled_date_shift date (- k) Hdate); lia|].
    split; [exact (format_of_hundredths _ _ _ Hshown) | exact Hfloat].
  - intros bank.
    destruct (generate_bank_statement_rows QS bank quality index entries w)
      as (n & start_date & regular & orgs & donations & canvas & w1 & Hres & Hrendered & _ & _
          & _ & Hdonations & Hplain & _ & _ & Hcatalog & Hgood & _ & _ & _ & _ & Htexts).
    destruct (rendered_texts _ _ _ _ _ _ _ Hrendered) as (img & Hfiles & Himg).
    pose proof (rows_on_the_page _ _ _ Hplain Hgood) as Hpage.
    exists ("***" +:+ Str.of_Z n), start_date, (Datetime.add_days start_date 30),
      (regular ++ donations)%list, img.
    cbv zeta in Hres |- *.
    assert (charitable_entries (regular ++ donations) = charitable_entry <$> donations)
      as Hentries.
    { apply charitable_entries_rows.
      - eapply Forall_impl; [exact Hplain|]. by intros t (? & _).
      - eapply Forall2_Forall_r; [exact Hgood|]. apply Forall_forall.
        by intros org _ t (? & _). }
    rewrite Hres, Hfiles, Himg, Htexts, Hentries. cbn [fst snd].
    split; [done|]. split; [done|]. split; [by rewrite <- !app_assoc|].
    split; [eapply Forall_impl; [exact Hpage|]; by intros t [-> ->]|].
    split; [by rewrite length_fmap|].
    split.
    { apply Forall_app. split.
      + eapply Forall_impl; [exact Hplain|]. intros t (Hflag & Horg & _).
        unfold well_formed_txn. by rewrite Hflag.
      + eapply Forall2_Forall_r; [exact Hgood|]. apply Forall_forall.
        intros org Horg%Hcatalog t (Hflag & Ht & Hdesc & _).
        unfold well_formed_txn. rewrite Hflag. by exists org. }
    apply Forall_app. split.
    + eapply Forall_impl; [exact Hplain|]. intros t (Hflag & _) Htrue. congruence.
    + eapply Forall2_Forall_r; [exact Hgood|]. apply Forall_forall.
      intros org _ t Hrow _.
      destruct (donation_amount_two_decimals org t Hrow) as (cents & Hshown & Hfloat).
      exists cents. split; [exact (format_of_hundredths _ _ _ Hshown) | exact Hfloat].
Qed.

End Script.

(** ** Instances on the demo environment *)

(** The fallback of C9 at the label "ultra". *)
Lemma C9_unknown_quality_witness :
  ("ultra" ≠ "high" ∧ "ultra" ≠ "medium" ∧ "ultra" ≠ "low" ∧ "ultra" ≠ "edge")
  ∧ preset (load_QUALITY_SETTINGS (Demo.world_at Demo.oracle_a "2026-01-29T12:00:00")).1
      "ultra"
    = preset (load_QUALITY_SETTINGS (Demo.world_at Demo.oracle_a "2026-01-29T12:00:00")).1
        "high"
  ∧ apply_quality Demo.raster Demo.rotated_size
      (load_QUALITY_SETTINGS (Demo.world_at Demo.oracle_a "2026-01-29T12:00:00")).1
      (New "RGB" (600, 800) "white") "ultra"
      (Demo.world_at Demo.oracle_b "2026-01-29T12:00:00")
    = (New "RGB" (600, 800) "white", Demo.world_at Demo.oracle_b "2026-01-29T12:00:00").
Proof.
  split; [repeat split; discriminate|].
  apply (C9_unknown_quality_falls_back Demo.raster Demo.rotated_size
           (Demo.world_at Demo.oracle_a "2026-01-29T12:00:00")
           (New "RGB" (600, 800) "white") "ultra"
           (Demo.world_at Demo.oracle_b "2026-01-29T12:00:00"));
    discriminate.
Defined.

(** X3 at the medium preset and an image of two by two pixels. *)
Lemma X3_size_kept_witness :
  rotation
    (preset (load_QUALITY_SETTINGS (Demo.world_at Demo.oracle_a "2026-01-29T12:00:00")).1
       "medium") ≤ 0
  ∧ size Demo.rotated_size
      (apply_quality Demo.raster Demo.rotated_size
         (load_QUALITY_SETTINGS (Demo.world_at Demo.oracle_a "2026-01-29T12:00:00")).1
         (New "RGB" (2, 2) "white") "medium"
         (Demo.world_at Demo.oracle_b "2026-01-29T12:00:00")).1
    = size Demo.rotated_size (New "RGB" (2, 2) "white").
Proof.
  split; [vm_compute; discriminate|].
  apply (X3_size_kept_without_rotation Demo.raster Demo.rotated_size
           (load_QUALITY_SETTINGS (Demo.world_at Demo.oracle_a "2026-01-29T12:00:00")).1
           (New "RGB" (2, 2) "white") "medium"
           (Demo.world_at Demo.oracle_b "2026-01-29T12:00:00")).
  vm_compute; discriminate.
Defined.



(** The edge preset on a two-by-two image, with the table of one load:
    blur, then noise on the pixels the draws select, then the rotation by
    the magnitude of the table, whose sign depends on the draws that the
    image meets. *)
Example edge_degradation_of_a_small_image :
  let QUALITY_SETTINGS :=
    (load_QUALITY_SETTINGS (Demo.world_at Demo.oracle_a "2026-01-29T12:00:00")).1 in
  let degrade oracle :=
    history (apply_quality Demo.raster Demo.rotated_size QUALITY_SETTINGS
               (New "RGB" (2, 2) "white") "edge"
               (Demo.world_at oracle "2026-01-29T12:00:00")).1 in
  QUALITY_SETTINGS !! "edge" = Some (mkSetting 0.8 15 11)
  ∧ degrade Demo.oracle_a =
      [ Blurred 0.8; Noised (0, 0) (242, 242, 242); Noised (0, 1) (255, 255, 255);
        Noised (1, 0) (243, 243, 243); Noised (1, 1) (255, 255, 255);
        Rotated 11 (255, 255, 255) true ]
  ∧ degrade Demo.oracle_b =
      [ Blurred 0.8; Noised (0, 0) (243, 243, 243); Noised (0, 1) (255, 255, 255);
        Noised (1, 0) (244, 244, 244); Noised (1, 1) (255, 255, 255);
        Rotated (-11) (255, 255, 255) true ]
  ∧ degrade (fun _ => 2 ^ 52) = [ Blurred 0.8; Rotated (-11) (255, 255, 255) true ].
Proof. vm_compute. by repeat split. Qed.
